(** * talkmybio-admin: the dashboard's handlers over an explicit store

    A shallow embedding of the admin dashboard's event handlers
    (call-history browser, preference save flows, sign-in form and
    application shell).  Each asynchronous handler is written as a function
    over the state it touches; the remote document store and the agent
    provider are external, so the outcome of every remote call is read from
    an environment record and every call is recorded in an event log. *)

From stdpp Require Import base option list sorting gmap strings numbers.

Open Scope string_scope.
Open Scope nat_scope.
Open Scope list_scope.

(** ** JavaScript values the handlers rely on *)

(** What a [catch] clause receives: firebase errors carry a [code], a plain
    [Error] does not. *)
Record JsError := mkError { code : option string; message : string }.

(** Truthiness of a string: only the empty string is falsy. *)
Definition truthy (s : string) : bool :=
  match s with "" => false | _ => true end.

(** [a || b] on an optional string ([None] is [undefined]). *)
Definition or_else (a : option string) (b : string) : string :=
  match a with
  | Some s => if truthy s then s else b
  | None => b
  end.

(** What the operator and the developer console get to see.
    [ToastErrorNonText] is [toast.error] handed something that is not a
    text. *)
Inductive Notice :=
| ToastSuccess (msg : string)
| ToastError (msg : string)
| ToastErrorNonText (what : string)
| ConsoleError (msg : string).

(** The values a property read on an object literal of texts can give:
    nothing, one of its texts, or a member inherited from
    [Object.prototype]. *)
Inductive JsValue :=
| JsUndefined
| JsString (s : string)
| JsBuiltin (name : string).

Definition js_truthy (v : JsValue) : bool :=
  match v with
  | JsUndefined => false
  | JsString s => truthy s
  | JsBuiltin _ => true
  end.

(** [a || b]. *)
Definition js_or (a b : JsValue) : JsValue :=
  if js_truthy a then a else b.

(** ** Asynchronous bodies

    An [async] body over a world [W]: it changes the world and either
    returns or throws. *)
Definition Async (W A : Type) : Type := W → (JsError + A) * W.

#[global] Instance Async_ret {W} : MRet (Async W) := λ A x w, (inr x, w).
#[global] Instance Async_bind {W} : MBind (Async W) := λ A B f m w,
  match m w with
  | (inr x, w') => f x w'
  | (inl e, w') => (inl e, w')
  end.

Definition throw {W A} (e : JsError) : Async W A := λ w, (inl e, w).

Definition try_catch {W A} (body : Async W A) (handler : JsError → Async W A)
  : Async W A :=
  λ w, match body w with
       | (inr x, w') => (inr x, w')
       | (inl e, w') => handler e w'
       end.

Definition finally {W A} (body : Async W A) (cleanup : Async W unit)
  : Async W A :=
  λ w, match body w with
       | (r, w') =>
           match cleanup w' with
           | (inr _, w'') => (r, w'')
           | (inl e, w'') => (inl e, w'')
           end
       end.

(** The world a body leaves behind. *)
Definition run {W A} (m : Async W A) (w : W) : W := (m w).2.

(** * Call history browser (components/CallHistory) *)
Module CallHistory.

Record Turn := { content : string; role : string }.

Record CallEntry := {
  id : string;
  callId : string;
  category : string;
  creationTime : Z;
  initialQuestion : string;
  lastUpdated : Z;
  recording_url : string;
  sessionId : string;
  storyId : string;
  transcript : string;
  transcript_object : list Turn;
  updated : bool;
  videoComplete : bool;
  videoUrl : string;
  userEmail : string
}.

(** A document of the [call_history] collection group: its id, the id of
    the user document it sits under ([docSnap.ref.parent.parent?.id]) and
    its fields.  A timestamp field can be missing, in which case
    [.toDate()] throws. *)
Record CallDoc := {
  doc_id : string;
  doc_owner : option string;
  d_callId : option string;
  d_category : string;
  d_creationTime : option Z;
  d_initialQuestion : string;
  d_lastUpdated : option Z;
  d_recording_url : string;
  d_sessionId : string;
  d_storyId : string;
  d_transcript : string;
  d_transcript_object : option (list Turn);
  d_updated : bool;
  d_videoComplete : bool;
  d_videoUrl : string
}.

(** The remote store as this view reads it.  [user_emails] maps a user id
    to the [email] field of its document (absent key: no such document,
    [None]: document without email).  [settled_early] is latency: how many
    of the rejected owner lookups have settled by the time the first
    callback of a load throws. *)
Record Db := {
  call_history : list CallDoc;
  getDocs_ok : bool;
  user_emails : gmap string (option string);
  getDoc_ok : string → bool;
  settled_early : nat
}.

(** Reads sent to the store. *)
Inductive Fetch :=
| GetDocsCallHistory
| GetDocUser (uid : string).

Definition CALLS_PER_PAGE : nat := 20.

(** The cells of the view the loads write; [lastVisible] holds the id of
    the last fetched document. *)
Record State := {
  calls : list CallEntry;
  isLoading : bool;
  lastVisible : option string;
  hasMore : bool;
  isLoadingMore : bool
}.

(** [useState] initial values. *)
Definition initial : State :=
  {| calls := []; isLoading := true; lastVisible := None; hasMore := true;
     isLoadingMore := false |}.

Definition setIsLoading (b : bool) (st : State) : State :=
  {| calls := calls st; isLoading := b; lastVisible := lastVisible st;
     hasMore := hasMore st; isLoadingMore := isLoadingMore st |}.

Definition setIsLoadingMore (b : bool) (st : State) : State :=
  {| calls := calls st; isLoading := isLoading st;
     lastVisible := lastVisible st; hasMore := hasMore st;
     isLoadingMore := b |}.

(** [if (userId)]: a missing or empty owner id is skipped. *)
Definition ownerId (d : CallDoc) : option string :=
  uid ← doc_owner d; if truthy uid then Some uid else None.

(** The owner lookup of one record, with its inner [try]/[catch]. *)
Definition lookupEmail (db : Db) (d : CallDoc) : string :=
  match ownerId d with
  | None => "Unknown"
  | Some uid =>
      if getDoc_ok db uid then
        match user_emails db !! uid with
        | Some email => or_else email "Unknown"
        | None => "Unknown"
        end
      else "Unknown"
  end.

(** The body of the [snapshot.docs.map] callback; [None] when a
    [.toDate()] call throws. *)
Definition toEntry (db : Db) (d : CallDoc) : option CallEntry :=
  created ← d_creationTime d;
  last ← d_lastUpdated d;
  Some {| id := doc_id d;
          callId := or_else (d_callId d) (doc_id d);
          category := d_category d;
          creationTime := created;
          initialQuestion := d_initialQuestion d;
          lastUpdated := last;
          recording_url := d_recording_url d;
          sessionId := d_sessionId d;
          storyId := d_storyId d;
          transcript := d_transcript d;
          transcript_object := default [] (d_transcript_object d);
          updated := d_updated d;
          videoComplete := d_videoComplete d;
          videoUrl := d_videoUrl d;
          userEmail := lookupEmail db d |}.

(** The reads one run of the callback over all documents sends: every
    callback reaches its [getDoc] before any of them can fail. *)
Definition ownerLookups (docs : list CallDoc) : list Fetch :=
  omap (λ d, GetDocUser <$> ownerId d) docs.

(** The console lines of the lookups that were rejected. *)
Definition lookupErrors (db : Db) (docs : list CallDoc) : list Notice :=
  omap (λ d, uid ← ownerId d;
             if getDoc_ok db uid then None
             else Some (ConsoleError "Error fetching user email:")) docs.

(** [callsData.sort((a, b) => b.lastUpdated - a.lastUpdated)]: the sort is
    stable, so the result is the one insertion from the right builds. *)
Fixpoint insertCall (x : CallEntry) (l : list CallEntry) : list CallEntry :=
  match l with
  | [] => [x]
  | y :: l' =>
      if (lastUpdated y - lastUpdated x <=? 0)%Z then x :: y :: l'
      else y :: insertCall x l'
  end.

Definition sortCalls (l : list CallEntry) : list CallEntry :=
  foldr insertCall [] l.

(** Steps 1 and 2 of [fetchCalls]: the array handed to the sort, [None]
    when the [try] block throws before reaching it. *)
Definition callsData (db : Db) : option (list CallEntry) :=
  if getDocs_ok db then mapM (toEntry db) (call_history db) else None.

(** The reads [fetchCalls] sends, and the console lines of its lookups. *)
Definition fetches (db : Db) : list Fetch :=
  GetDocsCallHistory ::
  (if getDocs_ok db then ownerLookups (call_history db) else []).

Definition lookupNotices (db : Db) : list Notice :=
  if getDocs_ok db then lookupErrors db (call_history db) else [].

(** The outer [catch] clause. *)
Definition loadFailed : list Notice :=
  [ConsoleError "Error fetching calls:";
   ToastError "Failed to load call history"].

(** The callback of [d] throws only after its own lookup has settled: a
    record that fails the load and whose lookup is rejected has logged its
    console line before it throws. *)
Definition loggedBeforeThrowing (db : Db) (d : CallDoc) : bool :=
  match toEntry db d, ownerId d with
  | None, Some uid => negb (getDoc_ok db uid)
  | None, None => false
  | Some _, _ => true
  end.

(** How many lookup console lines are out when the outer [catch] runs:
    [Promise.all] rejects at the first callback that throws, whatever the
    other lookups are doing, so the number is up to latency, but it is at
    least one when every record that fails the load has a rejected
    lookup. *)
Definition linesBeforeCatch (db : Db) : nat :=
  settled_early db `max`
  (if forallb (loggedBeforeThrowing db) (call_history db) then 1 else 0).

(** The notices of a load that fails, in the order they appear: the
    lookups still pending when the [catch] clause runs log their lines
    after it, and after the [finally] clause. *)
Definition failedNotices (db : Db) : list Notice :=
  take (linesBeforeCatch db) (lookupNotices db) ++ loadFailed ++
  drop (linesBeforeCatch db) (lookupNotices db).

Definition fetchCalls (db : Db) (isInitial : bool) (st : State)
  : State * list Fetch * list Notice :=
  let st1 :=
    if isInitial then setIsLoading true st else setIsLoadingMore true st in
  let '(st2, notices) :=
    match callsData db with
    | Some data =>
        let sortedCallsData := sortCalls data in
        let total := length sortedCallsData in
        let count :=
          if isInitial then CALLS_PER_PAGE
          else length (calls st) + CALLS_PER_PAGE in
        let paginated := take count sortedCallsData in
        ({| calls := paginated; isLoading := isLoading st1;
            lastVisible := list.last (doc_id <$> call_history db);
            hasMore := bool_decide (count < total);
            isLoadingMore := isLoadingMore st1 |}, lookupNotices db)
    | None => (st1, failedNotices db)
    end in
  let st3 :=
    if isInitial then setIsLoading false st2 else setIsLoadingMore false st2 in
  (st3, fetches db, notices).

Definition handleLoadMore (db : Db) (st : State)
  : State * list Fetch * list Notice :=
  if negb (isLoadingMore st) && hasMore st
  then fetchCalls db false st
  else (st, [], []).

(** The view after the mount effect and [n] activations of "load more". *)
Fixpoint afterLoads (db : Db) (n : nat) : State :=
  match n with
  | 0 => (fetchCalls db true initial).1.1
  | S n' => (handleLoadMore db (afterLoads db n')).1.1
  end.

(** Newest first. *)
Definition newerEq (a b : CallEntry) : Prop :=
  (lastUpdated b <= lastUpdated a)%Z.

End CallHistory.

(** * The document store and the agent provider, as the save flows use them *)
Module Firestore.

Record Voice := {
  voice_id : string;
  voice_name : string;
  provider : string;
  accent : string;
  gender : string;
  age : string;
  preview_audio_url : string
}.

(** ['fewer' | 'balanced' | 'more'], used for follow-up intensity and for
    detail richness. *)
Inductive Level := Fewer | Balanced | More.
Inductive ConversationStyle := Casual | BalancedStyle | Reflective.
Inductive NarrativeStyle := FirstPerson | ThirdPerson.
Inductive LengthPreference := Shorter | BalancedLength | Longer.

Record AiPreferences := {
  voice : Voice;
  followUpIntensity : Level;
  conversationStyle : ConversationStyle
}.

Record StoryPreferences := {
  narrativeStyle : NarrativeStyle;
  lengthPreference : LengthPreference;
  detailRichness : Level
}.

(** A document of [admins]. *)
Record AdminDoc := {
  name : string;
  email : string;
  createdAt : nat;
  updatedAt : nat;
  aiPreferences : option AiPreferences;
  storyPreferences : option StoryPreferences
}.

(** The [agentIds] field of a user document. *)
Inductive AgentIds :=
| Absent
| NotAnArray
| IdArray (ids : list string).

(** A document of [users]: the mirrored preference fields are written one
    by one through dotted paths, so each can be missing on its own. *)
Record UserDoc := {
  agentIds : AgentIds;
  u_voice : option Voice;
  u_followUpIntensity : option Level;
  u_conversationStyle : option ConversationStyle;
  u_narrativeStyle : option NarrativeStyle;
  u_lengthPreference : option LengthPreference;
  u_detailRichness : option Level;
  u_updatedAt : nat
}.

Record Store := {
  admins : gmap string AdminDoc;
  users : list (string * UserDoc)
}.

(** How the outside world answers during one run of a handler: [Some e]
    makes the call reject with [e].  Agent updates are answered per call
    (numbered in the order they are issued), and [completion] is the order
    in which the calls of one group settle. *)
Record Env := {
  updateDoc_error : option JsError;
  getDocs_error : option JsError;
  retell_error : option JsError;
  agent_update_ok : nat → string → bool;
  completion : list (string * bool) → list (string * bool);
  commit_error : option JsError
}.

Inductive Event :=
| UpdateDoc (uid : string) (ok : bool)
| GetDocsUsers (ok : bool)
| AgentUpdate (agentId : string) (voiceId : string) (ok : bool)
| BatchCommit (targets : list string) (ok : bool)
| Notify (n : Notice).

(** Everything a handler can change: the store (with every state a write
    left it in, oldest first), the server clock behind
    [serverTimestamp()], the event log and the view's [isSaving] flag. *)
Record World := {
  store : Store;
  history : list Store;
  clock : nat;
  events : list Event;
  isSaving : bool
}.

Abbreviation M := (Async World).

Definition logged (es : list Event) (w : World) : World :=
  {| store := store w; history := history w; clock := clock w;
     events := events w ++ es; isSaving := isSaving w |}.

Definition emit (es : list Event) : M unit := λ w, (inr (), logged es w).

Definition console_error (msg : string) : M unit :=
  emit [Notify (ConsoleError msg)].
Definition toast_error (msg : string) : M unit :=
  emit [Notify (ToastError msg)].
Definition toast_success (msg : string) : M unit :=
  emit [Notify (ToastSuccess msg)].

Definition setIsSaving (b : bool) : M unit := λ w,
  (inr (), {| store := store w; history := history w; clock := clock w;
              events := events w; isSaving := b |}).

(** A committed write: the store moves, the new state joins the history and
    the server clock ticks. *)
Definition written (s : Store) (e : Event) (w : World) : World :=
  {| store := s; history := history w ++ [s]; clock := S (clock w);
     events := events w ++ [e]; isSaving := isSaving w |}.

Definition not_found : JsError :=
  mkError (Some "not-found") "No document to update".

(** [updateDoc(doc(db, 'admins', uid), ...)]: [change] gets the server time
    and the current document.  Updating a missing document rejects. *)
Definition updateDoc (env : Env) (uid : string)
    (change : nat → AdminDoc → AdminDoc) : M unit := λ w,
  match updateDoc_error env with
  | Some e => (inl e, logged [UpdateDoc uid false] w)
  | None =>
      match admins (store w) !! uid with
      | Some d =>
          (inr (),
           written {| admins := <[uid := change (clock w) d]> (admins (store w));
                      users := users (store w) |}
                   (UpdateDoc uid true) w)
      | None => (inl not_found, logged [UpdateDoc uid false] w)
      end
  end.

(** [getDocs(collection(db, 'users'))]. *)
Definition getDocs (env : Env) : M (list (string * UserDoc)) := λ w,
  match getDocs_error env with
  | Some e => (inl e, logged [GetDocsUsers false] w)
  | None => (inr (users (store w)), logged [GetDocsUsers true] w)
  end.

(** [writeBatch] with one [batch.update] per target, then [batch.commit()]:
    all targets change or none does. *)
Definition commit (env : Env) (targets : list string)
    (change : nat → UserDoc → UserDoc) : M unit := λ w,
  match commit_error env with
  | Some e => (inl e, logged [BatchCommit targets false] w)
  | None =>
      if forallb (λ t, bool_decide (t ∈ (users (store w)).*1)) targets then
        (inr (),
         written {| admins := admins (store w);
                    users := (λ '(i, d),
                                if bool_decide (i ∈ targets)
                                then (i, change (clock w) d) else (i, d))
                             <$> users (store w) |}
                 (BatchCommit targets true) w)
      else (inl not_found, logged [BatchCommit targets false] w)
  end.

Definition fresh (s : Store) : World :=
  {| store := s; history := []; clock := 0; events := []; isSaving := false |}.

End Firestore.

(** * AI preferences screen (components/AIPreferences) *)
Module AIPreferences.
Import Firestore.

Definition DEFAULT_VOICE : Voice := {|
  voice_id := "play-Cimo";
  voice_name := "Cimo";
  provider := "play";
  accent := "American";
  gender := "female";
  age := "Middle Aged";
  preview_audio_url :=
    "https://retell-utils-public.s3.us-west-2.amazonaws.com/play-Cimo.mp3"
|}.

(** The component's [useState] cells that the handlers read or write
    ([isSaving] lives in the world). *)
Record View := {
  voices : list Voice;
  selectedVoice : option Voice;
  conversationStyle : option ConversationStyle;
  followUpIntensity : option Level;
  isLoading : bool
}.

Definition initial : View :=
  {| voices := []; selectedVoice := None; conversationStyle := None;
     followUpIntensity := None; isLoading := true |}.

(** How the reads of [fetchData] are answered. *)
Record FetchEnv := {
  client_error : option JsError;
  getDoc_error : option JsError;
  voice_list : JsError + list Voice
}.

Definition setPreferences (v : View) (sv : Voice) (cs : ConversationStyle)
    (fi : Level) : View :=
  {| voices := voices v; selectedVoice := Some sv;
     conversationStyle := Some cs; followUpIntensity := Some fi;
     isLoading := isLoading v |}.

Definition setVoices (v : View) (vs : list Voice) : View :=
  {| voices := vs; selectedVoice := selectedVoice v;
     conversationStyle := conversationStyle v;
     followUpIntensity := followUpIntensity v; isLoading := isLoading v |}.

Definition setIsLoading (v : View) (b : bool) : View :=
  {| voices := voices v; selectedVoice := selectedVoice v;
     conversationStyle := conversationStyle v;
     followUpIntensity := followUpIntensity v; isLoading := b |}.

(** The [catch] and [finally] clauses of [fetchData]. *)
Definition fetchFailed (v : View) : View * list Notice :=
  (setIsLoading (setPreferences v DEFAULT_VOICE BalancedStyle Balanced) false,
   [ConsoleError "Error fetching data:";
    ToastError "Failed to load preferences"]).

Definition fetchData (fe : FetchEnv) (s : Store) (currentUser : option string)
    (v : View) : View * list Notice :=
  match currentUser with
  | None => (v, [])
  | Some uid =>
      match client_error fe, getDoc_error fe with
      | None, None =>
          let v1 :=
            match admins s !! uid with
            | Some adminData =>
                match aiPreferences adminData with
                | Some p =>
                    setPreferences v (Firestore.voice p)
                      (Firestore.conversationStyle p)
                      (Firestore.followUpIntensity p)
                | None => setPreferences v DEFAULT_VOICE BalancedStyle Balanced
                end
            | None => v
            end in
          match voice_list fe with
          | inr voiceResponses =>
              (setIsLoading (setVoices v1 voiceResponses) false, [])
          | inl _ => fetchFailed v1
          end
      | _, _ => fetchFailed v
      end
  end.

(** The calls of one user's [agentIds.map(...)], in the order they are
    issued, each with its outcome; [k] calls were issued before. *)
Definition groupResults (env : Env) (k : nat) (ids : list string)
  : list (string * bool) :=
  imap (λ i agentId, (agentId, agent_update_ok env (k + i) agentId)) ids.

(** The ids whose call rejected. *)
Definition failedOf (results : list (string * bool)) : list string :=
  (filter (λ r, r.2 = false) results).*1.

(** The [for] loop of [updateRetellAgents]: [failedUpdates] is threaded
    through, and grows in the order the failing calls of a group settle. *)
Fixpoint fanOut (env : Env) (voiceId : string)
    (docs : list (string * UserDoc)) (k : nat) (failedUpdates : list string)
  : M (list string) :=
  match docs with
  | [] => mret failedUpdates
  | (_, userData) :: rest =>
      match agentIds userData with
      | IdArray ids =>
          let results := groupResults env k ids in
          let failed := failedOf (completion env results) in
          emit ((λ r, AgentUpdate r.1 voiceId r.2) <$> results);;
          emit ((λ agentId,
                   Notify (ConsoleError ("Error updating agent " ++ agentId ++ ":")))
                <$> failed);;
          fanOut env voiceId rest (k + length ids) (failedUpdates ++ failed)
      | _ => fanOut env voiceId rest k failedUpdates
      end
  end.

(** Returns its local [failedUpdates], which the caller drops. *)
Definition updateRetellAgents (env : Env) (selectedVoice : Voice)
    (usersSnapshot : list (string * UserDoc)) : M (list string) :=
  match retell_error env with
  | Some e => throw e
  | None =>
      failedUpdates ← fanOut env (voice_id selectedVoice) usersSnapshot 0 [];
      (if bool_decide (0 < length failedUpdates)
       then console_error ("Failed to update some agents: "
                           ++ String.concat ", " failedUpdates)
       else mret ());;
      mret failedUpdates
  end.

(** The fields the own-record write sets. *)
Definition adminUpdate (p : AiPreferences) (now : nat) (d : AdminDoc)
  : AdminDoc :=
  {| name := name d; email := email d; createdAt := createdAt d;
     updatedAt := now; aiPreferences := Some p;
     storyPreferences := storyPreferences d |}.

(** The fields each [batch.update] sets. *)
Definition userUpdate (p : AiPreferences) (now : nat) (d : UserDoc)
  : UserDoc :=
  {| agentIds := agentIds d;
     u_voice := Some (Firestore.voice p);
     u_followUpIntensity := Some (Firestore.followUpIntensity p);
     u_conversationStyle := Some (Firestore.conversationStyle p);
     u_narrativeStyle := u_narrativeStyle d;
     u_lengthPreference := u_lengthPreference d;
     u_detailRichness := u_detailRichness d;
     u_updatedAt := now |}.

(** What the view submits, once every cell is set. *)
Definition submitted (v : View) : option AiPreferences :=
  sv ← selectedVoice v;
  cs ← conversationStyle v;
  fi ← followUpIntensity v;
  Some {| Firestore.voice := sv; Firestore.followUpIntensity := fi;
          Firestore.conversationStyle := cs |}.

Definition handleSaveChanges (env : Env) (currentUser : option string)
    (v : View) : M unit :=
  match currentUser, submitted v with
  | Some uid, Some p =>
      setIsSaving true;;
      finally
        (try_catch
           (updateDoc env uid (adminUpdate p);;
            usersSnapshot ← getDocs env;
            try_catch
              (updateRetellAgents env (Firestore.voice p) usersSnapshot;;
               mret ())
              (λ error,
                 console_error "Error updating Retell agents:";;
                 toast_error (message error));;
            commit env usersSnapshot.*1 (userUpdate p);;
            toast_success "Updated AI preferences successfully")
           (λ _,
              console_error "Error updating AI preferences:";;
              toast_error "Failed to update some preferences. Please try again."))
        (setIsSaving false)
  | _, _ => mret ()
  end.

End AIPreferences.

(** * Story preferences screen (components/StoryPreferences) *)
Module StoryPreferences.
Import Firestore.

Record View := {
  narrativeStyle : NarrativeStyle;
  lengthPreference : LengthPreference;
  detailRichness : Level;
  isLoading : bool
}.

Definition initial : View :=
  {| narrativeStyle := FirstPerson; lengthPreference := BalancedLength;
     detailRichness := Balanced; isLoading := true |}.

Definition fetchPreferences (getDoc_error : option JsError) (s : Store)
    (currentUser : option string) (v : View) : View * list Notice :=
  match currentUser with
  | None => (v, [])
  | Some uid =>
      match getDoc_error with
      | None =>
          let v1 :=
            match admins s !! uid with
            | Some adminData =>
                match storyPreferences adminData with
                | Some p =>
                    {| narrativeStyle := Firestore.narrativeStyle p;
                       lengthPreference := Firestore.lengthPreference p;
                       detailRichness := Firestore.detailRichness p;
                       isLoading := isLoading v |}
                | None => v
                end
            | None => v
            end in
          ({| narrativeStyle := narrativeStyle v1;
              lengthPreference := lengthPreference v1;
              detailRichness := detailRichness v1; isLoading := false |}, [])
      | Some _ =>
          ({| narrativeStyle := narrativeStyle v;
              lengthPreference := lengthPreference v;
              detailRichness := detailRichness v; isLoading := false |},
           [ConsoleError "Error fetching preferences:";
            ToastError "Failed to load preferences"])
      end
  end.

Definition submitted (v : View) : StoryPreferences :=
  {| Firestore.narrativeStyle := narrativeStyle v;
     Firestore.lengthPreference := lengthPreference v;
     Firestore.detailRichness := detailRichness v |}.

Definition adminUpdate (p : StoryPreferences) (now : nat) (d : AdminDoc)
  : AdminDoc :=
  {| name := name d; email := email d; createdAt := createdAt d;
     updatedAt := now; aiPreferences := aiPreferences d;
     storyPreferences := Some p |}.

Definition userUpdate (p : StoryPreferences) (now : nat) (d : UserDoc)
  : UserDoc :=
  {| agentIds := agentIds d;
     u_voice := u_voice d;
     u_followUpIntensity := u_followUpIntensity d;
     u_conversationStyle := u_conversationStyle d;
     u_narrativeStyle := Some (Firestore.narrativeStyle p);
     u_lengthPreference := Some (Firestore.lengthPreference p);
     u_detailRichness := Some (Firestore.detailRichness p);
     u_updatedAt := now |}.

Definition handleSaveChanges (env : Env) (currentUser : option string)
    (v : View) : M unit :=
  match currentUser with
  | Some uid =>
      setIsSaving true;;
      finally
        (try_catch
           (updateDoc env uid (adminUpdate (submitted v));;
            usersSnapshot ← getDocs env;
            commit env usersSnapshot.*1 (userUpdate (submitted v));;
            toast_success "Updated story preferences for all users successfully")
           (λ _,
              console_error "Error updating story preferences:";;
              toast_error "Failed to update story preferences"))
        (setIsSaving false)
  | None => mret ()
  end.

End StoryPreferences.

(** * Sign-in and sign-up form (components/AuthForm) *)
Module AuthForm.
Import Firestore.

(** The object literal of [handleAuthError]. *)
Definition errorMessages : list (string * string) := [
  ("auth/invalid-credential",
   "Invalid email or password. Please check your credentials and try again.");
  ("auth/wrong-password",
   "Invalid email or password. Please check your credentials and try again.");
  ("auth/user-not-found", "No admin account found with this email.");
  ("auth/invalid-email", "Please enter a valid email address.");
  ("auth/network-request-failed",
   "Network error. Please check your connection.");
  ("auth/too-many-requests", "Too many attempts. Please try again later.");
  ("auth/operation-not-allowed", "This sign-in method is not enabled.");
  ("auth/email-already-in-use",
   "An admin account with this email already exists.");
  ("auth/weak-password", "Password should be at least 6 characters long.")
].

(** The table's text for a code, if the code is one of its keys. *)
Fixpoint tableText (table : list (string * string)) (key : string)
  : option string :=
  match table with
  | [] => None
  | (k, text) :: rest =>
      if bool_decide (k = key) then Some text else tableText rest key
  end.

(** Members every object literal inherits. *)
Definition Object_prototype : list string := [
  "constructor"; "__defineGetter__"; "__defineSetter__"; "hasOwnProperty";
  "__lookupGetter__"; "__lookupSetter__"; "isPrototypeOf";
  "propertyIsEnumerable"; "toString"; "valueOf"; "__proto__";
  "toLocaleString"
].

(** [errorMessages[code]]: the key of a missing [code] is the text
    [undefined]; own entries come first, then the inherited members. *)
Definition errorMessages_get (code : option string) : JsValue :=
  let key := default "undefined" code in
  match tableText errorMessages key with
  | Some text => JsString text
  | None =>
      if bool_decide (key ∈ Object_prototype) then JsBuiltin key
      else JsUndefined
  end.

Definition fallbackMessage : string :=
  "An error occurred during sign in. Please try again.".

(** The argument [handleAuthError] hands to [toast.error]. *)
Definition surfaced (error : JsError) : JsValue :=
  let message := js_or (errorMessages_get (code error))
                       (JsString (message error)) in
  js_or message (JsString fallbackMessage).

Definition toast_error_value (v : JsValue) : Notice :=
  match v with
  | JsString s => ToastError s
  | JsBuiltin what => ToastErrorNonText what
  | JsUndefined => ToastErrorNonText "undefined"
  end.

Definition handleAuthError (error : JsError) : list Notice :=
  [ConsoleError "Authentication error:"; toast_error_value (surfaced error)].

(** What the form can change: the signed-in user of the auth provider, the
    [admins] collection, the route and the notices; [loading] is the form's
    own flag. *)
Record World := {
  currentUser : option string;
  admins : gmap string AdminDoc;
  clock : nat;
  location : string;
  notices : list Notice;
  loading : bool
}.

(** How the auth provider and the store answer one submission: the
    provider maps credentials to a user id or an error. *)
Record Env := {
  signIn : string → string → JsError + string;
  createUser : string → string → JsError + string;
  setDoc_error : option JsError;
  getDoc_error : option JsError
}.

Definition setLoading (b : bool) : Async World unit := λ w,
  (inr (), {| currentUser := currentUser w; admins := admins w;
              clock := clock w; location := location w;
              notices := notices w; loading := b |}).

Definition setCurrentUser (u : option string) : Async World unit := λ w,
  (inr (), {| currentUser := u; admins := admins w; clock := clock w;
              location := location w; notices := notices w;
              loading := loading w |}).

Definition navigate (to : string) : Async World unit := λ w,
  (inr (), {| currentUser := currentUser w; admins := admins w;
              clock := clock w; location := to; notices := notices w;
              loading := loading w |}).

Definition notify (ns : list Notice) : Async World unit := λ w,
  (inr (), {| currentUser := currentUser w; admins := admins w;
              clock := clock w; location := location w;
              notices := notices w ++ ns; loading := loading w |}).

(** A successful sign-in or account creation makes its user current. *)
Definition authenticate (answer : JsError + string) : Async World string :=
  match answer with
  | inl e => throw e
  | inr uid => setCurrentUser (Some uid);; mret uid
  end.

Definition setDoc (env : Env) (uid : string) (d : nat → AdminDoc)
  : Async World unit := λ w,
  match setDoc_error env with
  | Some e => (inl e, w)
  | None =>
      (inr (), {| currentUser := currentUser w;
                  admins := <[uid := d (clock w)]> (admins w);
                  clock := S (clock w); location := location w;
                  notices := notices w; loading := loading w |})
  end.

(** [getDoc(doc(db, 'admins', uid))]: the snapshot's data, [None] when the
    document does not exist. *)
Definition getDoc (env : Env) (uid : string)
  : Async World (option AdminDoc) := λ w,
  match getDoc_error env with
  | Some e => (inl e, w)
  | None => (inr (admins w !! uid), w)
  end.

(** The body of the [try] block; [inr false] is the early [return] of the
    denied sign-in. *)
Definition handleSubmit_try (env : Env) (isSignUp : bool)
    (name email password : string) : Async World bool :=
  if isSignUp then
    uid ← authenticate (createUser env email password);
    setDoc env uid (λ now,
      {| Firestore.name := name; Firestore.email := email;
         createdAt := now; updatedAt := now;
         aiPreferences := None; storyPreferences := None |});;
    navigate "/ai-preferences";;
    notify [ToastSuccess "Admin account created successfully!"];;
    mret true
  else
    uid ← authenticate (signIn env email password);
    adminDoc ← getDoc env uid;
    match adminDoc with
    | None =>
        setCurrentUser None;;
        notify [ToastError "Access denied. Admin privileges required."];;
        setLoading false;;
        mret false
    | Some _ =>
        navigate "/ai-preferences";;
        notify [ToastSuccess "Signed in successfully!"];;
        mret true
    end.

Definition handleSubmit (env : Env) (isSignUp : bool)
    (name email password : string) : Async World unit :=
  setLoading true;;
  finally
    (try_catch
       (handleSubmit_try env isSignUp name email password;; mret ())
       (λ error, notify (handleAuthError error)))
    (setLoading false).

End AuthForm.

(** * Application shell (App) *)
Module App.
Import Firestore.

(** [user] and [loading] come from [useAuthState(auth)], the other two are
    the shell's own cells. *)
Record State := {
  user : option string;
  loading : bool;
  adminData : option AdminDoc;
  isCheckingAdmin : bool
}.

Definition initial : State :=
  {| user := None; loading := true; adminData := None;
     isCheckingAdmin := false |}.

(** The three trees the component returns. *)
Inductive Screen := Spinner | AuthRoutes | ProtectedRoutes.

Definition render (st : State) : Screen :=
  if loading st || isCheckingAdmin st then Spinner
  else
    match user st, adminData st with
    | Some _, Some _ => ProtectedRoutes
    | _, _ => AuthRoutes
    end.

(** The auth hook delivers the provider's current user. *)
Definition onAuthStateChanged (u : option string) (st : State) : State :=
  {| user := u; loading := false; adminData := adminData st;
     isCheckingAdmin := isCheckingAdmin st |}.

Definition setIsCheckingAdmin (b : bool) (st : State) : State :=
  {| user := user st; loading := loading st; adminData := adminData st;
     isCheckingAdmin := b |}.

Definition setAdminData (d : AdminDoc) (st : State) : State :=
  {| user := user st; loading := loading st; adminData := Some d;
     isCheckingAdmin := isCheckingAdmin st |}.

(** The effect on [user], as the states the shell goes through while it
    runs: one at its [await getDoc], and one at its end.  When the record
    is missing the effect awaits [auth.signOut()], so the hook has cleared
    [user] before the [finally] clause runs. *)
Definition checkAdminStatus (getDoc_error : option JsError)
    (admins : gmap string AdminDoc) (st : State) : list State :=
  match user st with
  | None => [setIsCheckingAdmin false st]
  | Some uid =>
      let st1 := setIsCheckingAdmin true st in
      match getDoc_error with
      | Some _ => [st1; setIsCheckingAdmin false st1]
      | None =>
          match admins !! uid with
          | Some data =>
              [st1; setIsCheckingAdmin false (setAdminData data st1)]
          | None =>
              let st2 := onAuthStateChanged None st1 in
              [st1; st2; setIsCheckingAdmin false st2]
          end
      end
  end.

(** One change of the provider's user as the shell lives through it: the
    render with the new [user], then the effect that render schedules.
    Every state listed is one the component rendered. *)
Definition authChange (getDoc_error : option JsError)
    (admins : gmap string AdminDoc) (u : option string) (st : State)
  : list State :=
  let st1 := onAuthStateChanged u st in
  st1 :: checkAdminStatus getDoc_error admins st1.

(** A page's life: one auth change after another, each with the answer the
    store gives to the admin lookup it triggers, and each check over
    before [user] changes again. *)
Fixpoint session (admins : gmap string AdminDoc)
    (changes : list (option string * option JsError)) (st : State)
  : list State :=
  match changes with
  | [] => []
  | (u, getDoc_error) :: rest =>
      let frames := authChange getDoc_error admins u st in
      frames ++ session admins rest (List.last frames st)
  end.

(** ** Checks that overlap

    [session] lets every check end before [user] changes again.  The
    effect has no cleanup, though: a check that still waits when [user]
    changes goes on, and writes the shell's cells when its answer arrives.
    The shell is therefore also given with its checks in flight, and run
    tick by tick. *)

(** What a running [checkAdminStatus] waits for: the answer to its
    [getDoc] for the user it was started for, or the end of the
    [auth.signOut()] it called. *)
Inductive Pending :=
| AwaitGetDoc (uid : string)
| AwaitSignOut.

(** The shell's cells and its checks in flight, oldest first. *)
Record Shell := {
  view : State;
  pending : list Pending
}.

(** What happens next: the provider's user changes, or the [k]-th check in
    flight gets what it waits for ([Some e]: a rejection). *)
Inductive Tick :=
| UserChanged (u : option string)
| Settled (k : nat) (error : option JsError).

(** One tick: the states the shell renders during it, and the shell after
    it.  A user change renders with the new [user] and runs the effect up
    to its [await]; a settled [getDoc] runs the check up to its end, or up
    to [await auth.signOut()], which signs out whoever is signed in by
    then. *)
Definition step (admins : gmap string AdminDoc) (t : Tick) (sh : Shell)
  : list State * Shell :=
  match t with
  | UserChanged u =>
      let st1 := onAuthStateChanged u (view sh) in
      match u with
      | None =>
          let st2 := setIsCheckingAdmin false st1 in
          ([st1; st2], {| view := st2; pending := pending sh |})
      | Some uid =>
          let st2 := setIsCheckingAdmin true st1 in
          ([st1; st2],
           {| view := st2; pending := pending sh ++ [AwaitGetDoc uid] |})
      end
  | Settled k error =>
      match pending sh !! k with
      | None => ([], sh)
      | Some (AwaitGetDoc uid) =>
          match error with
          | Some _ =>
              let st := setIsCheckingAdmin false (view sh) in
              ([st], {| view := st; pending := delete k (pending sh) |})
          | None =>
              match admins !! uid with
              | Some data =>
                  let st :=
                    setIsCheckingAdmin false (setAdminData data (view sh)) in
                  ([st], {| view := st; pending := delete k (pending sh) |})
              | None =>
                  ([], {| view := view sh;
                          pending := <[k := AwaitSignOut]> (pending sh) |})
              end
          end
      | Some AwaitSignOut =>
          match error with
          | Some _ =>
              let st := setIsCheckingAdmin false (view sh) in
              ([st], {| view := st; pending := delete k (pending sh) |})
          | None =>
              let st1 := onAuthStateChanged None (view sh) in
              let st2 := setIsCheckingAdmin false st1 in
              ([st1; st2], {| view := st2; pending := delete k (pending sh) |})
          end
      end
  end.

Fixpoint runTicks (admins : gmap string AdminDoc) (ticks : list Tick)
    (sh : Shell) : list State * Shell :=
  match ticks with
  | [] => ([], sh)
  | t :: rest =>
      let r1 := step admins t sh in
      let r2 := runTicks admins rest r1.2 in
      (r1.1 ++ r2.1, r2.2)
  end.

(** The ticks of a session whose checks do not overlap: each user change
    is followed by the answer to its lookup and by the end of the sign-out
    the check may have called. *)
Definition inTurn (changes : list (option string * option JsError))
  : list Tick :=
  changes ≫= λ c, [UserChanged c.1; Settled 0 c.2; Settled 0 None].




End App.

(** * Reading the event log of a save *)
Module Trace.
Import Firestore.

(** The remote-provider calls in a log, each with its outcome. *)
Definition agentCall (e : Event) : option (string * bool) :=
  match e with
  | AgentUpdate agentId _ ok => Some (agentId, ok)
  | _ => None
  end.

Definition agentCalls (es : list Event) : list (string * bool) :=
  omap agentCall es.

(** The voice ids the calls in a log carry. *)
Definition agentVoices (es : list Event) : list string :=
  omap (λ e, match e with AgentUpdate _ v _ => Some v | _ => None end) es.

(** The resource ids a record owns, as the fan-out reads them. *)
Definition ownedIds (d : UserDoc) : list string :=
  match agentIds d with
  | IdArray ids => ids
  | _ => []
  end.

(** Every resource id of every enumerated record, in enumeration order. *)
Definition allAgentIds (docs : list (string * UserDoc)) : list string :=
  docs ≫= λ r, ownedIds r.2.

(** The events the loop of [updateRetellAgents] logs, and the ids it
    appends to [failedUpdates], when [k] calls were issued before. *)
Fixpoint fanOutEvents (env : Env) (voiceId : string)
    (docs : list (string * UserDoc)) (k : nat) : list Event :=
  match docs with
  | [] => []
  | r :: rest =>
      match agentIds r.2 with
      | IdArray ids =>
          let results := AIPreferences.groupResults env k ids in
          ((λ c, AgentUpdate c.1 voiceId c.2) <$> results) ++
          ((λ agentId,
              Notify (ConsoleError ("Error updating agent " ++ agentId ++ ":")))
           <$> AIPreferences.failedOf (completion env results)) ++
          fanOutEvents env voiceId rest (k + length ids)
      | _ => fanOutEvents env voiceId rest k
      end
  end.

Fixpoint fanOutFailed (env : Env) (docs : list (string * UserDoc)) (k : nat)
  : list string :=
  match docs with
  | [] => []
  | r :: rest =>
      match agentIds r.2 with
      | IdArray ids =>
          AIPreferences.failedOf
            (completion env (AIPreferences.groupResults env k ids)) ++
          fanOutFailed env rest (k + length ids)
      | _ => fanOutFailed env rest k
      end
  end.

(** The events of the inner [try]/[catch] around [updateRetellAgents]. *)
Definition retellEvents (env : Env) (selectedVoice : Voice)
    (docs : list (string * UserDoc)) : list Event :=
  match retell_error env with
  | Some e =>
      [Notify (ConsoleError "Error updating Retell agents:");
       Notify (ToastError (message e))]
  | None =>
      fanOutEvents env (voice_id selectedVoice) docs 0 ++
      (if bool_decide (0 < length (fanOutFailed env docs 0))
       then [Notify (ConsoleError
                       ("Failed to update some agents: "
                        ++ String.concat ", " (fanOutFailed env docs 0)))]
       else [])
  end.

(** The events a run appended to the log, and the store states it left. *)
Definition newEvents (w w' : World) : list Event :=
  drop (length (events w)) (events w').

Definition newStores (w w' : World) : list Store :=
  drop (length (history w)) (history w').

(** The store after the own-record write and after the batch. *)
Definition adminWritten (uid : string) (change : nat → AdminDoc → AdminDoc)
    (d : AdminDoc) (w : World) : Store :=
  {| admins := <[uid := change (clock w) d]> (admins (store w));
     users := users (store w) |}.

Definition batchWritten (change : nat → UserDoc → UserDoc) (now : nat)
    (s : Store) : Store :=
  {| admins := admins s;
     users := (λ r, (r.1, change now r.2)) <$> users s |}.

(** The world a handler leaves when it ends in store [s], having produced
    the store states [stores], taken [ticks] server timestamps and logged
    [es]; its [finally] clause has cleared [isSaving]. *)
Definition settled (s : Store) (stores : list Store) (ticks : nat)
    (es : list Event) (w : World) : World :=
  {| store := s; history := history w ++ stores; clock := ticks + clock w;
     events := events w ++ es; isSaving := false |}.

Definition saveFailed (console toast : string) : list Event :=
  [Notify (ConsoleError console); Notify (ToastError toast)].

(** The AI save flow in closed form, path by path. *)
Definition aiOutcome (env : Env) (uid : string) (p : AiPreferences)
    (w : World) : World :=
  let failed := saveFailed "Error updating AI preferences:"
                  "Failed to update some preferences. Please try again." in
  match updateDoc_error env, admins (store w) !! uid with
  | None, Some d =>
      let s1 := adminWritten uid (AIPreferences.adminUpdate p) d w in
      match getDocs_error env with
      | Some _ =>
          settled s1 [s1] 1 ([UpdateDoc uid true; GetDocsUsers false] ++ failed) w
      | None =>
          let tried :=
            ([UpdateDoc uid true; GetDocsUsers true] ++
             retellEvents env (voice p) (users (store w)))%list in
          match commit_error env with
          | Some _ =>
              settled s1 [s1] 1
                (tried ++ BatchCommit (users (store w)).*1 false :: failed) w
          | None =>
              let s2 := batchWritten (AIPreferences.userUpdate p)
                          (S (clock w)) s1 in
              settled s2 [s1; s2] 2
                (tried ++
                 [BatchCommit (users (store w)).*1 true;
                  Notify (ToastSuccess "Updated AI preferences successfully")])
                w
          end
      end
  | _, _ => settled (store w) [] 0 (UpdateDoc uid false :: failed) w
  end.

(** The story save flow in closed form. *)
Definition storyOutcome (env : Env) (uid : string) (p : StoryPreferences)
    (w : World) : World :=
  let failed := saveFailed "Error updating story preferences:"
                  "Failed to update story preferences" in
  match updateDoc_error env, admins (store w) !! uid with
  | None, Some d =>
      let s1 := adminWritten uid (StoryPreferences.adminUpdate p) d w in
      match getDocs_error env with
      | Some _ =>
          settled s1 [s1] 1 ([UpdateDoc uid true; GetDocsUsers false] ++ failed) w
      | None =>
          match commit_error env with
          | Some _ =>
              settled s1 [s1] 1
                ([UpdateDoc uid true; GetDocsUsers true;
                  BatchCommit (users (store w)).*1 false] ++ failed) w
          | None =>
              let s2 := batchWritten (StoryPreferences.userUpdate p)
                          (S (clock w)) s1 in
              settled s2 [s1; s2] 2
                [UpdateDoc uid true; GetDocsUsers true;
                 BatchCommit (users (store w)).*1 true;
                 Notify (ToastSuccess
                   "Updated story preferences for all users successfully")]
                w
          end
      end
  | _, _ => settled (store w) [] 0 (UpdateDoc uid false :: failed) w
  end.

(** Events that tell the operator nothing and write nothing. *)
Definition quiet (e : Event) : Prop :=
  match e with
  | AgentUpdate _ _ _ | Notify (ConsoleError _) => True
  | _ => False
  end.

(** What the ordering of the two writes means for one run from [w] to
    [w']: the successful own-record write comes before any batch commit in
    the log; a failed batch leaves the own record [saved] and the users
    untouched; and every state the run put the store in has the own record
    [saved]. *)
Definition ownRecordFirst (uid : string) (saved : Store → Prop)
    (w w' : World) : Prop :=
  (∀ pre targets ok post,
     newEvents w w' = pre ++ BatchCommit targets ok :: post →
     UpdateDoc uid true ∈ pre) ∧
  (∀ targets,
     BatchCommit targets false ∈ newEvents w w' →
     saved (store w') ∧ users (store w') = users (store w)) ∧
  (∀ s, s ∈ newStores w w' → saved s).

(** How the log of an AI save ends once the batch was attempted. *)
Definition aiTail (env : Env) (ids : list string) : list Event :=
  match commit_error env with
  | Some _ =>
      BatchCommit ids false ::
      saveFailed "Error updating AI preferences:"
        "Failed to update some preferences. Please try again."
  | None =>
      [BatchCommit ids true;
       Notify (ToastSuccess "Updated AI preferences successfully")]
  end.

(** Calls of one group settle in some order, but each settles once. *)
Definition settlesAll (env : Env) : Prop :=
  ∀ l, completion env l ≡ₚ l.

End Trace.

(** * Concrete stores and inputs used below *)
Module Samples.

(** A call record of user [u1], last updated at time [i]. *)
Definition callDoc (i : nat) : CallHistory.CallDoc := {|
  CallHistory.doc_id := "call";
  CallHistory.doc_owner := Some "u1";
  CallHistory.d_callId := None;
  CallHistory.d_category := "childhood";
  CallHistory.d_creationTime := Some (Z.of_nat i);
  CallHistory.d_initialQuestion := "q";
  CallHistory.d_lastUpdated := Some (Z.of_nat i);
  CallHistory.d_recording_url := "";
  CallHistory.d_sessionId := "s";
  CallHistory.d_storyId := "t";
  CallHistory.d_transcript := "";
  CallHistory.d_transcript_object := None;
  CallHistory.d_updated := false;
  CallHistory.d_videoComplete := false;
  CallHistory.d_videoUrl := ""
|}.

(** A store holding [n] call records, all reads answered. *)
Definition callDb (n : nat) : CallHistory.Db := {|
  CallHistory.call_history := callDoc <$> seq 0 n;
  CallHistory.getDocs_ok := true;
  CallHistory.user_emails := {[ "u1" := Some "u1@example.com" ]};
  CallHistory.getDoc_ok := λ _, true;
  CallHistory.settled_early := 0
|}.

(** A record of user [u2] whose timestamps are missing. *)
Definition undatedDoc : CallHistory.CallDoc := {|
  CallHistory.doc_id := "undated";
  CallHistory.doc_owner := Some "u2";
  CallHistory.d_callId := None;
  CallHistory.d_category := "childhood";
  CallHistory.d_creationTime := None;
  CallHistory.d_initialQuestion := "q";
  CallHistory.d_lastUpdated := None;
  CallHistory.d_recording_url := "";
  CallHistory.d_sessionId := "s";
  CallHistory.d_storyId := "t";
  CallHistory.d_transcript := "";
  CallHistory.d_transcript_object := None;
  CallHistory.d_updated := false;
  CallHistory.d_videoComplete := false;
  CallHistory.d_videoUrl := ""
|}.

(** A store with a sound record of [u1], whose lookup is rejected, and the
    undated record of [u2], whose lookup is answered first. *)
Definition callDbBroken : CallHistory.Db := {|
  CallHistory.call_history := [callDoc 1; undatedDoc];
  CallHistory.getDocs_ok := true;
  CallHistory.user_emails := {[ "u2" := Some "u2@example.com" ]};
  CallHistory.getDoc_ok := λ uid, negb (String.eqb uid "u1");
  CallHistory.settled_early := 0
|}.

(** An administrator who has not saved any preference yet. *)
Definition adminDoc : Firestore.AdminDoc := {|
  Firestore.name := "Ada"; Firestore.email := "ada@example.com";
  Firestore.createdAt := 0; Firestore.updatedAt := 0;
  Firestore.aiPreferences := None; Firestore.storyPreferences := None
|}.

Definition userDoc (ids : Firestore.AgentIds) : Firestore.UserDoc := {|
  Firestore.agentIds := ids;
  Firestore.u_voice := None; Firestore.u_followUpIntensity := None;
  Firestore.u_conversationStyle := None; Firestore.u_narrativeStyle := None;
  Firestore.u_lengthPreference := None; Firestore.u_detailRichness := None;
  Firestore.u_updatedAt := 0
|}.

(** One administrator and three users: one owning two agents, one without
    the field, one with an empty list. *)
Definition store3 : Firestore.Store := {|
  Firestore.admins := {[ "admin1" := adminDoc ]};
  Firestore.users := [("u1", userDoc (Firestore.IdArray ["a1"; "a2"]));
                      ("u2", userDoc Firestore.Absent);
                      ("u3", userDoc (Firestore.IdArray []))]
|}.

(** The same administrator and no user at all. *)
Definition store0 : Firestore.Store := {|
  Firestore.admins := {[ "admin1" := adminDoc ]};
  Firestore.users := []
|}.

Definition prefs : Firestore.AiPreferences := {|
  Firestore.voice := AIPreferences.DEFAULT_VOICE;
  Firestore.followUpIntensity := Firestore.More;
  Firestore.conversationStyle := Firestore.Casual
|}.

(** The screen with every choice made. *)
Definition view : AIPreferences.View := {|
  AIPreferences.voices := [];
  AIPreferences.selectedVoice := Some AIPreferences.DEFAULT_VOICE;
  AIPreferences.conversationStyle := Some Firestore.Casual;
  AIPreferences.followUpIntensity := Some Firestore.More;
  AIPreferences.isLoading := false
|}.

Definition offline : JsError := mkError (Some "unavailable") "offline".

(** The store answers; the provider rejects every update of agent [a2];
    the calls of a group settle last-issued first. *)
Definition envAgentDown : Firestore.Env := {|
  Firestore.updateDoc_error := None;
  Firestore.getDocs_error := None;
  Firestore.retell_error := None;
  Firestore.agent_update_ok := λ _ agentId, negb (String.eqb agentId "a2");
  Firestore.completion := reverse;
  Firestore.commit_error := None
|}.

(** The own-record write is rejected. *)
Definition envWriteDown : Firestore.Env := {|
  Firestore.updateDoc_error := Some offline;
  Firestore.getDocs_error := None;
  Firestore.retell_error := None;
  Firestore.agent_update_ok := λ _ _, true;
  Firestore.completion := reverse;
  Firestore.commit_error := None
|}.

(** Only the batch is rejected. *)
Definition envBatchDown : Firestore.Env := {|
  Firestore.updateDoc_error := None;
  Firestore.getDocs_error := None;
  Firestore.retell_error := None;
  Firestore.agent_update_ok := λ _ _, true;
  Firestore.completion := reverse;
  Firestore.commit_error := Some offline
|}.

(** Every read of [fetchData] is answered. *)
Definition fetchEnv : AIPreferences.FetchEnv := {|
  AIPreferences.client_error := None;
  AIPreferences.getDoc_error := None;
  AIPreferences.voice_list := inr [AIPreferences.DEFAULT_VOICE]
|}.

(** A second administrator. *)
Definition adminDocC : Firestore.AdminDoc := {|
  Firestore.name := "Cy"; Firestore.email := "cy@example.com";
  Firestore.createdAt := 0; Firestore.updatedAt := 0;
  Firestore.aiPreferences := None; Firestore.storyPreferences := None
|}.

(** The [admins] collection with the administrators [A] and [C]. *)
Definition bothAC : gmap string Firestore.AdminDoc :=
  {[ "A" := adminDoc; "C" := adminDocC ]}.

(** The [admins] collection with the single administrator [A]. *)
Definition onlyA : gmap string Firestore.AdminDoc := {[ "A" := adminDoc ]}.

(** Administrator [A] signs in and out, then [B], who has credentials but
    no administrator record, signs in on the same page; every lookup is
    answered. *)
Definition thenB : list (option string * option JsError) :=
  [(Some "A", None); (None, None); (Some "B", None)].

(** The same, with the lookup for [B] failing. *)
Definition thenBOffline : list (option string * option JsError) :=
  [(Some "A", None); (None, None); (Some "B", Some offline)].

(** The sign-in form's world before a submission, and a provider that
    accepts the credentials of [B]. *)
Definition signedOut : AuthForm.World := {|
  AuthForm.currentUser := None; AuthForm.admins := onlyA;
  AuthForm.clock := 0; AuthForm.location := "/signin";
  AuthForm.notices := []; AuthForm.loading := false
|}.

Definition acceptsB (getDoc_error : option JsError) : AuthForm.Env := {|
  AuthForm.signIn := λ _ _, inr "B";
  AuthForm.createUser := λ _ _, inr "B";
  AuthForm.setDoc_error := None;
  AuthForm.getDoc_error := getDoc_error
|}.

End Samples.

(** * Prompt screens (components/PromptsView, components/AgentSettingsView) *)
Module Prompts.

(** A document of [categories]; every field can be missing. *)
Record CategoryDoc := {
  title : option string;
  description : option string;
  emoji_unicode : option string
}.

Record AgentConfigurations := {
  interruption_sensitivity : Z;
  language : string;
  voice_id : string
}.

(** [model] is missing on a map that a dotted-path write created. *)
Record LlmConfigurations := {
  general_prompt : string;
  model : option string
}.

(** A document of [agent_skeletons]. *)
Record SkeletonDoc := {
  agent_configurations : AgentConfigurations;
  category_id : option string;
  llm_configurations : option LlmConfigurations;
  updatedAt : option nat
}.

(** A document of [agents], as the prompt editor reads it. *)
Record AgentDoc := {
  categoryId : option string;
  llmId : option string
}.

(** A truthy string, if there is one. *)
Definition nonEmpty (s : option string) : option string :=
  t ← s; if truthy t then Some t else None.

End Prompts.

(** ** The list of categories *)
Module PromptsView.
Import Prompts.

Record View := {
  agentSkeletons : list (string * SkeletonDoc);
  categories : list (string * CategoryDoc);
  isLoading : bool
}.

Definition initial : View :=
  {| agentSkeletons := []; categories := []; isLoading := true |}.

(** [fetchData], given the answers to its two collection reads ([None]:
    the read is rejected). *)
Definition fetchData (skeletons : option (list (string * SkeletonDoc)))
    (cats : option (list (string * CategoryDoc))) (v : View)
  : View * list Notice :=
  match skeletons, cats with
  | Some skeletonsData, Some categoriesData =>
      ({| agentSkeletons := skeletonsData; categories := categoriesData;
          isLoading := false |}, [])
  | _, _ =>
      ({| agentSkeletons := agentSkeletons v; categories := categories v;
          isLoading := false |},
       [ConsoleError "Error fetching data:";
        ToastError "Failed to load prompts"])
  end.

Record Details := {
  d_title : string;
  d_description : string;
  d_emoji_unicode : string
}.

(** [categories.find(c => c.id === categoryId)]. *)
Fixpoint find (cats : list (string * CategoryDoc)) (categoryId : string)
  : option CategoryDoc :=
  match cats with
  | [] => None
  | (i, c) :: rest =>
      if bool_decide (i = categoryId) then Some c else find rest categoryId
  end.

Definition getCategoryDetails (cats : list (string * CategoryDoc))
    (categoryId : string) : Details :=
  let category := find cats categoryId in
  {| d_title := or_else (category ≫= title) "Unknown Category";
     d_description := or_else (category ≫= description) "";
     d_emoji_unicode := or_else (category ≫= emoji_unicode) "" |}.

End PromptsView.

(** ** The prompt editor of one category *)
Module AgentSettingsView.
Import Prompts.

(** The cells of the editor; [skeleton] and [category] hold a document
    with its id. *)
Record View := {
  skeleton : option (string * SkeletonDoc);
  category : option (string * CategoryDoc);
  isLoading : bool;
  isSaving : bool;
  generalPrompt : string
}.

Definition initial : View :=
  {| skeleton := None; category := None; isLoading := true;
     isSaving := false; generalPrompt := "" |}.

Inductive Event :=
| GetSkeleton (id : string) (ok : bool)
| GetCategory (id : string) (ok : bool)
| UpdateSkeleton (id : string) (ok : bool)
| QueryAgents (categoryId : string) (ok : bool)
| LlmUpdate (llmId : string) (prompt : string) (ok : bool)
| Navigate (to : string)
| Notify (n : Notice).

(** The three collections, the server clock, the log and the view. *)
Record World := {
  skeletons : gmap string SkeletonDoc;
  categories : gmap string CategoryDoc;
  agents : list (string * AgentDoc);
  clock : nat;
  events : list Event;
  view : View
}.

(** How the store and the provider answer during one run; LLM updates are
    answered per call, numbered in the order they are issued. *)
Record Env := {
  getSkeleton_error : option JsError;
  getCategory_error : option JsError;
  updateDoc_error : option JsError;
  getDocs_error : option JsError;
  retell_error : option JsError;
  llm_update_ok : nat → string → bool
}.

Definition withView (f : View → View) : Async World unit := λ w,
  (inr (), {| skeletons := skeletons w; categories := categories w;
              agents := agents w; clock := clock w; events := events w;
              view := f (view w) |}).

Definition logged (es : list Event) (w : World) : World :=
  {| skeletons := skeletons w; categories := categories w;
     agents := agents w; clock := clock w; events := events w ++ es;
     view := view w |}.

Definition emit (es : list Event) : Async World unit :=
  λ w, (inr (), logged es w).

Definition console_error (msg : string) : Async World unit :=
  emit [Notify (ConsoleError msg)].
Definition toast_error (msg : string) : Async World unit :=
  emit [Notify (ToastError msg)].
Definition toast_success (msg : string) : Async World unit :=
  emit [Notify (ToastSuccess msg)].
Definition navigate (to : string) : Async World unit := emit [Navigate to].

Definition setIsLoading (b : bool) : Async World unit :=
  withView (λ v, {| skeleton := skeleton v; category := category v;
                    isLoading := b; isSaving := isSaving v;
                    generalPrompt := generalPrompt v |}).

Definition setIsSaving (b : bool) : Async World unit :=
  withView (λ v, {| skeleton := skeleton v; category := category v;
                    isLoading := isLoading v; isSaving := b;
                    generalPrompt := generalPrompt v |}).

Definition setSkeleton (s : string * SkeletonDoc) : Async World unit :=
  withView (λ v, {| skeleton := Some s; category := category v;
                    isLoading := isLoading v; isSaving := isSaving v;
                    generalPrompt := generalPrompt v |}).

Definition setCategory (c : string * CategoryDoc) : Async World unit :=
  withView (λ v, {| skeleton := skeleton v; category := Some c;
                    isLoading := isLoading v; isSaving := isSaving v;
                    generalPrompt := generalPrompt v |}).

Definition setGeneralPrompt (p : string) : Async World unit :=
  withView (λ v, {| skeleton := skeleton v; category := category v;
                    isLoading := isLoading v; isSaving := isSaving v;
                    generalPrompt := p |}).

(** What a failed property read or an invalid document path throws. *)
Definition typeError : JsError := mkError None "TypeError".

(** [getDoc(doc(db, 'agent_skeletons', id))]. *)
Definition getSkeleton (env : Env) (id : string)
  : Async World (option SkeletonDoc) := λ w,
  match getSkeleton_error env with
  | Some e => (inl e, logged [GetSkeleton id false] w)
  | None => (inr (skeletons w !! id), logged [GetSkeleton id true] w)
  end.

(** [getDoc(doc(db, 'categories', id))]. *)
Definition getCategory (env : Env) (id : string)
  : Async World (option CategoryDoc) := λ w,
  match getCategory_error env with
  | Some e => (inl e, logged [GetCategory id false] w)
  | None => (inr (categories w !! id), logged [GetCategory id true] w)
  end.

(** The effect on [id]. *)
Definition fetchData (env : Env) (id : option string) : Async World unit :=
  match nonEmpty id with
  | None => mret ()
  | Some i =>
      finally
        (try_catch
           (setIsLoading true;;
            skeletonDoc ← getSkeleton env i;
            match skeletonDoc with
            | None =>
                toast_error "Agent settings not found";;
                navigate "/prompts"
            | Some skeletonData =>
                setSkeleton (i, skeletonData);;
                match llm_configurations skeletonData with
                | Some llm => setGeneralPrompt (general_prompt llm)
                | None => throw typeError
                end;;
                match nonEmpty (category_id skeletonData) with
                | None => throw typeError
                | Some c =>
                    categoryDoc ← getCategory env c;
                    match categoryDoc with
                    | Some data => setCategory (c, data)
                    | None => mret ()
                    end
                end
            end)
           (λ _,
              console_error "Error fetching data:";;
              toast_error "Failed to load agent settings"))
        (setIsLoading false)
  end.

(** The write of ['llm_configurations.general_prompt'] and [updatedAt]. *)
Definition promptUpdate (prompt : string) (now : nat) (d : SkeletonDoc)
  : SkeletonDoc :=
  {| agent_configurations := agent_configurations d;
     category_id := category_id d;
     llm_configurations :=
       Some {| general_prompt := prompt;
               model := llm_configurations d ≫= model |};
     updatedAt := Some now |}.

(** [updateDoc(doc(db, 'agent_skeletons', id), ...)]; updating a missing
    document rejects. *)
Definition updateSkeleton (env : Env) (id : string) (prompt : string)
  : Async World unit := λ w,
  match updateDoc_error env with
  | Some e => (inl e, logged [UpdateSkeleton id false] w)
  | None =>
      match skeletons w !! id with
      | Some d =>
          (inr (),
           {| skeletons := <[id := promptUpdate prompt (clock w) d]> (skeletons w);
              categories := categories w; agents := agents w;
              clock := S (clock w);
              events := events w ++ [UpdateSkeleton id true];
              view := view w |})
      | None =>
          (inl (mkError (Some "not-found") "No document to update"),
           logged [UpdateSkeleton id false] w)
      end
  end.

(** [getDocs(query(collection(db, 'agents'), where('categoryId', '==', c)))]. *)
Definition queryAgents (env : Env) (c : string)
  : Async World (list (string * AgentDoc)) := λ w,
  match getDocs_error env with
  | Some e => (inl e, logged [QueryAgents c false] w)
  | None =>
      (inr (filter (λ a, categoryId a.2 = Some c) (agents w)),
       logged [QueryAgents c true] w)
  end.

(** The [for] loop of [updateRetellLLMs]: one awaited call after the
    other; [k] calls were issued before. *)
Fixpoint llmLoop (env : Env) (prompt : string)
    (docs : list (string * AgentDoc)) (k : nat) (failedUpdates : list string)
  : Async World (list string) :=
  match docs with
  | [] => mret failedUpdates
  | (_, agentData) :: rest =>
      match nonEmpty (llmId agentData) with
      | Some l =>
          if llm_update_ok env k l then
            emit [LlmUpdate l prompt true];;
            llmLoop env prompt rest (S k) failedUpdates
          else
            emit [LlmUpdate l prompt false;
                  Notify (ConsoleError ("Error updating LLM " ++ l ++ ":"))];;
            llmLoop env prompt rest (S k) (failedUpdates ++ [l])
      | None => llmLoop env prompt rest k failedUpdates
      end
  end.

(** Returns its local [failedUpdates], which the caller drops.  [v] holds
    the cells as rendered when the handler was created. *)
Definition updateRetellLLMs (env : Env) (v : View)
  : Async World (list string) :=
  match nonEmpty (skeleton v ≫= λ s, category_id s.2) with
  | None => mret []
  | Some c =>
      match retell_error env with
      | Some e => throw e
      | None =>
          try_catch
            (agentsSnapshot ← queryAgents env c;
             failedUpdates ← llmLoop env (generalPrompt v) agentsSnapshot 0 [];
             (if bool_decide (0 < length failedUpdates)
              then console_error ("Failed to update some LLMs: "
                                  ++ String.concat ", " failedUpdates)
              else mret ());;
             mret failedUpdates)
            (λ error,
               console_error "Error updating Retell LLMs:";;
               throw error)
      end
  end.

Definition handleSave (env : Env) (id : option string) (v : View)
  : Async World unit :=
  match nonEmpty id, skeleton v with
  | Some i, Some _ =>
      setIsSaving true;;
      finally
        (try_catch
           (updateSkeleton env i (generalPrompt v);;
            try_catch
              (updateRetellLLMs env v;;
               toast_success "Agent prompt and LLMs updated successfully")
              (λ _,
                 console_error "Error updating Retell LLMs:";;
                 toast_error
                   "Failed to update some LLMs. Changes saved to Firebase only."))
           (λ _,
              console_error "Error updating agent prompt:";;
              toast_error "Failed to update agent prompt"))
        (setIsSaving false)
  | _, _ => mret ()
  end.

(** The events a run appended to the log. *)
Definition newEvents (w w' : World) : list Event :=
  drop (length (events w)) (events w').

(** The LLM calls in a log: id, prompt and outcome. *)
Definition llmCalls (es : list Event) : list (string * string * bool) :=
  omap (λ e, match e with
             | LlmUpdate l p ok => Some (l, p, ok)
             | _ => None
             end) es.

(** What the operator is shown. *)
Definition toasts (es : list Event) : list Notice :=
  omap (λ e, match e with
             | Notify (ConsoleError _) => None
             | Notify n => Some n
             | _ => None
             end) es.

(** The LLM ids the loop calls for a category: those of its agents that
    have one. *)
Definition llmIdsOf (c : string) (ags : list (string * AgentDoc))
  : list string :=
  omap (λ a, nonEmpty (llmId a.2))
       (filter (λ a, categoryId a.2 = Some c) ags).

(** The events of the loop and the ids it appends to [failedUpdates],
    when [k] calls were issued before. *)
Fixpoint loopEvents (env : Env) (prompt : string)
    (docs : list (string * AgentDoc)) (k : nat) : list Event :=
  match docs with
  | [] => []
  | r :: rest =>
      match nonEmpty (llmId r.2) with
      | Some l =>
          (if llm_update_ok env k l then [LlmUpdate l prompt true]
           else [LlmUpdate l prompt false;
                 Notify (ConsoleError ("Error updating LLM " ++ l ++ ":"))])
          ++ loopEvents env prompt rest (S k)
      | None => loopEvents env prompt rest k
      end
  end.

Fixpoint loopFailed (env : Env) (docs : list (string * AgentDoc)) (k : nat)
  : list string :=
  match docs with
  | [] => []
  | r :: rest =>
      match nonEmpty (llmId r.2) with
      | Some l =>
          (if llm_update_ok env k l then [] else [l])
          ++ loopFailed env rest (S k)
      | None => loopFailed env rest k
      end
  end.

(** The render guard: the editor instead of the spinner. *)
Definition ready (v : View) : bool :=
  negb (isLoading v) && bool_decide (is_Some (skeleton v))
  && bool_decide (is_Some (category v)).

(** The category the loaded skeleton names, if any. *)
Definition loadedCategory (v : View) : option string :=
  nonEmpty (skeleton v ≫= λ s, category_id s.2).

Definition saveSuccess : Notice :=
  ToastSuccess "Agent prompt and LLMs updated successfully".
Definition llmFailure : Notice :=
  ToastError "Failed to update some LLMs. Changes saved to Firebase only.".
Definition saveFailure : Notice :=
  ToastError "Failed to update agent prompt".

(** The verdict of a save, from what the store and the provider's client
    and query do; the outcomes of the LLM updates do not enter. *)
Definition verdict (env : Env) (i : string) (v : View) (w : World) : Notice :=
  match updateDoc_error env, skeletons w !! i with
  | None, Some _ =>
      match loadedCategory v with
      | None => saveSuccess
      | Some _ =>
          match retell_error env, getDocs_error env with
          | None, None => saveSuccess
          | _, _ => llmFailure
          end
      end
  | _, _ => saveFailure
  end.

(** The console line that sums up the failed LLM updates. *)
Definition failureSummary (failedUpdates : list string) : list Event :=
  if bool_decide (0 < length failedUpdates)
  then [Notify (ConsoleError ("Failed to update some LLMs: "
                              ++ String.concat ", " failedUpdates))]
  else [].

(** The agents the query of [updateRetellLLMs] returns. *)
Definition agentsOf (c : string) (w : World) : list (string * AgentDoc) :=
  filter (λ a, categoryId a.2 = Some c) (agents w).

(** [handleSave] in closed form: the events it logs... *)
Definition saveEvents (env : Env) (i : string) (v : View) (w : World)
  : list Event :=
  match updateDoc_error env, skeletons w !! i with
  | None, Some _ =>
      UpdateSkeleton i true ::
      match loadedCategory v with
      | None => [Notify saveSuccess]
      | Some c =>
          match retell_error env, getDocs_error env with
          | Some _, _ =>
              [Notify (ConsoleError "Error updating Retell LLMs:");
               Notify llmFailure]
          | None, Some _ =>
              [QueryAgents c false;
               Notify (ConsoleError "Error updating Retell LLMs:");
               Notify (ConsoleError "Error updating Retell LLMs:");
               Notify llmFailure]
          | None, None =>
              QueryAgents c true ::
              loopEvents env (generalPrompt v) (agentsOf c w) 0 ++
              failureSummary (loopFailed env (agentsOf c w) 0) ++
              [Notify saveSuccess]
          end
      end
  | _, _ =>
      [UpdateSkeleton i false;
       Notify (ConsoleError "Error updating agent prompt:");
       Notify saveFailure]
  end.

(** ... and the world it leaves. *)
Definition saveOutcome (env : Env) (i : string) (v : View) (w : World)
  : World :=
  let written :=
    match updateDoc_error env, skeletons w !! i with
    | None, Some d => Some d
    | _, _ => None
    end in
  {| skeletons :=
       match written with
       | Some d => <[i := promptUpdate (generalPrompt v) (clock w) d]> (skeletons w)
       | None => skeletons w
       end;
     categories := categories w;
     agents := agents w;
     clock := match written with Some _ => S (clock w) | None => clock w end;
     events := events w ++ saveEvents env i v w;
     view := {| skeleton := skeleton (view w); category := category (view w);
                isLoading := isLoading (view w); isSaving := false;
                generalPrompt := generalPrompt (view w) |} |}.

End AgentSettingsView.

(** * The voice sample player of the AI preferences screen *)
Module VoiceSample.

(** An [Audio] element: its source and whether it is sounding. *)
Record Audio := { src : string; playing : bool }.

(** Every element created so far, the element [audioRef.current] points to
    (by position), the [isPlaying] cell and the notices. *)
Record World := {
  elements : list Audio;
  audioRef : option nat;
  isPlaying : bool;
  notices : list Notice
}.

Definition initial : World :=
  {| elements := []; audioRef := None; isPlaying := false; notices := [] |}.

Definition pause (a : Audio) : Audio := {| src := src a; playing := false |}.
Definition started (a : Audio) : Audio := {| src := src a; playing := true |}.

(** [play_ok] tells whether the promise of [play()] resolves. *)
Definition handlePlaySample (play_ok : bool)
    (selectedVoice : option Firestore.Voice) (w : World) : World :=
  match selectedVoice with
  | None => w
  | Some voice =>
      let i := length (elements w) in
      let created :=
        elements w ++
        [{| src := Firestore.preview_audio_url voice; playing := false |}] in
      if isPlaying w then
        {| elements := alter pause i created; audioRef := Some i;
           isPlaying := false; notices := notices w |}
      else if play_ok then
        {| elements := alter started i created; audioRef := Some i;
           isPlaying := true; notices := notices w |}
      else
        {| elements := created; audioRef := Some i; isPlaying := false;
           notices := notices w ++
                      [ConsoleError "Error playing audio:";
                       ToastError "Failed to play audio sample"] |}
  end.

(** The effect on [selectedVoice]. *)
Definition onSelectedVoice (w : World) : World :=
  match audioRef w with
  | Some i =>
      {| elements := alter pause i (elements w); audioRef := Some i;
         isPlaying := false; notices := notices w |}
  | None => w
  end.

(** Element [i] reaches its end: it falls silent and its [onended]
    handler runs. *)
Definition onended (i : nat) (w : World) : World :=
  {| elements := alter pause i (elements w); audioRef := audioRef w;
     isPlaying := false; notices := notices w |}.

(** How many elements are sounding. *)
Definition sounding (w : World) : nat :=
  length (filter (λ a, playing a = true) (elements w)).

End VoiceSample.

(** * What a save leaves on the records *)
Module Mirror.
Import Firestore.

(** A user record mirrors an AI, or a story, preference block. *)
Definition aiMirrors (p : AiPreferences) (d : UserDoc) : Prop :=
  u_voice d = Some (voice p) ∧
  u_followUpIntensity d = Some (followUpIntensity p) ∧
  u_conversationStyle d = Some (conversationStyle p).

Definition storyMirrors (p : StoryPreferences) (d : UserDoc) : Prop :=
  u_narrativeStyle d = Some (narrativeStyle p) ∧
  u_lengthPreference d = Some (lengthPreference p) ∧
  u_detailRichness d = Some (detailRichness p).

(** The fields of a user record an AI save, or a story save, has no
    business with. *)
Definition aiKeeps (d d' : UserDoc) : Prop :=
  agentIds d' = agentIds d ∧
  u_narrativeStyle d' = u_narrativeStyle d ∧
  u_lengthPreference d' = u_lengthPreference d ∧
  u_detailRichness d' = u_detailRichness d.

Definition storyKeeps (d d' : UserDoc) : Prop :=
  agentIds d' = agentIds d ∧
  u_voice d' = u_voice d ∧
  u_followUpIntensity d' = u_followUpIntensity d ∧
  u_conversationStyle d' = u_conversationStyle d.

(** The same users, in the same order, each related by [keeps]. *)
Definition sameUsers (keeps : UserDoc → UserDoc → Prop)
    (us us' : list (string * UserDoc)) : Prop :=
  Forall2 (λ r r', r'.1 = r.1 ∧ keeps r.2 r'.2) us us'.

(** The same administrators; all records but [uid]'s are untouched, and
    [uid]'s keeps its identity fields and whatever [kept] reads. *)
Definition sameAdmins {A} (kept : AdminDoc → A) (uid : string)
    (ads ads' : gmap string AdminDoc) : Prop :=
  (∀ u, u ≠ uid → ads' !! u = ads !! u) ∧
  match ads !! uid, ads' !! uid with
  | Some d, Some d' =>
      name d' = name d ∧ email d' = email d ∧
      createdAt d' = createdAt d ∧ kept d' = kept d
  | None, None => True
  | _, _ => False
  end.

(** Whether the store accepts all three of its steps of a save. *)
Definition accepted (env : Env) (uid : string) (w : World) : bool :=
  match updateDoc_error env, admins (store w) !! uid,
        getDocs_error env, commit_error env with
  | None, Some _, None, None => true
  | _, _, _, _ => false
  end.

Definition aiSuccess : Event :=
  Notify (ToastSuccess "Updated AI preferences successfully").
Definition aiFailure : Event :=
  Notify (ToastError "Failed to update some preferences. Please try again.").
Definition storySuccess : Event :=
  Notify (ToastSuccess "Updated story preferences for all users successfully").
Definition storyFailure : Event :=
  Notify (ToastError "Failed to update story preferences").

(** What [fetchData] falls back to. *)
Definition defaultPreferences : AiPreferences :=
  {| voice := AIPreferences.DEFAULT_VOICE;
     followUpIntensity := Balanced;
     conversationStyle := BalancedStyle |}.

End Mirror.

(** * Concrete prompt-editor inputs used below *)
Module Cases.
Import Prompts.

Definition skel : SkeletonDoc := {|
  agent_configurations :=
    {| interruption_sensitivity := 1; language := "en-US";
       voice_id := "play-Cimo" |};
  category_id := Some "childhood";
  llm_configurations :=
    Some {| general_prompt := "old prompt"; model := Some "gpt-4o" |};
  updatedAt := None
|}.

Definition cat : CategoryDoc := {|
  title := Some "Childhood"; description := Some "Early years";
  emoji_unicode := None
|}.

(** Two agents of the category with an LLM, one without, one of another
    category. *)
Definition agents4 : list (string * AgentDoc) := [
  ("g1", {| categoryId := Some "childhood"; llmId := Some "llm1" |});
  ("g2", {| categoryId := Some "travel"; llmId := Some "llm2" |});
  ("g3", {| categoryId := Some "childhood"; llmId := None |});
  ("g4", {| categoryId := Some "childhood"; llmId := Some "llm4" |})
].

Definition editorWorld : AgentSettingsView.World := {|
  AgentSettingsView.skeletons := {[ "sk1" := skel ]};
  AgentSettingsView.categories := {[ "childhood" := cat ]};
  AgentSettingsView.agents := agents4;
  AgentSettingsView.clock := 0;
  AgentSettingsView.events := [];
  AgentSettingsView.view := AgentSettingsView.initial
|}.

(** The editor with the skeleton loaded and a new prompt typed in. *)
Definition edited : AgentSettingsView.View := {|
  AgentSettingsView.skeleton := Some ("sk1", skel);
  AgentSettingsView.category := Some ("childhood", cat);
  AgentSettingsView.isLoading := false;
  AgentSettingsView.isSaving := false;
  AgentSettingsView.generalPrompt := "new prompt"
|}.

(** Store and client answer; the provider rejects every LLM update. *)
Definition envLlmDown : AgentSettingsView.Env := {|
  AgentSettingsView.getSkeleton_error := None;
  AgentSettingsView.getCategory_error := None;
  AgentSettingsView.updateDoc_error := None;
  AgentSettingsView.getDocs_error := None;
  AgentSettingsView.retell_error := None;
  AgentSettingsView.llm_update_ok := λ _ _, false
|}.

(** Store and client answer; the provider rejects the first LLM update
    only. *)
Definition envFirstLlmDown : AgentSettingsView.Env := {|
  AgentSettingsView.getSkeleton_error := None;
  AgentSettingsView.getCategory_error := None;
  AgentSettingsView.updateDoc_error := None;
  AgentSettingsView.getDocs_error := None;
  AgentSettingsView.retell_error := None;
  AgentSettingsView.llm_update_ok := λ k _, negb (Nat.eqb k 0)
|}.

End Cases.

(** * Properties *)

(** ** Call history browser *)
Section call_history.
Import CallHistory.

Lemma insertCall_perm x l : insertCall x l ≡ₚ x :: l.
Proof.
  induction l as [|y l IH]; simpl; [done|].
  case_match; [done|].
  rewrite IH. apply Permutation_swap.
Qed.

Lemma sortCalls_perm l : sortCalls l ≡ₚ l.
Proof.
  induction l as [|x l IH]; simpl; [done|].
  fold (sortCalls l). by rewrite insertCall_perm, IH.
Qed.

Lemma sortCalls_length l : length (sortCalls l) = length l.
Proof. by rewrite sortCalls_perm. Qed.

Lemma insertCall_sorted x l :
  StronglySorted newerEq l → StronglySorted newerEq (insertCall x l).
Proof.
  induction 1 as [|y l Hl IH Hy]; simpl.
  - repeat constructor.
  - case_match eqn:Hcmp.
    + apply Z.leb_le in Hcmp.
      constructor; [by constructor|].
      constructor; [unfold newerEq; lia|].
      eapply Forall_impl; [|exact Hy]. unfold newerEq. intros z Hz. lia.
    + apply Z.leb_gt in Hcmp.
      constructor; [done|].
      rewrite insertCall_perm. constructor; [unfold newerEq; lia|done].
Qed.

Lemma sortCalls_sorted l : StronglySorted newerEq (sortCalls l).
Proof.
  induction l as [|x l IH]; simpl; [constructor|].
  by apply insertCall_sorted.
Qed.

Lemma take_sorted n (l : list CallEntry) :
  StronglySorted newerEq l → StronglySorted newerEq (take n l).
Proof.
  intros Hl. rewrite <- (take_drop n l) in Hl.
  by apply StronglySorted_app_1_l in Hl.
Qed.

Lemma take_prefix_le {A} (l : list A) n m :
  n `min` length l ≤ m → take n l `prefix_of` take m l.
Proof.
  intros Hle. destruct (decide (n ≤ m)) as [Hnm|Hnm].
  - rewrite <- (Nat.min_l n m Hnm), <- take_take. apply prefix_take.
  - by rewrite !take_ge by lia.
Qed.

(** A load that reaches the sort. *)
Lemma fetchCalls_ok db isInitial st data :
  callsData db = Some data →
  fetchCalls db isInitial st =
    (let count := if isInitial then CALLS_PER_PAGE
                  else length (calls st) + CALLS_PER_PAGE in
     {| calls := take count (sortCalls data);
        isLoading := if isInitial then false else isLoading st;
        lastVisible := list.last (doc_id <$> call_history db);
        hasMore := bool_decide (count < length (sortCalls data));
        isLoadingMore := if isInitial then isLoadingMore st else false |},
     GetDocsCallHistory :: ownerLookups (call_history db),
     lookupErrors db (call_history db)).
Proof.
  intros Hdata. unfold fetchCalls, fetches, lookupNotices.
  rewrite Hdata. unfold callsData in Hdata.
  destruct (getDocs_ok db); [|done]. by destruct isInitial.
Qed.

(** After any number of loads the window is a cut of the sorted result:
    its first [c] records, with [hasMore] telling whether [c] falls short
    of the total. *)
Lemma afterLoads_window db data n :
  callsData db = Some data →
  ∃ c, (CALLS_PER_PAGE ≤ c)%nat ∧
       calls (afterLoads db n) = take c (sortCalls data) ∧
       hasMore (afterLoads db n) = bool_decide (c < length (sortCalls data)) ∧
       isLoadingMore (afterLoads db n) = false.
Proof.
  intros Hdata. induction n as [|n (c & Hc & Hcalls & Hmore & Hlm)].
  - exists CALLS_PER_PAGE. simpl. by rewrite (fetchCalls_ok _ _ _ _ Hdata).
  - simpl. unfold handleLoadMore. rewrite Hlm, Hmore. simpl.
    case_bool_decide as Hlt.
    + rewrite (fetchCalls_ok _ _ _ _ Hdata). simpl.
      rewrite Hcalls, length_take_le by lia.
      exists (c + CALLS_PER_PAGE). split; [lia|done].
    + exists c. simpl. by rewrite Hcalls, Hmore, Hlm, bool_decide_false.
Qed.

(** C4, as stated, fails: in a store of 21 call records the first load
    leaves one record hidden, and activating "load more" then sends the
    collection-group query again together with one owner lookup per
    record, 22 reads in all. *)
Lemma C4_load_more_fetches_again :
  let st := afterLoads (Samples.callDb 21) 0 in
  hasMore st = true ∧
  (handleLoadMore (Samples.callDb 21) st).1.2 =
    GetDocsCallHistory :: replicate 21 (GetDocUser "u1") ∧
  (handleLoadMore (Samples.callDb 21) st).1.2 ≠ [].
Proof. vm_compute. split; [reflexivity|]. split; [reflexivity|discriminate]. Qed.

(** C4 (amended): while more records remain and no load is in flight,
    "load more" runs the whole fetch again (the collection-group query and
    an owner lookup for every record that has an owner), sorts the fresh
    result and exposes its first (previous window + page size) records;
    otherwise it changes nothing and sends no read. *)
Theorem C4_load_more_refetches_then_slices db st :
  (isLoadingMore st = false → hasMore st = true →
   ∀ data, callsData db = Some data →
     handleLoadMore db st =
       ({| calls := take (length (calls st) + CALLS_PER_PAGE) (sortCalls data);
           isLoading := isLoading st;
           lastVisible := list.last (doc_id <$> call_history db);
           hasMore := bool_decide (length (calls st) + CALLS_PER_PAGE
                                   < length (sortCalls data));
           isLoadingMore := false |},
        GetDocsCallHistory :: ownerLookups (call_history db),
        lookupErrors db (call_history db))) ∧
  (isLoadingMore st = true ∨ hasMore st = false →
   handleLoadMore db st = (st, [], [])).
Proof.
  split.
  - intros Hlm Hmore data Hdata. unfold handleLoadMore.
    rewrite Hlm, Hmore. simpl. by rewrite (fetchCalls_ok _ _ _ _ Hdata).
  - intros [Hlm|Hmore]; unfold handleLoadMore.
    + by rewrite Hlm.
    + rewrite Hmore. by destruct (isLoadingMore st).
Qed.

(** C4 (amended) on the store of 21 records: the second load reads again
    and exposes all of them. *)
Lemma C4_load_more_refetches_then_slices_witness :
  let db := Samples.callDb 21 in
  let st := afterLoads db 0 in
  let data := default [] (callsData db) in
  callsData db = Some data ∧
  (handleLoadMore db st).1.2 =
    GetDocsCallHistory :: ownerLookups (call_history db) ∧
  calls (handleLoadMore db st).1.1 = take 40 (sortCalls data).
Proof.
  intros db st data.
  assert (Hdata : callsData db = Some data) by (vm_compute; reflexivity).
  pose proof (proj1 (C4_load_more_refetches_then_slices db st)
                eq_refl eq_refl data Hdata) as Hrun.
  split; [exact Hdata|]. rewrite Hrun. split; reflexivity.
Defined.

(** C5: for a result set [data] the store returns, of size [size] once
    sorted newest first, the first load exposes [min size P] records, each
    "load more" exposes [min size (previous + P)] records, and every window
    is a prefix of the next one and of the sorted result, pairwise in
    order, and free of duplicates when the result set is. *)
Theorem C5_pagination_windows db data n :
  callsData db = Some data →
  let sorted := sortCalls data in
  let size := length sorted in
  let exposed k := calls (afterLoads db k) in
  StronglySorted newerEq sorted ∧ sorted ≡ₚ data ∧
  length (exposed 0) = size `min` CALLS_PER_PAGE ∧
  length (exposed (S n)) = size `min` (length (exposed n) + CALLS_PER_PAGE) ∧
  exposed n `prefix_of` exposed (S n) ∧
  exposed n `prefix_of` sorted ∧
  StronglySorted newerEq (exposed n) ∧
  (NoDup data → NoDup (exposed n)).
Proof.
  intros Hdata sorted size exposed.
  assert (Hsorted : StronglySorted newerEq sorted) by apply sortCalls_sorted.
  assert (Hperm : sorted ≡ₚ data) by apply sortCalls_perm.
  destruct (afterLoads_window db data n Hdata) as (c & Hc & Hcalls & Hmore & Hlm).
  assert (Hn : exposed n = take c sorted) by done.
  assert (Hstep : exposed (S n) = take (length (exposed n) + CALLS_PER_PAGE) sorted
                  ∨ (size ≤ c ∧ exposed (S n) = exposed n)).
  { unfold exposed. simpl. unfold handleLoadMore. rewrite Hlm, Hmore. simpl.
    case_bool_decide as Hlt.
    - left. by rewrite (fetchCalls_ok _ _ _ _ Hdata).
    - right. split; [fold sorted in Hlt; unfold size; lia|done]. }
  split_and!; try done.
  - unfold exposed. simpl. rewrite (fetchCalls_ok _ _ _ _ Hdata). simpl.
    rewrite length_take. fold sorted size. lia.
  - destruct Hstep as [->|[Hge ->]].
    + rewrite length_take. fold size. lia.
    + rewrite Hn, take_ge by (fold size; lia). fold size. lia.
  - destruct Hstep as [->|[Hge ->]]; [|done].
    rewrite Hn, length_take. fold size.
    apply take_prefix_le. lia.
  - rewrite Hn. apply prefix_take.
  - rewrite Hn. by apply take_sorted.
  - intros Hnd. rewrite Hn.
    eapply sublist_NoDup; [|apply sublist_take]. by rewrite Hperm.
Qed.

(** C5 on a store of three records. *)
Lemma C5_pagination_windows_witness :
  let db := Samples.callDb 3 in
  let data := default [] (callsData db) in
  callsData db = Some data ∧
  length (calls (afterLoads db 0)) = 3 `min` CALLS_PER_PAGE ∧
  calls (afterLoads db 2) `prefix_of` sortCalls data.
Proof.
  intros db data.
  assert (Hdata : callsData db = Some data) by (vm_compute; reflexivity).
  split; [exact Hdata|].
  destruct (C5_pagination_windows db data 2 Hdata)
    as (_ & _ & Hfirst & _ & _ & Hprefix & _).
  split; [exact Hfirst|exact Hprefix].
Defined.

End call_history.

(** ** Preference save flows *)
Section save_flows.
Import Firestore Trace.

Ltac async :=
  unfold mret, Async_ret, mbind, Async_bind, throw, try_catch, finally,
    console_error, toast_error, toast_success, emit, setIsSaving.

Lemma logged_nil w : logged [] w = w.
Proof. destruct w. unfold logged. simpl. by rewrite app_nil_r. Qed.

Lemma logged_logged es1 es2 w :
  logged es2 (logged es1 w) = logged (es1 ++ es2) w.
Proof. unfold logged. simpl. by rewrite app_assoc. Qed.

Lemma fanOut_spec env voiceId docs k failed w :
  AIPreferences.fanOut env voiceId docs k failed w =
    (inr (failed ++ fanOutFailed env docs k)%list,
     logged (fanOutEvents env voiceId docs k) w).
Proof.
  revert k failed w. induction docs as [|[i d] docs IH]; intros k failed w.
  - simpl. async. by rewrite app_nil_r, logged_nil.
  - simpl. destruct (agentIds d) as [| |ids]; [apply IH..|].
    async. rewrite IH.
    by rewrite !logged_logged, <- !app_assoc.
Qed.

Lemma updateRetellAgents_spec env selectedVoice docs w :
  retell_error env = None →
  AIPreferences.updateRetellAgents env selectedVoice docs w =
    (inr (fanOutFailed env docs 0),
     logged (retellEvents env selectedVoice docs) w).
Proof.
  intros Hclient. unfold AIPreferences.updateRetellAgents, retellEvents.
  rewrite Hclient. async. rewrite fanOut_spec. simpl.
  case_bool_decide; simpl.
  - by rewrite logged_logged.
  - by rewrite app_nil_r.
Qed.

(** Every enumerated document is in the store the batch is applied to. *)
Lemma targets_present (us : list (string * UserDoc)) :
  forallb (λ t, bool_decide (t ∈ us.*1)) us.*1 = true.
Proof.
  apply forallb_forall. intros t Ht. apply bool_decide_eq_true.
  by apply list_elem_of_In.
Qed.

Lemma batch_all (change : nat → UserDoc → UserDoc) now
    (us : list (string * UserDoc)) :
  (λ '(i, d), if bool_decide (i ∈ us.*1) then (i, change now d) else (i, d))
    <$> us
  = (λ r, (r.1, change now r.2)) <$> us.
Proof.
  apply Forall_fmap_ext_1, Forall_forall. intros [i d] Hin. simpl.
  rewrite bool_decide_true; [done|].
  apply list_elem_of_fmap. exists (i, d). split; [done|].
  by apply list_elem_of_In.
Qed.

Lemma retell_step env selectedVoice docs w :
  try_catch
    (AIPreferences.updateRetellAgents env selectedVoice docs;; mret ())
    (λ error,
       console_error "Error updating Retell agents:";;
       toast_error (message error)) w
  = (inr (), logged (retellEvents env selectedVoice docs) w).
Proof.
  destruct (retell_error env) as [e|] eqn:Hclient.
  - unfold retellEvents, AIPreferences.updateRetellAgents. rewrite Hclient.
    async. by rewrite logged_logged.
  - unfold try_catch, mbind, Async_bind.
    by rewrite updateRetellAgents_spec.
Qed.

Ltac projections :=
  cbn [store history clock events isSaving admins users fst snd].

Ltac settle :=
  async; unfold settled, saveFailed, logged, written, adminWritten,
    batchWritten; projections; rewrite <- ?app_assoc, ?app_nil_r;
  reflexivity.

(** The AI handler follows its closed form on every path. *)
Lemma AI_save_run env uid v p w :
  AIPreferences.submitted v = Some p →
  run (AIPreferences.handleSaveChanges env (Some uid) v) w = aiOutcome env uid p w.
Proof.
  intros Hp. unfold run, AIPreferences.handleSaveChanges, aiOutcome. rewrite Hp.
  destruct w as [s h c es sv].
  unfold finally at 1. unfold try_catch at 1.
  unfold mbind at 1 2, Async_bind at 1 2. unfold setIsSaving at 1.
  unfold updateDoc. projections.
  destruct (updateDoc_error env) as [e|]; [settle|].
  destruct (admins s !! uid) as [d|] eqn:Hd; [|settle].
  unfold mbind at 1, Async_bind at 1. unfold getDocs. projections.
  destruct (getDocs_error env) as [e|]; [settle|].
  unfold mbind at 1, Async_bind at 1. rewrite retell_step.
  unfold mbind at 1, Async_bind at 1. unfold commit. projections.
  destruct (commit_error env) as [e|]; [settle|].
  unfold written at 1, logged at 1 2. projections.
  rewrite targets_present, batch_all. settle.
Qed.

Lemma Story_save_run env uid v w :
  run (StoryPreferences.handleSaveChanges env (Some uid) v) w =
  storyOutcome env uid (StoryPreferences.submitted v) w.
Proof.
  unfold run, StoryPreferences.handleSaveChanges, storyOutcome.
  destruct w as [s h c es sv].
  unfold finally at 1. unfold try_catch at 1.
  unfold mbind at 1 2, Async_bind at 1 2. unfold setIsSaving at 1.
  unfold updateDoc. projections.
  destruct (updateDoc_error env) as [e|]; [settle|].
  destruct (admins s !! uid) as [d|] eqn:Hd; [|settle].
  unfold mbind at 1, Async_bind at 1. unfold getDocs. projections.
  destruct (getDocs_error env) as [e|]; [settle|].
  unfold mbind at 1, Async_bind at 1. unfold commit. projections.
  destruct (commit_error env) as [e|]; [settle|].
  unfold written at 1, logged at 1. projections.
  rewrite targets_present, batch_all. settle.
Qed.

(** *** What the log of the fan-out contains *)

Lemma groupResults_ids env k ids :
  (AIPreferences.groupResults env k ids).*1 = ids.
Proof.
  unfold AIPreferences.groupResults. revert k.
  induction ids as [|a ids IH]; intros k; [done|].
  simpl. f_equal. unfold compose.
  rewrite <- (IH (S k)) at 2. f_equal. apply imap_ext. intros i x _. simpl.
  by rewrite Nat.add_succ_r.
Qed.

Lemma agentCalls_app es1 es2 :
  agentCalls (es1 ++ es2) = agentCalls es1 ++ agentCalls es2.
Proof. apply omap_app. Qed.

Lemma agentCalls_issued voiceId (results : list (string * bool)) :
  agentCalls ((λ c, AgentUpdate c.1 voiceId c.2) <$> results) = results.
Proof.
  unfold agentCalls. induction results as [|[a ok] rs IH]; [done|].
  simpl. f_equal. exact IH.
Qed.

Lemma agentCalls_console (f : string → string) ids :
  agentCalls ((λ a, Notify (ConsoleError (f a))) <$> ids) = [].
Proof. unfold agentCalls. by induction ids. Qed.

Lemma failedOf_app l1 l2 :
  AIPreferences.failedOf (l1 ++ l2) =
  AIPreferences.failedOf l1 ++ AIPreferences.failedOf l2.
Proof.
  unfold AIPreferences.failedOf.
  by rewrite list.filter_app, fmap_app.
Qed.

Lemma failedOf_perm l1 l2 :
  l1 ≡ₚ l2 → AIPreferences.failedOf l1 ≡ₚ AIPreferences.failedOf l2.
Proof. unfold AIPreferences.failedOf. by intros ->. Qed.

(** One call per owned id, in enumeration order. *)
Lemma fanOut_calls env voiceId docs k :
  (agentCalls (fanOutEvents env voiceId docs k)).*1 = allAgentIds docs.
Proof.
  revert k. induction docs as [|[i d] docs IH]; intros k; [done|].
  unfold allAgentIds in *. simpl. unfold ownedIds at 1. simpl.
  destruct (agentIds d) as [| |ids]; simpl; [apply IH..|].
  rewrite !agentCalls_app, agentCalls_issued, agentCalls_console.
  simpl. by rewrite fmap_app, groupResults_ids, IH.
Qed.

(** Each call carries the voice being saved. *)
Lemma fanOut_voices env voiceId docs k :
  Forall (λ v, v = voiceId) (agentVoices (fanOutEvents env voiceId docs k)).
Proof.
  revert k. induction docs as [|[i d] docs IH]; intros k; [constructor|].
  simpl. destruct (agentIds d) as [| |ids]; [apply IH..|].
  unfold agentVoices in *. rewrite !omap_app, !Forall_app. split_and!.
  - induction (AIPreferences.groupResults env k ids); simpl; by constructor.
  - induction (AIPreferences.failedOf _); simpl; [constructor|done].
  - apply IH.
Qed.

(** The failure list holds the ids of the calls that rejected, each as
    often as it was rejected. *)
Lemma fanOut_failed env voiceId docs k :
  settlesAll env →
  fanOutFailed env docs k ≡ₚ
  AIPreferences.failedOf (agentCalls (fanOutEvents env voiceId docs k)).
Proof.
  intros Hsettle. revert k.
  induction docs as [|[i d] docs IH]; intros k; [done|].
  simpl. destruct (agentIds d) as [| |ids]; [apply IH..|].
  rewrite !agentCalls_app, agentCalls_issued, agentCalls_console.
  simpl. rewrite failedOf_app, <- IH.
  by rewrite (failedOf_perm _ _ (Hsettle _)).
Qed.

Lemma fanOut_quiet env voiceId docs k :
  Forall quiet (fanOutEvents env voiceId docs k).
Proof.
  revert k. induction docs as [|[i d] docs IH]; intros k; [constructor|].
  simpl. destruct (agentIds d) as [| |ids]; [apply IH..|].
  rewrite !Forall_app. split_and!; [| |apply IH]; by apply Forall_fmap, Forall_true.
Qed.

Lemma retellEvents_quiet env selectedVoice docs :
  retell_error env = None → Forall quiet (retellEvents env selectedVoice docs).
Proof.
  intros Hclient. unfold retellEvents. rewrite Hclient.
  apply Forall_app. split; [apply fanOut_quiet|].
  case_bool_decide; by repeat constructor.
Qed.

Lemma retellEvents_calls env selectedVoice docs :
  (agentCalls (retellEvents env selectedVoice docs)).*1 =
  match retell_error env with
  | Some _ => []
  | None => allAgentIds docs
  end.
Proof.
  unfold retellEvents. destruct (retell_error env); [done|].
  rewrite agentCalls_app, fmap_app, fanOut_calls.
  case_bool_decide; simpl; by rewrite app_nil_r.
Qed.

(** Neither the fan-out nor its [catch] touches the store. *)
Lemma retellEvents_no_write env selectedVoice docs e :
  e ∈ retellEvents env selectedVoice docs →
  match e with
  | UpdateDoc _ _ | GetDocsUsers _ | BatchCommit _ _
  | Notify (ToastSuccess _) => False
  | _ => True
  end.
Proof.
  unfold retellEvents. destruct (retell_error env) as [err|].
  - intros Hin. apply list_elem_of_In in Hin. simpl in Hin.
    by destruct Hin as [<-|[<-|[]]].
  - intros Hin%list_elem_of_In. apply in_app_or in Hin as [Hin|Hin].
    + pose proof (fanOut_quiet env (voice_id selectedVoice) docs 0) as Hq.
      rewrite List.Forall_forall in Hq. apply Hq in Hin.
      by destruct e as [| | | |[]].
    + case_bool_decide; simpl in Hin; [|done]. by destruct Hin as [<-|[]].
Qed.

Lemma newEvents_settled s stores ticks es w :
  newEvents w (settled s stores ticks es w) = es.
Proof. unfold newEvents, settled. simpl. apply drop_app_length. Qed.

Lemma newStores_settled s stores ticks es w :
  newStores w (settled s stores ticks es w) = stores.
Proof. unfold newStores, settled. simpl. apply drop_app_length. Qed.

(** *** The log of a save that got past its first two steps *)

(** Closes [e ∉ [e1; ...; en]] when [e] differs from each by its
    constructor. *)
Ltac other_events :=
  unfold saveFailed; simpl;
  lazymatch goal with
  | |- ?x ∈ ?l → False => change (x ∉ l)
  | _ => idtac
  end;
  rewrite ?not_elem_of_cons, ?elem_of_nil;
  split_and!; first [discriminate | tauto].

Lemma AI_save_events env uid v p d w :
  AIPreferences.submitted v = Some p →
  updateDoc_error env = None →
  admins (store w) !! uid = Some d →
  getDocs_error env = None →
  newEvents w (run (AIPreferences.handleSaveChanges env (Some uid) v) w) =
    [UpdateDoc uid true; GetDocsUsers true] ++
    retellEvents env (voice p) (users (store w)) ++
    aiTail env (users (store w)).*1.
Proof.
  intros Hp Hwrite Hd Hdocs. rewrite (AI_save_run _ _ _ _ _ Hp).
  unfold aiOutcome, aiTail. rewrite Hwrite, Hd, Hdocs.
  destruct (commit_error env); rewrite newEvents_settled;
    by rewrite <- app_assoc.
Qed.

Lemma aiTail_no_calls env ids :
  agentCalls (aiTail env ids) = [] ∧ agentVoices (aiTail env ids) = [].
Proof. unfold aiTail. by destruct (commit_error env). Qed.

Lemma AI_save_calls env uid v p d w :
  AIPreferences.submitted v = Some p →
  updateDoc_error env = None →
  admins (store w) !! uid = Some d →
  getDocs_error env = None →
  agentCalls
    (newEvents w (run (AIPreferences.handleSaveChanges env (Some uid) v) w)) =
  agentCalls (retellEvents env (voice p) (users (store w))).
Proof.
  intros Hp Hwrite Hd Hdocs.
  rewrite (AI_save_events _ _ _ _ _ _ Hp Hwrite Hd Hdocs).
  rewrite !agentCalls_app, (proj1 (aiTail_no_calls _ _)).
  simpl. by rewrite app_nil_r.
Qed.

(** *** The claims about the save flows *)

(** Each call is logged with the answer the provider gives to it: the
    [k]-th call issued, counted over all records. *)
Lemma fanOut_answers env voiceId docs k :
  agentCalls (fanOutEvents env voiceId docs k) =
  imap (λ i a, (a, agent_update_ok env (k + i) a)) (allAgentIds docs).
Proof.
  revert k. induction docs as [|[i d] docs IH]; intros k; [done|].
  unfold allAgentIds in *. simpl. unfold ownedIds at 1. simpl.
  destruct (agentIds d) as [| |ids]; simpl; [apply IH..|].
  rewrite !agentCalls_app, agentCalls_issued, agentCalls_console.
  simpl. rewrite imap_app, IH. f_equal.
  apply imap_ext. intros n a _. simpl. by rewrite Nat.add_assoc.
Qed.

Lemma retellEvents_answers env selectedVoice docs :
  retell_error env = None →
  agentCalls (retellEvents env selectedVoice docs) =
  imap (λ k a, (a, agent_update_ok env k a)) (allAgentIds docs).
Proof.
  intros Hclient. unfold retellEvents. rewrite Hclient.
  rewrite agentCalls_app, fanOut_answers.
  replace (agentCalls (if bool_decide _ then _ else _)) with
    (@nil (string * bool)) by by case_bool_decide.
  by rewrite app_nil_r.
Qed.

(** The ids with a rejected call, read off the provider's answers. *)
Lemma rejected_ids (ok : nat → string → bool) ids a :
  a ∈ (filter (λ c, c.2 = false) (imap (λ k a, (a, ok k a)) ids)).*1 ↔
  ∃ k, ids !! k = Some a ∧ ok k a = false.
Proof.
  rewrite list_elem_of_fmap. split.
  - intros ([a' b] & -> & Hin). apply list_elem_of_filter in Hin as [Hb Hin].
    apply elem_of_lookup_imap in Hin as (k & y & [= -> ->] & Hk).
    by exists k.
  - intros (k & Hk & Hb). exists (a, ok k a). split; [done|].
    apply list_elem_of_filter. split; [done|].
    apply (elem_of_lookup_imap_2 (λ k a, (a, ok k a)) _ _ _ Hk).
Qed.

(** C1: when the own-record write and the enumeration went through and the
    provider client exists, then whichever agent updates the provider
    rejects: one call is issued per owned resource id of every enumerated
    record, each carrying the saved voice and each logged with the
    provider's own answer to it, so that a rejection stops no other call;
    the failure list holds exactly the ids whose call the provider
    rejected, each as often as it was rejected, and is named in the
    console summary; the batch over all enumerated records is attempted,
    and, the batch being accepted, the operator gets the success notice
    and no error notice, and every enumerated record holds the submitted
    voice, follow-up intensity and conversation style. *)
Theorem C1_remote_failures_do_not_block env uid v p d w :
  AIPreferences.submitted v = Some p →
  updateDoc_error env = None →
  admins (store w) !! uid = Some d →
  getDocs_error env = None →
  retell_error env = None →
  settlesAll env →
  let snapshot := users (store w) in
  let w' := run (AIPreferences.handleSaveChanges env (Some uid) v) w in
  let new := newEvents w w' in
  let answers :=
    imap (λ k a, (a, agent_update_ok env k a)) (allAgentIds snapshot) in
  agentCalls new = answers ∧
  (agentCalls new).*1 = allAgentIds snapshot ∧
  Forall (λ vid, vid = voice_id (voice p)) (agentVoices new) ∧
  (∃ failedUpdates,
     (∀ w0, (AIPreferences.updateRetellAgents env (voice p) snapshot w0).1
            = inr failedUpdates) ∧
     failedUpdates ≡ₚ (filter (λ c, c.2 = false) answers).*1 ∧
     (∀ a, a ∈ failedUpdates ↔
           ∃ k, allAgentIds snapshot !! k = Some a ∧
                agent_update_ok env k a = false) ∧
     failedUpdates ≡ₚ AIPreferences.failedOf (agentCalls new) ∧
     (failedUpdates ≠ [] →
      Notify (ConsoleError ("Failed to update some agents: "
                            ++ String.concat ", " failedUpdates)) ∈ new)) ∧
  (∃ ok, BatchCommit snapshot.*1 ok ∈ new) ∧
  (commit_error env = None →
     BatchCommit snapshot.*1 true ∈ new ∧
     list.last new =
       Some (Notify (ToastSuccess "Updated AI preferences successfully")) ∧
     (∀ msg, Notify (ToastError msg) ∉ new) ∧
     users (store w') =
       (λ r, (r.1, AIPreferences.userUpdate p (S (clock w)) r.2)) <$> snapshot ∧
     (users (store w')).*1 = snapshot.*1 ∧
     Forall (λ r, u_voice r.2 = Some (voice p) ∧
                  u_followUpIntensity r.2 = Some (followUpIntensity p) ∧
                  u_conversationStyle r.2 = Some (conversationStyle p))
       (users (store w'))).
Proof.
  intros Hp Hwrite Hd Hdocs Hclient Hsettle snapshot w' new answers.
  pose proof (AI_save_events _ _ _ _ _ _ Hp Hwrite Hd Hdocs) as Hnew.
  pose proof (AI_save_calls _ _ _ _ _ _ Hp Hwrite Hd Hdocs) as Hcalls.
  fold w' new snapshot in Hnew, Hcalls.
  pose proof (retellEvents_quiet env (voice p) snapshot Hclient) as Hquiet.
  assert (Hanswers : agentCalls new = answers)
    by (by rewrite Hcalls, retellEvents_answers).
  assert (Hfailed : fanOutFailed env snapshot 0 ≡ₚ
                    (filter (λ c, c.2 = false) answers).*1).
  { rewrite (fanOut_failed env (voice_id (voice p)) snapshot 0 Hsettle).
    unfold AIPreferences.failedOf. by rewrite fanOut_answers. }
  assert (Husers : commit_error env = None →
            users (store w') =
            (λ r, (r.1, AIPreferences.userUpdate p (S (clock w)) r.2))
              <$> snapshot).
  { intros Hcommit. unfold w'. rewrite (AI_save_run _ _ _ _ _ Hp).
    unfold aiOutcome. by rewrite Hwrite, Hd, Hdocs, Hcommit. }
  split_and!.
  - exact Hanswers.
  - rewrite Hcalls, retellEvents_calls. by rewrite Hclient.
  - rewrite Hnew. unfold agentVoices. rewrite !omap_app.
    fold (agentVoices (aiTail env snapshot.*1)).
    rewrite (proj2 (aiTail_no_calls _ _)), app_nil_r. simpl.
    unfold retellEvents. rewrite Hclient, omap_app, Forall_app.
    split; [apply fanOut_voices|]. case_bool_decide; constructor.
  - exists (fanOutFailed env snapshot 0). split_and!.
    + intros w0. by rewrite updateRetellAgents_spec.
    + exact Hfailed.
    + intros a. rewrite Hfailed. apply rejected_ids.
    + rewrite Hanswers, Hfailed. done.
    + intros Hsome. rewrite Hnew, !elem_of_app. right. left.
      unfold retellEvents. rewrite Hclient, elem_of_app. right.
      rewrite bool_decide_true; [apply list_elem_of_here|].
      destruct (fanOutFailed env snapshot 0); [done|simpl; lia].
  - rewrite Hnew. unfold aiTail.
    destruct (commit_error env); eexists;
      rewrite !elem_of_app; right; right; apply elem_of_cons; by left.
  - intros Hcommit. rewrite Hnew. unfold aiTail. rewrite Hcommit. split_and!.
    + rewrite !elem_of_app. right. right. apply elem_of_cons. by left.
    + by rewrite !list.last_app.
    + intros msg. rewrite !not_elem_of_app. split_and!.
      * other_events.
      * intros Hin. rewrite list.Forall_forall in Hquiet.
        by apply Hquiet in Hin.
      * other_events.
    + by apply Husers.
    + rewrite (Husers Hcommit), <- list_fmap_compose.
      by apply list_fmap_ext.
    + rewrite (Husers Hcommit). apply Forall_fmap, Forall_true.
      by intros [i r].
Qed.

(** C1 on three users, with every update of agent [a2] rejected: both
    calls are issued, the failure list is [a2], the console names it, and
    the save ends on the success notice. *)
Lemma C1_remote_failures_do_not_block_witness :
  let w := fresh Samples.store3 in
  let new :=
    newEvents w
      (run (AIPreferences.handleSaveChanges Samples.envAgentDown
              (Some "admin1") Samples.view) w) in
  settlesAll Samples.envAgentDown ∧
  agentCalls new = [("a1", true); ("a2", false)] ∧
  (∃ failedUpdates,
     (AIPreferences.updateRetellAgents Samples.envAgentDown
        AIPreferences.DEFAULT_VOICE (users Samples.store3) w).1
       = inr failedUpdates ∧
     failedUpdates = ["a2"] ∧
     Notify (ConsoleError "Failed to update some agents: a2") ∈ new) ∧
  (∃ ok, BatchCommit ["u1"; "u2"; "u3"] ok ∈ new) ∧
  list.last new =
    Some (Notify (ToastSuccess "Updated AI preferences successfully")).
Proof.
  intros w new.
  assert (Hsettle : settlesAll Samples.envAgentDown)
    by (intros l; apply reverse_Permutation).
  destruct (C1_remote_failures_do_not_block Samples.envAgentDown "admin1"
              Samples.view Samples.prefs Samples.adminDoc w
              eq_refl eq_refl eq_refl eq_refl eq_refl Hsettle)
    as (Hanswers & _ & _ & (failed & Hrun & Hperm & _ & _ & Hline) & Hbatch
        & Hok).
  destruct (Hok eq_refl) as (_ & Hlast & _).
  apply Permutation_singleton_r in Hperm.
  split; [exact Hsettle|]. split; [exact Hanswers|].
  split; [|split; [exact Hbatch|exact Hlast]].
  exists failed. split; [exact (Hrun w)|]. split; [exact Hperm|].
  rewrite Hperm in Hline. apply Hline. discriminate.
Defined.

(** *** Ordering of the two writes *)

Lemma head_precedes {A} (x y : A) rest pre post :
  x :: rest = pre ++ y :: post → x ≠ y → x ∈ pre.
Proof.
  destruct pre as [|z pre]; simpl; intros [= -> _] Hne; [done|].
  apply elem_of_cons. by left.
Qed.

Lemma no_batch_in_retell env selectedVoice docs targets ok :
  BatchCommit targets ok ∉ retellEvents env selectedVoice docs.
Proof. intros Hin. by apply retellEvents_no_write in Hin. Qed.

Lemma adminWritten_ai uid p d w :
  admins (adminWritten uid (AIPreferences.adminUpdate p) d w) !! uid
    ≫= aiPreferences = Some p.
Proof. unfold adminWritten. simpl. by rewrite lookup_insert_eq. Qed.

Lemma adminWritten_story uid p d w :
  admins (adminWritten uid (StoryPreferences.adminUpdate p) d w) !! uid
    ≫= storyPreferences = Some p.
Proof. unfold adminWritten. simpl. by rewrite lookup_insert_eq. Qed.

(** A run whose log starts with the successful own-record write, whose
    store states all have the own record saved, and whose users change
    only if no batch failed, has its writes in order. *)
Lemma ownRecordFirst_intro uid (saved : Store → Prop) w w' rest :
  newEvents w w' = UpdateDoc uid true :: rest →
  Forall saved (newStores w w') →
  saved (store w') →
  ((∃ targets, BatchCommit targets false ∈ rest) →
   users (store w') = users (store w)) →
  ownRecordFirst uid saved w w'.
Proof.
  intros Hnew Hstores Hsaved Husers. split_and!.
  - intros pre targets ok post Heq. rewrite Hnew in Heq.
    by apply head_precedes in Heq.
  - intros targets Hin. rewrite Hnew in Hin.
    apply elem_of_cons in Hin as [?|Hin]; [done|]. split; [done|].
    apply Husers. by exists targets.
  - intros s Hin. rewrite list.Forall_forall in Hstores. by apply Hstores.
Qed.

(** A run that logged no batch commit and wrote nothing has nothing out of
    order. *)
Lemma ownRecordFirst_nothing uid (saved : Store → Prop) w w' :
  (∀ targets ok, BatchCommit targets ok ∉ newEvents w w') →
  newStores w w' = [] →
  ownRecordFirst uid saved w w'.
Proof.
  intros Hnone Hstores. split_and!.
  - intros pre targets ok post Heq. destruct (Hnone targets ok).
    rewrite Heq, elem_of_app, elem_of_cons. right. by left.
  - intros targets Hin. by destruct (Hnone targets false).
  - intros s. rewrite Hstores. by intros ?%elem_of_nil.
Qed.

Lemma AI_ownRecordFirst env uid p w :
  ownRecordFirst uid (λ s, admins s !! uid ≫= aiPreferences = Some p)
    w (aiOutcome env uid p w).
Proof.
  unfold aiOutcome.
  destruct (updateDoc_error env) as [e|].
  { apply ownRecordFirst_nothing; [|by rewrite newStores_settled].
    intros targets ok. rewrite newEvents_settled. other_events. }
  destruct (admins (store w) !! uid) as [d|].
  2:{ apply ownRecordFirst_nothing; [|by rewrite newStores_settled].
      intros targets ok. rewrite newEvents_settled. other_events. }
  pose proof (adminWritten_ai uid p d w) as Hsaved.
  destruct (getDocs_error env) as [e|].
  { eapply ownRecordFirst_intro.
    - by rewrite newEvents_settled.
    - rewrite newStores_settled. by repeat constructor.
    - done.
    - done. }
  destruct (commit_error env) as [e|].
  - eapply ownRecordFirst_intro.
    + by rewrite newEvents_settled.
    + rewrite newStores_settled. by repeat constructor.
    + done.
    + done.
  - apply (ownRecordFirst_intro _ _ _ _
             ([GetDocsUsers true] ++
              retellEvents env (voice p) (users (store w)) ++
              [BatchCommit (users (store w)).*1 true;
               Notify (ToastSuccess "Updated AI preferences successfully")])).
    + by rewrite newEvents_settled, <- app_assoc.
    + rewrite newStores_settled. by repeat constructor.
    + done.
    + intros [targets Hin]. exfalso.
      rewrite !elem_of_app in Hin. destruct Hin as [Hin|[Hin|Hin]]; revert Hin.
      * other_events.
      * apply no_batch_in_retell.
      * other_events.
Qed.

Lemma Story_ownRecordFirst env uid p w :
  ownRecordFirst uid (λ s, admins s !! uid ≫= storyPreferences = Some p)
    w (storyOutcome env uid p w).
Proof.
  unfold storyOutcome.
  destruct (updateDoc_error env) as [e|].
  { apply ownRecordFirst_nothing; [|by rewrite newStores_settled].
    intros targets ok. rewrite newEvents_settled. other_events. }
  destruct (admins (store w) !! uid) as [d|].
  2:{ apply ownRecordFirst_nothing; [|by rewrite newStores_settled].
      intros targets ok. rewrite newEvents_settled. other_events. }
  pose proof (adminWritten_story uid p d w) as Hsaved.
  destruct (getDocs_error env) as [e|]; [|destruct (commit_error env) as [e|]].
  all: eapply ownRecordFirst_intro;
    [by rewrite newEvents_settled
    |rewrite newStores_settled; by repeat constructor
    |done
    |try done].
  intros [targets Hin]. exfalso. revert Hin. other_events.
Qed.

(** C2: in every run of either save flow the own-record write precedes the
    batch write in the log; whenever the batch write fails the
    administrator's record already holds the submitted value (and no user
    record changed); and no state the run puts the store in, in particular
    none with the batch committed, lacks the new value on the
    administrator's record. *)
Theorem C2_own_record_before_batch env uid v p sv w :
  AIPreferences.submitted v = Some p →
  ownRecordFirst uid (λ s, admins s !! uid ≫= aiPreferences = Some p)
    w (run (AIPreferences.handleSaveChanges env (Some uid) v) w) ∧
  ownRecordFirst uid
    (λ s, admins s !! uid ≫= storyPreferences
          = Some (StoryPreferences.submitted sv))
    w (run (StoryPreferences.handleSaveChanges env (Some uid) sv) w).
Proof.
  intros Hp. split.
  - rewrite (AI_save_run _ _ _ _ _ Hp). apply AI_ownRecordFirst.
  - rewrite Story_save_run. apply Story_ownRecordFirst.
Qed.

(** C2 on a run whose batch is rejected. *)
Lemma C2_own_record_before_batch_witness :
  let w := fresh Samples.store3 in
  let w' := run (AIPreferences.handleSaveChanges Samples.envBatchDown
                   (Some "admin1") Samples.view) w in
  AIPreferences.submitted Samples.view = Some Samples.prefs ∧
  BatchCommit ["u1"; "u2"; "u3"] false ∈ newEvents w w' ∧
  admins (store w') !! "admin1" ≫= aiPreferences = Some Samples.prefs ∧
  users (store w') = users Samples.store3.
Proof.
  intros w w'.
  destruct (C2_own_record_before_batch Samples.envBatchDown "admin1"
              Samples.view Samples.prefs StoryPreferences.initial w eq_refl)
    as [(_ & Hfailed & _) _].
  assert (Hin : BatchCommit ["u1"; "u2"; "u3"] false ∈ newEvents w w').
  { vm_compute. do 4 apply list_elem_of_further. apply list_elem_of_here. }
  split; [reflexivity|]. split; [exact Hin|]. exact (Hfailed _ Hin).
Defined.

(** C3: when the own-record write is rejected (by the store, or because the
    record does not exist) either flow logs the failed write and the
    save-failure notice and nothing else: no enumeration, no provider call,
    no batch; the store is left as it was. *)
Theorem C3_own_record_failure_aborts env uid v p sv w :
  AIPreferences.submitted v = Some p →
  is_Some (updateDoc_error env) ∨ admins (store w) !! uid = None →
  let ai := run (AIPreferences.handleSaveChanges env (Some uid) v) w in
  let story := run (StoryPreferences.handleSaveChanges env (Some uid) sv) w in
  newEvents w ai =
    [UpdateDoc uid false;
     Notify (ConsoleError "Error updating AI preferences:");
     Notify (ToastError "Failed to update some preferences. Please try again.")] ∧
  store ai = store w ∧ newStores w ai = [] ∧ isSaving ai = false ∧
  newEvents w story =
    [UpdateDoc uid false;
     Notify (ConsoleError "Error updating story preferences:");
     Notify (ToastError "Failed to update story preferences")] ∧
  store story = store w ∧ newStores w story = [] ∧ isSaving story = false.
Proof.
  intros Hp Hfail ai story. unfold ai, story.
  rewrite (AI_save_run _ _ _ _ _ Hp), Story_save_run.
  unfold aiOutcome, storyOutcome.
  destruct Hfail as [[e ->]| ->].
  - by rewrite !newEvents_settled, !newStores_settled.
  - destruct (updateDoc_error env);
      by rewrite !newEvents_settled, !newStores_settled.
Qed.

(** C3 with the store rejecting the write. *)
Lemma C3_own_record_failure_aborts_witness :
  let w := fresh Samples.store3 in
  let ai := run (AIPreferences.handleSaveChanges Samples.envWriteDown
                   (Some "admin1") Samples.view) w in
  is_Some (updateDoc_error Samples.envWriteDown) ∧
  newEvents w ai =
    [UpdateDoc "admin1" false;
     Notify (ConsoleError "Error updating AI preferences:");
     Notify (ToastError "Failed to update some preferences. Please try again.")] ∧
  store ai = Samples.store3.
Proof.
  intros w ai.
  assert (Hdown : is_Some (updateDoc_error Samples.envWriteDown))
    by (by exists Samples.offline).
  destruct (C3_own_record_failure_aborts Samples.envWriteDown "admin1"
              Samples.view Samples.prefs StoryPreferences.initial w
              eq_refl (or_introl Hdown))
    as (Hlog & Hstore & _).
  split; [exact Hdown|]. split; [exact Hlog|exact Hstore].
Defined.

(** C6: a record whose resource-id list is absent or empty is passed over
    by the fan-out loop (the loop does with it in front exactly what it
    does without it), so the calls of a save are those of the other
    records; the record is still a target of the batch, and is updated
    when the batch is accepted. *)
Theorem C6_no_ids_no_calls_still_in_batch env uid v p d0 w i d before after :
  AIPreferences.submitted v = Some p →
  updateDoc_error env = None →
  admins (store w) !! uid = Some d0 →
  getDocs_error env = None →
  settlesAll env →
  users (store w) = before ++ (i, d) :: after →
  agentIds d = Absent ∨ agentIds d = IdArray [] →
  let w' := run (AIPreferences.handleSaveChanges env (Some uid) v) w in
  let new := newEvents w w' in
  (∀ voiceId rest k failed w0,
     AIPreferences.fanOut env voiceId ((i, d) :: rest) k failed w0 =
     AIPreferences.fanOut env voiceId rest k failed w0) ∧
  (agentCalls new).*1 =
    match retell_error env with
    | Some _ => []
    | None => allAgentIds (before ++ after)
    end ∧
  (∃ targets ok, BatchCommit targets ok ∈ new ∧ i ∈ targets) ∧
  (commit_error env = None →
   (i, AIPreferences.userUpdate p (S (clock w)) d) ∈ users (store w')).
Proof.
  intros Hp Hwrite Hd0 Hdocs Hsettle Husers Hids w' new.
  assert (Hnone : ∀ k, AIPreferences.failedOf
            (completion env (AIPreferences.groupResults env k [])) = []).
  { intros k. pose proof (Hsettle (AIPreferences.groupResults env k [])) as Hp'.
    simpl in Hp'. by apply Permutation_nil_r in Hp' as ->. }
  assert (Howned : ownedIds d = []).
  { unfold ownedIds. by destruct Hids as [->| ->]. }
  split_and!.
  - intros voiceId rest k failed w0. simpl.
    destruct Hids as [->| ->]; [done|].
    async. rewrite Hnone. simpl. rewrite Nat.add_0_r, app_nil_r.
    destruct (AIPreferences.fanOut env voiceId rest k failed w0) as [r w1] eqn:Hrest.
    rewrite !logged_nil. by rewrite Hrest.
  - unfold new, w'. rewrite (AI_save_calls _ _ _ _ _ _ Hp Hwrite Hd0 Hdocs).
    rewrite retellEvents_calls, Husers. destruct (retell_error env); [done|].
    unfold allAgentIds. rewrite !bind_app. simpl. by rewrite Howned.
  - unfold new, w'. rewrite (AI_save_events _ _ _ _ _ _ Hp Hwrite Hd0 Hdocs).
    exists (users (store w)).*1.
    exists (match commit_error env with Some _ => false | None => true end).
    split.
    + rewrite !elem_of_app. right. right. unfold aiTail.
      destruct (commit_error env); apply list_elem_of_here.
    + rewrite Husers, fmap_app, elem_of_app. right. apply list_elem_of_here.
  - intros Hcommit. unfold w'. rewrite (AI_save_run _ _ _ _ _ Hp).
    unfold aiOutcome. rewrite Hwrite, Hd0, Hdocs, Hcommit. simpl.
    rewrite Husers, fmap_app, elem_of_app. right. apply list_elem_of_here.
Qed.

(** C6 on the user without the field, between two others. *)
Lemma C6_no_ids_no_calls_still_in_batch_witness :
  let w := fresh Samples.store3 in
  let w' := run (AIPreferences.handleSaveChanges Samples.envAgentDown
                   (Some "admin1") Samples.view) w in
  settlesAll Samples.envAgentDown ∧
  (agentCalls (newEvents w w')).*1 = ["a1"; "a2"] ∧
  (∃ targets ok, BatchCommit targets ok ∈ newEvents w w' ∧ "u2" ∈ targets).
Proof.
  intros w w'.
  assert (Hsettle : settlesAll Samples.envAgentDown)
    by (intros l; apply reverse_Permutation).
  destruct (C6_no_ids_no_calls_still_in_batch Samples.envAgentDown "admin1"
              Samples.view Samples.prefs Samples.adminDoc w
              "u2" (Samples.userDoc Absent)
              [("u1", Samples.userDoc (IdArray ["a1"; "a2"]))]
              [("u3", Samples.userDoc (IdArray []))]
              eq_refl eq_refl eq_refl eq_refl Hsettle eq_refl
              (or_introl eq_refl))
    as (_ & Hcalls & Hbatch & _).
  split; [exact Hsettle|]. split; [exact Hcalls|exact Hbatch].
Defined.

(** C7: once the own-record write of a save went through, whatever happens
    to the rest of the flow, the administrator's record holds the submitted
    preference block, and a fetch whose reads are answered loads exactly
    the submitted voice, conversation style and follow-up intensity. *)
Theorem C7_save_then_fetch_round_trip env fe uid v p d w v0 vs :
  AIPreferences.submitted v = Some p →
  updateDoc_error env = None →
  admins (store w) !! uid = Some d →
  AIPreferences.client_error fe = None →
  AIPreferences.getDoc_error fe = None →
  AIPreferences.voice_list fe = inr vs →
  let w' := run (AIPreferences.handleSaveChanges env (Some uid) v) w in
  let v' := (AIPreferences.fetchData fe (store w') (Some uid) v0).1 in
  admins (store w') !! uid ≫= aiPreferences = Some p ∧
  AIPreferences.selectedVoice v' = Some (voice p) ∧
  AIPreferences.conversationStyle v' = Some (conversationStyle p) ∧
  AIPreferences.followUpIntensity v' = Some (followUpIntensity p) ∧
  AIPreferences.submitted v' = Some p.
Proof.
  intros Hp Hwrite Hd Hclient Hget Hlist w' v'.
  assert (Hsaved : admins (store w') !! uid ≫= aiPreferences = Some p).
  { unfold w'. rewrite (AI_save_run _ _ _ _ _ Hp). unfold aiOutcome.
    rewrite Hwrite, Hd.
    destruct (getDocs_error env); [|destruct (commit_error env)];
      apply adminWritten_ai. }
  split; [done|].
  unfold v', AIPreferences.fetchData. rewrite Hclient, Hget, Hlist.
  destruct (admins (store w') !! uid) as [adminData|]; [|done].
  simpl in Hsaved. rewrite Hsaved. simpl. by destruct p.
Qed.

(** C7 on a save whose batch is rejected afterwards. *)
Lemma C7_save_then_fetch_round_trip_witness :
  let w' := run (AIPreferences.handleSaveChanges Samples.envBatchDown
                   (Some "admin1") Samples.view) (fresh Samples.store3) in
  AIPreferences.submitted
    (AIPreferences.fetchData Samples.fetchEnv (store w') (Some "admin1")
       AIPreferences.initial).1
  = Some Samples.prefs.
Proof.
  intros w'.
  exact (proj2 (proj2 (proj2 (proj2
    (C7_save_then_fetch_round_trip Samples.envBatchDown Samples.fetchEnv
       "admin1" Samples.view Samples.prefs Samples.adminDoc
       (fresh Samples.store3) AIPreferences.initial
       [AIPreferences.DEFAULT_VOICE]
       eq_refl eq_refl eq_refl eq_refl eq_refl eq_refl))))).
Defined.

(** The same round trip on the story screen. *)
Lemma Story_save_then_fetch env uid sv d w v0 :
  updateDoc_error env = None →
  admins (store w) !! uid = Some d →
  let w' := run (StoryPreferences.handleSaveChanges env (Some uid) sv) w in
  let v' := (StoryPreferences.fetchPreferences None (store w') (Some uid) v0).1 in
  StoryPreferences.submitted v' = StoryPreferences.submitted sv.
Proof.
  intros Hwrite Hd w' v'.
  assert (Hsaved : admins (store w') !! uid ≫= storyPreferences
                   = Some (StoryPreferences.submitted sv)).
  { unfold w'. rewrite Story_save_run. unfold storyOutcome.
    rewrite Hwrite, Hd.
    destruct (getDocs_error env); [|destruct (commit_error env)];
      apply adminWritten_story. }
  unfold v', StoryPreferences.fetchPreferences.
  destruct (admins (store w') !! uid) as [adminData|]; [|done].
  simpl in Hsaved. rewrite Hsaved. simpl.
  unfold StoryPreferences.submitted. simpl. by destruct sv.
Qed.

(** C8: with no user record at all, and the store answering, either flow
    ends on its success notice, having issued no provider call and
    committed an empty batch; the only other notice possible is the one
    for a provider client that cannot be built.  Afterwards the
    administrator's own record holds the submitted value: the AI flow
    leaves the submitted block in [aiPreferences], the story flow the
    three submitted selections in [storyPreferences], each stamped with
    the server time and with every other field of the record as it was. *)
Theorem C8_no_users_still_succeeds env uid v p sv d w :
  AIPreferences.submitted v = Some p →
  updateDoc_error env = None →
  admins (store w) !! uid = Some d →
  getDocs_error env = None →
  commit_error env = None →
  users (store w) = [] →
  let ai := run (AIPreferences.handleSaveChanges env (Some uid) v) w in
  let story := run (StoryPreferences.handleSaveChanges env (Some uid) sv) w in
  newEvents w ai =
    [UpdateDoc uid true; GetDocsUsers true] ++
    match retell_error env with
    | Some e => [Notify (ConsoleError "Error updating Retell agents:");
                 Notify (ToastError (message e))]
    | None => []
    end ++
    [BatchCommit [] true;
     Notify (ToastSuccess "Updated AI preferences successfully")] ∧
  admins (store ai) !! uid ≫= aiPreferences = Some p ∧
  (∃ d', admins (store ai) !! uid = Some d' ∧
         aiPreferences d' = Some p ∧
         updatedAt d' = clock w ∧
         name d' = name d ∧ email d' = email d ∧
         createdAt d' = createdAt d ∧
         storyPreferences d' = storyPreferences d) ∧
  admins (store ai) !! uid = Some (AIPreferences.adminUpdate p (clock w) d) ∧
  users (store ai) = [] ∧
  isSaving ai = false ∧
  newEvents w story =
    [UpdateDoc uid true; GetDocsUsers true; BatchCommit [] true;
     Notify (ToastSuccess
               "Updated story preferences for all users successfully")] ∧
  (∃ d', admins (store story) !! uid = Some d' ∧
         storyPreferences d' =
           Some {| narrativeStyle := StoryPreferences.narrativeStyle sv;
                   lengthPreference := StoryPreferences.lengthPreference sv;
                   detailRichness := StoryPreferences.detailRichness sv |} ∧
         updatedAt d' = clock w ∧
         name d' = name d ∧ email d' = email d ∧
         createdAt d' = createdAt d ∧
         aiPreferences d' = aiPreferences d) ∧
  admins (store story) !! uid =
    Some (StoryPreferences.adminUpdate (StoryPreferences.submitted sv)
            (clock w) d) ∧
  users (store story) = [] ∧
  isSaving story = false.
Proof.
  intros Hp Hwrite Hd Hdocs Hcommit Husers ai story. unfold ai, story.
  rewrite (AI_save_run _ _ _ _ _ Hp), Story_save_run.
  unfold aiOutcome, storyOutcome.
  rewrite Hwrite, Hd, Hdocs, Hcommit, !newEvents_settled, Husers.
  unfold retellEvents, adminWritten, batchWritten. simpl.
  rewrite Husers, !lookup_insert_eq.
  split_and!; try done.
  - eexists. by split_and!.
  - eexists. by split_and!.
Qed.

(** C8 on the store without users: the record of [admin1], which held no
    preference block, holds the submitted one afterwards. *)
Lemma C8_no_users_still_succeeds_witness :
  let w := fresh Samples.store0 in
  let ai := run (AIPreferences.handleSaveChanges Samples.envAgentDown
                   (Some "admin1") Samples.view) w in
  admins (store w) !! "admin1" ≫= aiPreferences = None ∧
  newEvents w ai =
    [UpdateDoc "admin1" true; GetDocsUsers true; BatchCommit [] true;
     Notify (ToastSuccess "Updated AI preferences successfully")] ∧
  admins (store ai) !! "admin1" ≫= aiPreferences = Some Samples.prefs.
Proof.
  intros w ai.
  destruct (C8_no_users_still_succeeds Samples.envAgentDown "admin1"
              Samples.view Samples.prefs StoryPreferences.initial
              Samples.adminDoc w eq_refl eq_refl eq_refl eq_refl eq_refl
              eq_refl)
    as (Hlog & Hadmin & _).
  split; [reflexivity|]. split; [exact Hlog|exact Hadmin].
Defined.

End save_flows.

(** ** Sign-in form *)
Section auth_form.
Import AuthForm.

Lemma tableText_elem table key text :
  tableText table key = Some text → (key, text) ∈ table.
Proof.
  induction table as [|[k t] table IH]; simpl; [done|].
  case_bool_decide as Hk.
  - intros [= ->]. subst. apply list_elem_of_here.
  - intros Hrest. apply list_elem_of_further. by apply IH.
Qed.

(** Every text of the table is non-empty. *)
Lemma errorMessages_truthy key text :
  tableText errorMessages key = Some text → truthy text = true.
Proof.
  intros Hin%tableText_elem.
  assert (Hall : Forall (λ kt, truthy kt.2 = true) errorMessages)
    by (repeat constructor).
  rewrite list.Forall_forall in Hall. by apply Hall in Hin.
Qed.

(** A code that is neither a key of the table nor the name of an inherited
    member reads as [undefined]. *)
Lemma errorMessages_get_undefined error :
  tableText errorMessages (default "undefined" (code error)) = None →
  default "undefined" (code error) ∉ Object_prototype →
  errorMessages_get (code error) = JsUndefined.
Proof.
  intros Hkey Hproto. unfold errorMessages_get. rewrite Hkey.
  by rewrite bool_decide_false.
Qed.

(** C9, as stated, fails: an error without a code and with an empty message
    is not in the table, yet what is surfaced is the fixed fallback text,
    not the error's own (empty) message. *)
Lemma C9_empty_message_gets_fallback :
  let error := mkError None "" in
  tableText errorMessages (default "undefined" (code error)) = None ∧
  surfaced error = JsString fallbackMessage ∧
  surfaced error ≠ JsString (message error) ∧
  handleAuthError error =
    [ConsoleError "Authentication error:";
     ToastError "An error occurred during sign in. Please try again."].
Proof. by split_and!. Qed.

(** C9 (amended): for a code that is a key of the table the table's text
    is surfaced; for a code the table read leaves undefined, the error's
    own message is surfaced when it is non-empty and the fixed fallback
    text otherwise; in both cases what is surfaced is a non-empty text. *)
Theorem C9_auth_error_message error :
  (∀ text,
     tableText errorMessages (default "undefined" (code error)) = Some text →
     handleAuthError error =
       [ConsoleError "Authentication error:"; ToastError text]
     ∧ text ≠ "") ∧
  (errorMessages_get (code error) = JsUndefined →
     ∃ text,
       handleAuthError error =
         [ConsoleError "Authentication error:"; ToastError text]
       ∧ text = (if truthy (message error) then message error
                 else fallbackMessage)
       ∧ text ≠ "").
Proof.
  split.
  - intros text Hkey. pose proof (errorMessages_truthy _ _ Hkey) as Htext.
    unfold handleAuthError, surfaced, errorMessages_get. rewrite Hkey.
    unfold js_or. simpl. rewrite Htext. simpl. rewrite Htext.
    split; [done|]. by intros ->.
  - intros Hget. unfold handleAuthError, surfaced. rewrite Hget.
    unfold js_or. simpl.
    destruct (truthy (message error)) eqn:Hmsg; simpl; rewrite ?Hmsg;
      eexists; split_and!; try done.
    by intros Heq; rewrite Heq in Hmsg.
Qed.

(** C9 (amended) on a known code and on an unknown one. *)
Lemma C9_auth_error_message_witness :
  handleAuthError (mkError (Some "auth/weak-password") "Firebase: Error") =
    [ConsoleError "Authentication error:";
     ToastError "Password should be at least 6 characters long."] ∧
  ∃ text,
    handleAuthError (mkError (Some "permission-denied") "Missing permissions.") =
      [ConsoleError "Authentication error:"; ToastError text]
    ∧ text = "Missing permissions.".
Proof.
  split.
  - exact (proj1 (proj1 (C9_auth_error_message
             (mkError (Some "auth/weak-password") "Firebase: Error"))
             _ eq_refl)).
  - destruct (proj2 (C9_auth_error_message
               (mkError (Some "permission-denied") "Missing permissions."))
               eq_refl) as (text & Hshown & Htext & _).
    exists text. split; [exact Hshown|exact Htext].
Defined.


(** When the record lookup itself fails, the handler reports the error but
    leaves the user signed in. *)
Lemma handleSubmit_lookup_failure env w name email password uid e :
  signIn env email password = inr uid →
  getDoc_error env = Some e →
  currentUser (run (handleSubmit env false name email password) w) = Some uid.
Proof.
  intros Hsign Hget. unfold run, handleSubmit, handleSubmit_try.
  unfold finally, try_catch, mbind, Async_bind, authenticate.
  rewrite Hsign. unfold getDoc, setLoading, setCurrentUser, notify.
  unfold mbind, Async_bind, mret, Async_ret. simpl.
  by rewrite Hget.
Qed.

End auth_form.

(** ** Application shell *)
Section app_shell.
Import App.

(** On a page that has held no administrator data yet, a user without
    administrator record never gets the protected routes. *)
Lemma authChange_gate getDoc_error (admins : gmap string Firestore.AdminDoc)
    u st :
  adminData st = None →
  admins !! u = None →
  Forall (λ st', render st' ≠ ProtectedRoutes ∧ adminData st' = None)
    (authChange getDoc_error admins (Some u) st).
Proof.
  intros Hdata Hnone. unfold authChange, checkAdminStatus. simpl.
  destruct getDoc_error; [|rewrite Hnone];
    repeat constructor; unfold render; simpl; rewrite ?Hdata;
    by repeat case_match.
Qed.

(** What the shell does maintain: the administrator data it holds was
    read from the [admins] collection, though not necessarily for the user
    who is signed in now. *)
Lemma authChange_adminData getDoc_error
    (admins : gmap string Firestore.AdminDoc) u st :
  (∀ d, adminData st = Some d → ∃ uid, admins !! uid = Some d) →
  Forall (λ st', ∀ d, adminData st' = Some d → ∃ uid, admins !! uid = Some d)
    (authChange getDoc_error admins u st).
Proof.
  intros Hst. unfold authChange, checkAdminStatus. simpl.
  destruct u as [uid|]; [destruct getDoc_error;
    [|destruct (admins !! uid) as [data|] eqn:Hdata]|];
    repeat constructor; simpl; try done.
  intros d [= <-]. by exists uid.
Qed.

Lemma Forall_last {A} (P : A → Prop) l d :
  Forall P l → P d → P (List.last l d).
Proof.
  intros Hl Hd. induction Hl as [|x l Hx Hl IH]; [done|].
  simpl. destruct l; [done|]. exact IH.
Qed.

Lemma session_adminData (admins : gmap string Firestore.AdminDoc) changes st :
  (∀ d, adminData st = Some d → ∃ uid, admins !! uid = Some d) →
  Forall (λ st', ∀ d, adminData st' = Some d → ∃ uid, admins !! uid = Some d)
    (session admins changes st).
Proof.
  revert st. induction changes as [|[u e] changes IH]; intros st Hst.
  - constructor.
  - pose proof (authChange_adminData e admins u st Hst) as Hframes.
    cbn [session]. apply Forall_app. split; [done|]. apply IH.
    by apply Forall_last.
Qed.

(** C10 fails on the code: administrator [A] signs in and out, which leaves
    [adminData] set; when [B], who has no administrator record, then signs
    in, the shell renders the protected routes for [B] before its check
    starts, and keeps them for good when the check's lookup fails, a case
    in which the sign-in handler leaves [B] signed in as well. *)
Theorem C10_stale_admin_data_opens_protected_view :
  Samples.onlyA !! "B" = None ∧
  (∃ st, st ∈ session Samples.onlyA Samples.thenB initial ∧
         user st = Some "B" ∧ render st = ProtectedRoutes) ∧
  (∃ st, list.last (session Samples.onlyA Samples.thenBOffline initial)
           = Some st ∧
         user st = Some "B" ∧ render st = ProtectedRoutes) ∧
  AuthForm.currentUser
    (run (AuthForm.handleSubmit (Samples.acceptsB (Some Samples.offline))
            false "" "b@example.com" "secret") Samples.signedOut)
  = Some "B".
Proof.
  split_and!.
  - done.
  - eexists. split; [|split].
    + do 5 apply list_elem_of_further. apply list_elem_of_here.
    + done.
    + done.
  - eexists. by split_and!.
  - done.
Qed.

End app_shell.

(** * Further properties of the code *)

(** ** Call history browser: failed loads, retries, closed form *)
Section call_history_more.
Import CallHistory.

Lemma toEntry_is_Some db d :
  is_Some (toEntry db d) ↔
  is_Some (d_creationTime d) ∧ is_Some (d_lastUpdated d).
Proof.
  unfold toEntry. destruct (d_creationTime d), (d_lastUpdated d); simpl;
    split; intros H; try done; destruct H as [H1 H2];
    by (inversion H1 || inversion H2).
Qed.

(** X1: a load reaches the sort exactly when the collection read is
    answered and every fetched record carries both timestamps; the owner
    lookups and their outcomes play no part, and a single record without a
    timestamp fails the whole load. *)
Theorem X1_load_fails_iff db :
  callsData db = None ↔
  getDocs_ok db = false ∨
  ∃ d, d ∈ call_history db ∧
       (d_creationTime d = None ∨ d_lastUpdated d = None).
Proof.
  unfold callsData. destruct (getDocs_ok db); [|by split; [left|]].
  split.
  - intros Hnone. right.
    destruct (decide (Forall (is_Some ∘ toEntry db) (call_history db)))
      as [Hall|Hnot].
    { apply mapM_is_Some in Hall. rewrite Hnone in Hall. by inversion Hall. }
    apply not_Forall_Exists in Hnot; [|apply _].
    apply Exists_exists in Hnot as (d & Hin & Hd). exists d.
    split; [by apply list_elem_of_In|].
    simpl in Hd. rewrite toEntry_is_Some in Hd.
    destruct (d_creationTime d); [|by left].
    destruct (d_lastUpdated d); [|by right]. destruct Hd. by split.
  - intros [?|(d & Hin & Hd)]; [done|].
    destruct (mapM (toEntry db) (call_history db)) as [data|] eqn:Hm; [|done].
    assert (Hall : Forall (is_Some ∘ toEntry db) (call_history db))
      by (apply mapM_is_Some; by rewrite Hm).
    rewrite list.Forall_forall in Hall. apply Hall in Hin. simpl in Hin.
    apply toEntry_is_Some in Hin as [[? H1] [? H2]].
    destruct Hd; congruence.
Qed.
End call_history_more.

Section call_history_more2.
Import CallHistory.

Lemma lookupNotices_lines db :
  Forall (λ n, n = ConsoleError "Error fetching user email:")
    (lookupNotices db).
Proof.
  unfold lookupNotices. destruct (getDocs_ok db); [|constructor].
  induction (call_history db) as [|d docs IH]; [constructor|].
  unfold lookupErrors in *. simpl.
  destruct (ownerId d) as [uid|]; simpl; [|exact IH].
  destruct (getDoc_ok db uid); simpl; [exact IH|by constructor].
Qed.

(** X2: a load that fails, the first one or a "load more", and whatever
    the latency of the lookups, changes neither the window nor [hasMore]
    nor [lastVisible], clears the flag it had set and leaves the other
    flag alone, and shows the error toast exactly once, right after the
    console line of the [catch] clause; every other notice, before or
    after them, is the console line of a rejected owner lookup.  After a
    failed first load the list is empty with [hasMore] still set, so
    "load more" acts as the retry: answered by the store, it exposes
    exactly what a successful first load exposes. *)
Theorem X2_failed_load_then_retry db0 db data :
  callsData db0 = None →
  callsData db = Some data →
  let failed := fetchCalls db0 true initial in
  (∀ isInitial st,
     let r := fetchCalls db0 isInitial st in
     calls r.1.1 = calls st ∧ hasMore r.1.1 = hasMore st ∧
     lastVisible r.1.1 = lastVisible st ∧
     (if isInitial
      then isLoading r.1.1 = false ∧ isLoadingMore r.1.1 = isLoadingMore st
      else isLoadingMore r.1.1 = false ∧ isLoading r.1.1 = isLoading st) ∧
     ∃ before after,
       r.2 = before ++ [ConsoleError "Error fetching calls:";
                        ToastError "Failed to load call history"] ++ after ∧
       Forall (λ n, n = ConsoleError "Error fetching user email:")
         (before ++ after)) ∧
  (∀ st, isLoadingMore st = false → hasMore st = true →
         handleLoadMore db0 st = fetchCalls db0 false st ∧
         ToastError "Failed to load call history" ∈ (handleLoadMore db0 st).2) ∧
  (∀ st, calls (handleLoadMore db0 st).1.1 = calls st ∧
         hasMore (handleLoadMore db0 st).1.1 = hasMore st ∧
         isLoadingMore (handleLoadMore db0 st).1.1 = isLoadingMore st) ∧
  calls failed.1.1 = [] ∧ hasMore failed.1.1 = true ∧
  isLoading failed.1.1 = false ∧
  ToastError "Failed to load call history" ∈ failed.2 ∧
  calls (handleLoadMore db failed.1.1).1.1 =
    calls (fetchCalls db true initial).1.1 ∧
  hasMore (handleLoadMore db failed.1.1).1.1 =
    hasMore (fetchCalls db true initial).1.1.
Proof.
  intros Hfail Hdata failed.
  assert (Hrun : ∀ isInitial st,
            fetchCalls db0 isInitial st =
              (if isInitial
               then setIsLoading false (setIsLoading true st)
               else setIsLoadingMore false (setIsLoadingMore true st),
               fetches db0, failedNotices db0)).
  { intros isInitial st. unfold fetchCalls. rewrite Hfail.
    by destruct isInitial. }
  assert (Htoast : ToastError "Failed to load call history"
                   ∈ failedNotices db0).
  { unfold failedNotices, loadFailed. rewrite !elem_of_app. right. left.
    apply list_elem_of_further, list_elem_of_here. }
  split_and!.
  - intros isInitial st r. unfold r. rewrite Hrun.
    split_and!; try by destruct isInitial.
    exists (take (linesBeforeCatch db0) (lookupNotices db0)),
           (drop (linesBeforeCatch db0) (lookupNotices db0)).
    split; [done|]. rewrite take_drop. apply lookupNotices_lines.
  - intros st Hlm Hmore. unfold handleLoadMore. rewrite Hlm, Hmore. simpl.
    split; [done|]. by rewrite Hrun.
  - intros st. unfold handleLoadMore.
    destruct (isLoadingMore st) eqn:Hlm; simpl; [done|].
    destruct (hasMore st) eqn:Hmore; simpl; [|done].
    by rewrite Hrun.
  - unfold failed. by rewrite Hrun.
  - unfold failed. by rewrite Hrun.
  - unfold failed. by rewrite Hrun.
  - unfold failed. by rewrite Hrun.
  - unfold failed. rewrite Hrun. unfold handleLoadMore. simpl.
    by rewrite !(fetchCalls_ok _ _ _ _ Hdata).
  - unfold failed. rewrite Hrun. unfold handleLoadMore. simpl.
    by rewrite !(fetchCalls_ok _ _ _ _ Hdata).
Qed.

(** X2 on a store where a record without timestamps throws while the
    rejected lookup of another record is still pending: the lookup's line
    comes after the toast; the retry is then answered. *)
Lemma X2_failed_load_then_retry_witness :
  let db := Samples.callDb 3 in
  callsData Samples.callDbBroken = None ∧
  (handleLoadMore Samples.callDbBroken
     (fetchCalls Samples.callDbBroken true initial).1.1).2 =
    [ConsoleError "Error fetching calls:";
     ToastError "Failed to load call history";
     ConsoleError "Error fetching user email:"] ∧
  length (calls (handleLoadMore db
                   (fetchCalls Samples.callDbBroken true initial).1.1).1.1)
    = 3.
Proof.
  intros db.
  assert (Hdata : callsData db = Some (default [] (callsData db)))
    by (vm_compute; reflexivity).
  destruct (X2_failed_load_then_retry Samples.callDbBroken db _ eq_refl Hdata)
    as (_ & _ & _ & _ & _ & _ & _ & Hcalls & _).
  split; [reflexivity|]. split; [vm_compute; reflexivity|].
  rewrite Hcalls. vm_compute. reflexivity.
Defined.

(** X3: a load that reaches the sort has built one entry per fetched
    document, with the documents' ids in fetch order; no entry has an empty
    owner email, and none has an empty call id unless its document id is
    empty. *)
Theorem X3_entries_of_documents db data :
  callsData db = Some data →
  id <$> data = doc_id <$> call_history db ∧
  Forall (λ e, userEmail e ≠ "" ∧ (id e ≠ "" → callId e ≠ "")) data.
Proof.
  unfold callsData. destruct (getDocs_ok db); [|done].
  intros Hall%mapM_Some. induction Hall as [|d e docs es Hd Hall [IH1 IH2]].
  - split; [done|constructor].
  - assert (He : id e = doc_id d ∧ userEmail e ≠ "" ∧
                 (id e ≠ "" → callId e ≠ "")).
    { unfold toEntry in Hd.
      destruct (d_creationTime d); [|done].
      destruct (d_lastUpdated d); [|done].
      simpl in Hd. injection Hd as <-. simpl. split_and!; [done| |].
      - unfold lookupEmail.
        destruct (ownerId d); [|done].
        destruct (getDoc_ok db s); [|done].
        destruct (user_emails db !! s) as [[email|]|]; try done.
        simpl. by destruct email.
      - intros Hid. destruct (d_callId d) as [c|]; simpl; [|done].
        by destruct c. }
    destruct He as (He1 & He2 & He3). split.
    + rewrite !fmap_cons. by rewrite He1, IH1.
    + by constructor.
Qed.

(** X3 on three records. *)
Lemma X3_entries_of_documents_witness :
  let db := Samples.callDb 3 in
  id <$> default [] (callsData db) = ["call"; "call"; "call"].
Proof.
  intros db.
  exact (proj1 (X3_entries_of_documents db (default [] (callsData db))
                  eq_refl)).
Defined.

Lemma insertCall_same_time t x l :
  filter (λ e, lastUpdated e = t) (insertCall x l) =
  filter (λ e, lastUpdated e = t) (x :: l).
Proof.
  induction l as [|y l IH]; simpl; [done|].
  case_match eqn:Hcmp; [done|]. apply Z.leb_gt in Hcmp.
  rewrite (filter_cons _ y), IH, !filter_cons.
  repeat case_decide; try done; lia.
Qed.

(** X4: the sort is stable: the records that share a last-update time
    come out in the order they were fetched. *)
Theorem X4_sort_keeps_fetch_order_of_ties t l :
  filter (λ e, lastUpdated e = t) (sortCalls l) =
  filter (λ e, lastUpdated e = t) l.
Proof.
  induction l as [|x l IH]; [done|].
  simpl. fold (sortCalls l). rewrite insertCall_same_time.
  by rewrite !filter_cons, IH.
Qed.

(** X5: with the store answering with the same [size] records each time,
    the window after the first load and [n] activations of "load more" is
    the first [(n + 1) * 20] records of the sorted result; [hasMore] holds
    exactly while records remain hidden; and once all are shown a further
    activation changes nothing and sends no read. *)
Theorem X5_window_after_n_loads db data n :
  callsData db = Some data →
  let st := afterLoads db n in
  calls st = take (S n * CALLS_PER_PAGE) (sortCalls data) ∧
  hasMore st = bool_decide (length (calls st) < length data) ∧
  (length data ≤ S n * CALLS_PER_PAGE →
   calls st = sortCalls data ∧ handleLoadMore db st = (st, [], [])).
Proof.
  intros Hdata st.
  assert (Hinv : calls st = take (S n * CALLS_PER_PAGE) (sortCalls data) ∧
                 hasMore st = bool_decide (S n * CALLS_PER_PAGE < length data) ∧
                 isLoadingMore st = false).
  { unfold st. clear st. induction n as [|n (Hcalls & Hmore & Hlm)].
    - simpl afterLoads. rewrite (fetchCalls_ok _ _ _ _ Hdata).
      cbn [fst calls hasMore isLoadingMore initial].
      rewrite sortCalls_length.
      by replace (1 * CALLS_PER_PAGE) with CALLS_PER_PAGE by lia.
    - simpl afterLoads. unfold handleLoadMore. rewrite Hlm, Hmore.
      cbn [negb andb]. case_bool_decide as Hlt.
      + rewrite (fetchCalls_ok _ _ _ _ Hdata). cbn [fst calls hasMore isLoadingMore].
        rewrite Hcalls, length_take_le by (rewrite sortCalls_length; lia).
        rewrite sortCalls_length.
        replace (S n * CALLS_PER_PAGE + CALLS_PER_PAGE)
          with (S (S n) * CALLS_PER_PAGE) by lia.
        done.
      + cbn [fst]. rewrite Hcalls, Hmore, Hlm.
        rewrite !take_ge by (rewrite sortCalls_length; lia).
        by rewrite !bool_decide_false by lia. }
  destruct Hinv as (Hcalls & Hmore & Hlm). split_and!.
  - done.
  - rewrite Hmore, Hcalls, length_take, sortCalls_length.
    apply bool_decide_ext. lia.
  - intros Hall. split.
    + rewrite Hcalls. apply take_ge. rewrite sortCalls_length. lia.
    + unfold handleLoadMore. rewrite Hlm, Hmore.
      by rewrite bool_decide_false by lia.
Qed.

(** X5 on 21 records: one activation shows them all. *)
Lemma X5_window_after_n_loads_witness :
  let db := Samples.callDb 21 in
  length (calls (afterLoads db 1)) = 21 ∧
  handleLoadMore db (afterLoads db 1) = (afterLoads db 1, [], []).
Proof.
  intros db.
  assert (Hdata : callsData db = Some (default [] (callsData db)))
    by (vm_compute; reflexivity).
  destruct (X5_window_after_n_loads db _ 1 Hdata) as (_ & _ & Hall).
  destruct Hall as [Hcalls Hnoop]; [vm_compute; lia|].
  split; [|exact Hnoop]. rewrite Hcalls. vm_compute. reflexivity.
Defined.

End call_history_more2.

(** ** Preference save flows: verdict, agreement, frame, composition *)

(** Closes [e ∉ l] for a list [l] of events that all differ from [e]. *)
Ltac other_events :=
  unfold Trace.saveFailed; simpl;
  lazymatch goal with
  | |- ?x ∈ ?l → False => change (x ∉ l)
  | _ => idtac
  end;
  rewrite ?not_elem_of_cons, ?elem_of_nil;
  split_and!; first [discriminate | tauto].

Section save_flows_more.
Import Firestore Trace Mirror.

Lemma no_success_in_retell env selectedVoice docs msg :
  Notify (ToastSuccess msg) ∉ retellEvents env selectedVoice docs.
Proof. intros Hin. by apply retellEvents_no_write in Hin. Qed.

Lemma accepted_true env uid w :
  accepted env uid w = true ↔
  updateDoc_error env = None ∧ is_Some (admins (store w) !! uid) ∧
  getDocs_error env = None ∧ commit_error env = None.
Proof.
  unfold accepted.
  destruct (updateDoc_error env), (admins (store w) !! uid),
    (getDocs_error env), (commit_error env); split; try done;
    intros (? & [? ?] & ? & ?); done.
Qed.

(** X6: every save that gets past its guard ends on exactly one verdict:
    the last event is the success toast when the store accepted the
    own-record write, the enumeration and the batch, and the save-failure
    toast otherwise; the success toast appears in no other case, whatever
    the agent provider did. *)
Theorem X6_save_verdict env uid v p sv w :
  AIPreferences.submitted v = Some p →
  let ai := newEvents w (run (AIPreferences.handleSaveChanges env (Some uid) v) w) in
  let story :=
    newEvents w (run (StoryPreferences.handleSaveChanges env (Some uid) sv) w) in
  list.last ai = Some (if accepted env uid w then aiSuccess else aiFailure) ∧
  (aiSuccess ∈ ai ↔ accepted env uid w = true) ∧
  list.last story =
    Some (if accepted env uid w then storySuccess else storyFailure) ∧
  (storySuccess ∈ story ↔ accepted env uid w = true).
Proof.
  intros Hp ai story. unfold ai, story.
  rewrite (AI_save_run _ _ _ _ _ Hp), Story_save_run.
  unfold aiOutcome, storyOutcome, accepted.
  destruct (updateDoc_error env) as [e|];
    [|destruct (admins (store w) !! uid) as [d|];
      [destruct (getDocs_error env) as [e|];
        [|destruct (commit_error env) as [e|]]|]];
    rewrite !newEvents_settled.
  1,2,5: split_and!; try reflexivity; (split; [|done]);
    intros Hin; exfalso; revert Hin; other_events.
  - split_and!.
    + rewrite list.last_app. reflexivity.
    + split; [|done]. intros Hin. exfalso.
      rewrite !elem_of_app in Hin. destruct Hin as [[Hin|Hin]|Hin]; revert Hin.
      * other_events.
      * apply no_success_in_retell.
      * other_events.
    + reflexivity.
    + split; [|done]. intros Hin. exfalso. revert Hin. other_events.
  - split_and!.
    + rewrite list.last_app. reflexivity.
    + split; [done|]. intros _. rewrite elem_of_app. right.
      apply list_elem_of_further, list_elem_of_here.
    + reflexivity.
    + split; [done|]. intros _.
      do 3 apply list_elem_of_further. apply list_elem_of_here.
Qed.

(** X6 on a save whose batch is rejected. *)
Lemma X6_save_verdict_witness :
  let w := fresh Samples.store3 in
  list.last
    (newEvents w (run (AIPreferences.handleSaveChanges Samples.envBatchDown
                         (Some "admin1") Samples.view) w))
  = Some aiFailure.
Proof.
  intros w.
  exact (proj1 (X6_save_verdict Samples.envBatchDown "admin1" Samples.view
                  Samples.prefs StoryPreferences.initial w eq_refl)).
Defined.

End save_flows_more.

Section save_flows_more2.
Import Firestore Trace Mirror.

(** The store an accepted save ends in. *)
Lemma AI_accepted_store env uid v p w :
  AIPreferences.submitted v = Some p →
  accepted env uid w = true →
  ∃ d, admins (store w) !! uid = Some d ∧
       run (AIPreferences.handleSaveChanges env (Some uid) v) w =
       settled
         (batchWritten (AIPreferences.userUpdate p) (S (clock w))
            (adminWritten uid (AIPreferences.adminUpdate p) d w))
         [adminWritten uid (AIPreferences.adminUpdate p) d w;
          batchWritten (AIPreferences.userUpdate p) (S (clock w))
            (adminWritten uid (AIPreferences.adminUpdate p) d w)]
         2
         (([UpdateDoc uid true; GetDocsUsers true] ++
           retellEvents env (voice p) (users (store w))) ++
          [BatchCommit (users (store w)).*1 true; aiSuccess])
         w.
Proof.
  intros Hp (Hwrite & [d Hd] & Hdocs & Hcommit)%accepted_true.
  exists d. split; [done|]. rewrite (AI_save_run _ _ _ _ _ Hp).
  unfold aiOutcome. by rewrite Hwrite, Hd, Hdocs, Hcommit.
Qed.

Lemma Story_accepted_store env uid sv w :
  accepted env uid w = true →
  ∃ d, admins (store w) !! uid = Some d ∧
       run (StoryPreferences.handleSaveChanges env (Some uid) sv) w =
       settled
         (batchWritten (StoryPreferences.userUpdate (StoryPreferences.submitted sv))
            (S (clock w))
            (adminWritten uid
               (StoryPreferences.adminUpdate (StoryPreferences.submitted sv)) d w))
         [adminWritten uid
            (StoryPreferences.adminUpdate (StoryPreferences.submitted sv)) d w;
          batchWritten (StoryPreferences.userUpdate (StoryPreferences.submitted sv))
            (S (clock w))
            (adminWritten uid
               (StoryPreferences.adminUpdate (StoryPreferences.submitted sv)) d w)]
         2
         [UpdateDoc uid true; GetDocsUsers true;
          BatchCommit (users (store w)).*1 true; storySuccess]
         w.
Proof.
  intros (Hwrite & [d Hd] & Hdocs & Hcommit)%accepted_true.
  exists d. split; [done|]. rewrite Story_save_run.
  unfold storyOutcome. by rewrite Hwrite, Hd, Hdocs, Hcommit.
Qed.

(** X7: after a save the store accepted, the administrator's record and
    every user record hold the submitted block; the users are the
    enumerated ones, in the same order, and each carries the timestamp
    taken right after the administrator's. *)
Theorem X7_accepted_save_mirrors env uid v p sv w :
  AIPreferences.submitted v = Some p →
  accepted env uid w = true →
  let ai := store (run (AIPreferences.handleSaveChanges env (Some uid) v) w) in
  let story :=
    store (run (StoryPreferences.handleSaveChanges env (Some uid) sv) w) in
  (admins ai !! uid ≫= aiPreferences = Some p ∧
   admins ai !! uid ≫= (λ d, Some (updatedAt d)) = Some (clock w) ∧
   Forall (λ r, aiMirrors p r.2 ∧ u_updatedAt r.2 = S (clock w)) (users ai) ∧
   (users ai).*1 = (users (store w)).*1) ∧
  (admins story !! uid ≫= storyPreferences
     = Some (StoryPreferences.submitted sv) ∧
   admins story !! uid ≫= (λ d, Some (updatedAt d)) = Some (clock w) ∧
   Forall (λ r, storyMirrors (StoryPreferences.submitted sv) r.2 ∧
                u_updatedAt r.2 = S (clock w)) (users story) ∧
   (users story).*1 = (users (store w)).*1).
Proof.
  intros Hp Hok ai story.
  destruct (AI_accepted_store _ _ _ _ _ Hp Hok) as (d & Hd & Hai).
  destruct (Story_accepted_store env uid sv w Hok) as (d' & Hd' & Hstory).
  unfold ai, story. rewrite Hai, Hstory.
  unfold settled, batchWritten, adminWritten. simpl.
  rewrite !lookup_insert_eq. simpl. split_and!; try done.
  - apply Forall_fmap, Forall_true. by intros [i u].
  - rewrite <- list_fmap_compose. by apply list_fmap_ext.
  - apply Forall_fmap, Forall_true. by intros [i u].
  - rewrite <- list_fmap_compose. by apply list_fmap_ext.
Qed.

(** X7 on three users. *)
Lemma X7_accepted_save_mirrors_witness :
  Forall (λ r, aiMirrors Samples.prefs r.2 ∧ u_updatedAt r.2 = 1)
    (users (store (run (AIPreferences.handleSaveChanges Samples.envAgentDown
                          (Some "admin1") Samples.view)
                     (fresh Samples.store3)))).
Proof.
  exact (proj1 (proj2 (proj2 (proj1
    (X7_accepted_save_mirrors Samples.envAgentDown "admin1" Samples.view
       Samples.prefs StoryPreferences.initial (fresh Samples.store3)
       eq_refl eq_refl))))).
Defined.

(** *** What a save leaves alone *)

Lemma sameAdmins_refl {A} (kept : AdminDoc → A) uid ads :
  sameAdmins kept uid ads ads.
Proof. split; [done|]. by destruct (ads !! uid). Qed.

Lemma sameAdmins_written {A} (kept : AdminDoc → A) uid d d'
    (ads : gmap string AdminDoc) :
  ads !! uid = Some d →
  name d' = name d → email d' = email d → createdAt d' = createdAt d →
  kept d' = kept d →
  sameAdmins kept uid ads (<[uid := d']> ads).
Proof.
  intros Hd ????. split.
  - intros u Hu. by rewrite lookup_insert_ne.
  - by rewrite Hd, lookup_insert_eq.
Qed.

Lemma sameUsers_refl (keeps : UserDoc → UserDoc → Prop) us :
  (∀ d, keeps d d) → sameUsers keeps us us.
Proof. intros Hk. unfold sameUsers. induction us; by constructor. Qed.

Lemma sameUsers_batch (keeps : UserDoc → UserDoc → Prop)
    (change : UserDoc → UserDoc) us :
  (∀ d, keeps d (change d)) →
  sameUsers keeps us ((λ r, (r.1, change r.2)) <$> us).
Proof.
  intros Hk. unfold sameUsers. induction us as [|r us IH]; simpl;
    constructor; [by split|done].
Qed.

(** X8: on every path, whatever is rejected, an AI save leaves the story
    side alone and a story save the AI side: the other administrators'
    records are untouched, no record appears or disappears, the saving
    administrator keeps name, email, creation time and the other preference
    block, and every user keeps its resource ids and the other block's
    fields. *)
Theorem X8_save_frame env uid v p sv w :
  AIPreferences.submitted v = Some p →
  let ai := store (run (AIPreferences.handleSaveChanges env (Some uid) v) w) in
  let story :=
    store (run (StoryPreferences.handleSaveChanges env (Some uid) sv) w) in
  sameAdmins storyPreferences uid (admins (store w)) (admins ai) ∧
  sameUsers aiKeeps (users (store w)) (users ai) ∧
  sameAdmins aiPreferences uid (admins (store w)) (admins story) ∧
  sameUsers storyKeeps (users (store w)) (users story).
Proof.
  intros Hp ai story. unfold ai, story.
  rewrite (AI_save_run _ _ _ _ _ Hp), Story_save_run.
  unfold aiOutcome, storyOutcome.
  assert (Hai : ∀ d, aiKeeps d d) by (by intros d).
  assert (Hst : ∀ d, storyKeeps d d) by (by intros d).
  destruct (updateDoc_error env) as [e|];
    [|destruct (admins (store w) !! uid) as [d|] eqn:Hd;
      [destruct (getDocs_error env) as [e|];
        [|destruct (commit_error env) as [e|]]|]];
    unfold settled, batchWritten, adminWritten; simpl; split_and!;
    try apply sameAdmins_refl; try (by apply sameUsers_refl);
    try (by apply (sameAdmins_written _ _ d));
    by apply sameUsers_batch.
Qed.

(** X8 on a save the store accepts: the other side of a user is as
    before. *)
Lemma X8_save_frame_witness :
  sameUsers aiKeeps (users Samples.store3)
    (users (store (run (AIPreferences.handleSaveChanges Samples.envAgentDown
                          (Some "admin1") Samples.view)
                     (fresh Samples.store3)))).
Proof.
  exact (proj1 (proj2
    (X8_save_frame Samples.envAgentDown "admin1" Samples.view Samples.prefs
       StoryPreferences.initial (fresh Samples.store3) eq_refl))).
Defined.

End save_flows_more2.

Section save_flows_more3.
Import Firestore Trace Mirror.

Lemma accepted_later env uid w w' :
  accepted env uid w = true →
  is_Some (admins (store w') !! uid) →
  accepted env uid w' = true.
Proof.
  rewrite !accepted_true. intros (? & _ & ? & ?) ?. by split_and!.
Qed.

(** X9: an AI save and a story save, both accepted by the store, compose
    in either order: afterwards the administrator's record holds both
    submitted blocks and every user record mirrors both, with the users
    still the enumerated ones. *)
Theorem X9_ai_and_story_saves_compose envA envS uid v p sv w :
  AIPreferences.submitted v = Some p →
  accepted envA uid w = true →
  accepted envS uid w = true →
  let sp := StoryPreferences.submitted sv in
  let aiThenStory :=
    store (run (StoryPreferences.handleSaveChanges envS (Some uid) sv)
             (run (AIPreferences.handleSaveChanges envA (Some uid) v) w)) in
  let storyThenAi :=
    store (run (AIPreferences.handleSaveChanges envA (Some uid) v)
             (run (StoryPreferences.handleSaveChanges envS (Some uid) sv) w)) in
  ∀ s, s = aiThenStory ∨ s = storyThenAi →
    admins s !! uid ≫= aiPreferences = Some p ∧
    admins s !! uid ≫= storyPreferences = Some sp ∧
    Forall (λ r, aiMirrors p r.2 ∧ storyMirrors sp r.2) (users s) ∧
    (users s).*1 = (users (store w)).*1.
Proof.
  intros Hp HokA HokS sp aiThenStory storyThenAi s Hs.
  destruct (AI_accepted_store _ _ _ _ _ Hp HokA) as (d & Hd & Hai).
  destruct (Story_accepted_store envS uid sv w HokS) as (d' & Hd' & Hstory).
  assert (d' = d) as -> by congruence.
  destruct Hs as [-> | ->].
  - unfold aiThenStory. rewrite Hai.
    match goal with |- context [run _ ?w1] => set (w1' := w1) end.
    destruct (Story_accepted_store envS uid sv w1') as (d1 & Hd1 & Hrun).
    { apply (accepted_later _ _ w); [done|].
      unfold w1', settled, batchWritten, adminWritten. simpl.
      by rewrite lookup_insert_eq. }
    rewrite Hrun.
    unfold w1', settled, batchWritten, adminWritten in Hd1 |- *. simpl in *.
    rewrite lookup_insert_eq in Hd1. injection Hd1 as <-.
    rewrite !lookup_insert_eq. simpl. split_and!; try done.
    + rewrite <- list_fmap_compose. apply Forall_fmap, Forall_true.
      by intros [i u].
    + rewrite <- !list_fmap_compose. by apply list_fmap_ext.
  - unfold storyThenAi. rewrite Hstory.
    match goal with |- context [run _ ?w1] => set (w1' := w1) end.
    destruct (AI_accepted_store envA uid v p w1' Hp) as (d1 & Hd1 & Hrun).
    { apply (accepted_later _ _ w); [done|].
      unfold w1', settled, batchWritten, adminWritten. simpl.
      by rewrite lookup_insert_eq. }
    rewrite Hrun.
    unfold w1', settled, batchWritten, adminWritten in Hd1 |- *. simpl in *.
    rewrite lookup_insert_eq in Hd1. injection Hd1 as <-.
    rewrite !lookup_insert_eq. simpl. split_and!; try done.
    + rewrite <- list_fmap_compose. apply Forall_fmap, Forall_true.
      by intros [i u].
    + rewrite <- !list_fmap_compose. by apply list_fmap_ext.
Qed.

(** X9 on three users, the AI save first. *)
Lemma X9_ai_and_story_saves_compose_witness :
  let s :=
    store (run (StoryPreferences.handleSaveChanges Samples.envAgentDown
                  (Some "admin1") StoryPreferences.initial)
             (run (AIPreferences.handleSaveChanges Samples.envAgentDown
                     (Some "admin1") Samples.view)
                (fresh Samples.store3))) in
  Forall (λ r, aiMirrors Samples.prefs r.2 ∧
               storyMirrors
                 (StoryPreferences.submitted StoryPreferences.initial) r.2)
    (users s).
Proof.
  intros s.
  exact (proj1 (proj2 (proj2
    (X9_ai_and_story_saves_compose Samples.envAgentDown Samples.envAgentDown
       "admin1" Samples.view Samples.prefs StoryPreferences.initial
       (fresh Samples.store3) eq_refl eq_refl eq_refl s (or_introl eq_refl))))).
Defined.

(** X10: nothing is undone.  When the enumeration is rejected after the
    own-record write, the administrator's record keeps the new value while
    no provider call, no batch and no user change takes place.  When only
    the batch is rejected, every provider call has already been issued
    although no user record changed. *)
Theorem X10_nothing_is_undone env uid v p d w :
  AIPreferences.submitted v = Some p →
  updateDoc_error env = None →
  admins (store w) !! uid = Some d →
  let w' := run (AIPreferences.handleSaveChanges env (Some uid) v) w in
  let new := newEvents w w' in
  (is_Some (getDocs_error env) →
     new = [UpdateDoc uid true; GetDocsUsers false;
            Notify (ConsoleError "Error updating AI preferences:"); aiFailure] ∧
     users (store w') = users (store w) ∧
     admins (store w') !! uid ≫= aiPreferences = Some p) ∧
  (getDocs_error env = None → is_Some (commit_error env) →
   retell_error env = None →
     (agentCalls new).*1 = allAgentIds (users (store w)) ∧
     list.last new = Some aiFailure ∧
     users (store w') = users (store w) ∧
     admins (store w') !! uid ≫= aiPreferences = Some p).
Proof.
  intros Hp Hwrite Hd w' new. split.
  - intros [e He]. unfold new, w'. rewrite (AI_save_run _ _ _ _ _ Hp).
    unfold aiOutcome. rewrite Hwrite, Hd, He, newEvents_settled.
    split_and!; [done|done|apply adminWritten_ai].
  - intros Hdocs [e He] Hclient. split_and!.
    + unfold new, w'. rewrite (AI_save_calls _ _ _ _ _ _ Hp Hwrite Hd Hdocs).
      by rewrite retellEvents_calls, Hclient.
    + unfold new, w'. rewrite (AI_save_events _ _ _ _ _ _ Hp Hwrite Hd Hdocs).
      unfold aiTail. rewrite He, !list.last_app. reflexivity.
    + unfold w'. rewrite (AI_save_run _ _ _ _ _ Hp). unfold aiOutcome.
      by rewrite Hwrite, Hd, Hdocs, He.
    + unfold w'. rewrite (AI_save_run _ _ _ _ _ Hp). unfold aiOutcome.
      rewrite Hwrite, Hd, Hdocs, He. apply adminWritten_ai.
Qed.

(** X10 with only the batch rejected. *)
Lemma X10_nothing_is_undone_witness :
  let w := fresh Samples.store3 in
  let w' := run (AIPreferences.handleSaveChanges Samples.envBatchDown
                   (Some "admin1") Samples.view) w in
  (agentCalls (newEvents w w')).*1 = ["a1"; "a2"] ∧
  users (store w') = users Samples.store3.
Proof.
  intros w w'.
  assert (Hdown : is_Some (commit_error Samples.envBatchDown))
    by (by exists Samples.offline).
  destruct (proj2 (X10_nothing_is_undone Samples.envBatchDown "admin1"
                     Samples.view Samples.prefs Samples.adminDoc w
                     eq_refl eq_refl eq_refl) eq_refl Hdown eq_refl)
    as (Hcalls & _ & Husers & _).
  split; [exact Hcalls|exact Husers].
Defined.

End save_flows_more3.

(** ** Loading the preference screens *)
Section fetch_more.
Import Firestore Trace Mirror.

(** What the own-record write of a save leaves on the record. *)
Lemma AI_own_record_saved env uid v p d w :
  AIPreferences.submitted v = Some p →
  updateDoc_error env = None →
  admins (store w) !! uid = Some d →
  admins (store (run (AIPreferences.handleSaveChanges env (Some uid) v) w))
    !! uid ≫= aiPreferences = Some p.
Proof.
  intros Hp Hwrite Hd. rewrite (AI_save_run _ _ _ _ _ Hp). unfold aiOutcome.
  rewrite Hwrite, Hd.
  destruct (getDocs_error env); [|destruct (commit_error env)];
    apply adminWritten_ai.
Qed.

Lemma Story_own_record_saved env uid sv d w :
  updateDoc_error env = None →
  admins (store w) !! uid = Some d →
  admins (store (run (StoryPreferences.handleSaveChanges env (Some uid) sv) w))
    !! uid ≫= storyPreferences = Some (StoryPreferences.submitted sv).
Proof.
  intros Hwrite Hd. rewrite Story_save_run. unfold storyOutcome.
  rewrite Hwrite, Hd.
  destruct (getDocs_error env); [|destruct (commit_error env)];
    apply adminWritten_story.
Qed.

(** X11: when any read of [fetchData] is rejected (the provider client, the
    administrator's record, or the voice catalogue, even after the record
    was read), the screen ends up ready with the default voice and both
    styles balanced, whatever the record holds, next to the error toast;
    a save pressed on that screen then writes these defaults over the
    administrator's saved block. *)
Theorem X11_failed_fetch_falls_back_to_defaults fe s uid v0 :
  is_Some (AIPreferences.client_error fe) ∨
  is_Some (AIPreferences.getDoc_error fe) ∨
  (∃ e, AIPreferences.voice_list fe = inl e) →
  let r := AIPreferences.fetchData fe s (Some uid) v0 in
  AIPreferences.submitted r.1 = Some defaultPreferences ∧
  AIPreferences.isLoading r.1 = false ∧
  AIPreferences.voices r.1 = AIPreferences.voices v0 ∧
  r.2 = [ConsoleError "Error fetching data:";
         ToastError "Failed to load preferences"] ∧
  ∀ env w d,
    updateDoc_error env = None →
    admins (store w) !! uid = Some d →
    admins (store (run (AIPreferences.handleSaveChanges env (Some uid) r.1) w))
      !! uid ≫= aiPreferences = Some defaultPreferences.
Proof.
  intros Hfail r.
  assert (Hr : ∃ v1, r = AIPreferences.fetchFailed v1 ∧
                     AIPreferences.voices v1 = AIPreferences.voices v0).
  { unfold r, AIPreferences.fetchData.
    destruct (AIPreferences.client_error fe) as [e|]; [by exists v0|].
    destruct (AIPreferences.getDoc_error fe) as [e|]; [by exists v0|].
    destruct Hfail as [[? [=]]|[[? [=]]|[e ->]]].
    eexists. split; [done|].
    destruct (admins s !! uid) as [adminData|]; [|done].
    by destruct (aiPreferences adminData). }
  destruct Hr as (v1 & -> & Hvoices).
  assert (Hsub : AIPreferences.submitted (AIPreferences.fetchFailed v1).1
                 = Some defaultPreferences) by done.
  split_and!; try done.
  intros env w d Hwrite Hd. by apply (AI_own_record_saved _ _ _ _ d).
Qed.

(** X11 with the voice catalogue unavailable, on a record holding a saved
    block. *)
Lemma X11_failed_fetch_falls_back_to_defaults_witness :
  let s := store (run (AIPreferences.handleSaveChanges Samples.envAgentDown
                         (Some "admin1") Samples.view)
                    (fresh Samples.store3)) in
  let fe := {| AIPreferences.client_error := None;
               AIPreferences.getDoc_error := None;
               AIPreferences.voice_list := inl Samples.offline |} in
  admins s !! "admin1" ≫= aiPreferences = Some Samples.prefs ∧
  AIPreferences.submitted
    (AIPreferences.fetchData fe s (Some "admin1") AIPreferences.initial).1
  = Some defaultPreferences.
Proof.
  intros s fe. split; [reflexivity|].
  exact (proj1 (X11_failed_fetch_falls_back_to_defaults fe s "admin1"
                  AIPreferences.initial
                  (or_intror (or_intror (ex_intro _ Samples.offline eq_refl))))).
Defined.

(** X12: the story screen only takes over a story block that is there and
    could be read; with the read rejected, the record missing or the block
    absent it keeps its current selections (at mount: first person,
    balanced, balanced) and stops loading, and a save pressed then writes
    those selections to the administrator's record. *)
Theorem X12_story_fetch_keeps_selections getDoc_error s uid v0 :
  is_Some getDoc_error ∨ admins s !! uid ≫= storyPreferences = None →
  let r := StoryPreferences.fetchPreferences getDoc_error s (Some uid) v0 in
  StoryPreferences.submitted r.1 = StoryPreferences.submitted v0 ∧
  StoryPreferences.isLoading r.1 = false ∧
  (is_Some getDoc_error → r.2 = [ConsoleError "Error fetching preferences:";
                                 ToastError "Failed to load preferences"]) ∧
  ∀ env w d,
    updateDoc_error env = None →
    admins (store w) !! uid = Some d →
    admins (store (run (StoryPreferences.handleSaveChanges env (Some uid) r.1) w))
      !! uid ≫= storyPreferences = Some (StoryPreferences.submitted v0).
Proof.
  intros Hkeep r.
  assert (Hsub : StoryPreferences.submitted r.1 = StoryPreferences.submitted v0
                 ∧ StoryPreferences.isLoading r.1 = false).
  { unfold r, StoryPreferences.fetchPreferences.
    destruct getDoc_error as [e|]; [done|].
    destruct Hkeep as [[? [=]]|Hnone].
    destruct (admins s !! uid) as [adminData|]; [|done].
    simpl in Hnone. by rewrite Hnone. }
  destruct Hsub as [Hsub Hload]. split_and!; try done.
  - intros [e ->]. done.
  - intros env w d Hwrite Hd. rewrite <- Hsub.
    by apply (Story_own_record_saved _ _ _ d).
Qed.

(** X12 with the read rejected right after mount. *)
Lemma X12_story_fetch_keeps_selections_witness :
  StoryPreferences.submitted
    (StoryPreferences.fetchPreferences (Some Samples.offline) Samples.store3
       (Some "admin1") StoryPreferences.initial).1
  = {| narrativeStyle := FirstPerson; lengthPreference := BalancedLength;
       detailRichness := Balanced |}.
Proof.
  assert (Hdown : is_Some (Some Samples.offline)) by (by eexists).
  exact (proj1 (X12_story_fetch_keeps_selections (Some Samples.offline)
                  Samples.store3 "admin1" StoryPreferences.initial
                  (or_introl Hdown))).
Defined.

End fetch_more.

(** ** Sign-in form: who gets through *)

Ltac run_submit :=
  unfold run, AuthForm.handleSubmit, AuthForm.handleSubmit_try,
    finally, try_catch, AuthForm.authenticate, AuthForm.getDoc,
    AuthForm.setDoc, AuthForm.setLoading, AuthForm.setCurrentUser,
    AuthForm.navigate, AuthForm.notify, throw,
    mbind, Async_bind, mret, Async_ret.

Section auth_form_more.
Import AuthForm.

Lemma toast_error_value_not_success v msg :
  toast_error_value v ≠ ToastSuccess msg.
Proof. by destruct v. Qed.

(** X13: however the provider and the store answer, a submission ends with
    the form's [loading] flag cleared and in one of two ways: either it
    appends a single success toast, has navigated to the dashboard, and
    the signed-in user has an administrator record; or it appends no
    success toast, leaves the route where it was and leaves the [admins]
    collection as it was. *)
Theorem X13_submit_admits_only_administrators env isSignUp name email
    password w :
  let w' := run (handleSubmit env isSignUp name email password) w in
  loading w' = false ∧
  (((∃ msg, notices w' = notices w ++ [ToastSuccess msg]) ∧
    location w' = "/ai-preferences" ∧
    ∃ uid, currentUser w' = Some uid ∧ is_Some (admins w' !! uid))
   ∨
   ((∀ msg, ToastSuccess msg ∉ drop (length (notices w)) (notices w')) ∧
    location w' = location w ∧ admins w' = admins w)).
Proof.
  intros w'. unfold w'. run_submit.
  assert (Hauth : ∀ e msg, ToastSuccess msg ∉ handleAuthError e).
  { intros e msg. unfold handleAuthError.
    rewrite !not_elem_of_cons, elem_of_nil. split_and!; [done| |tauto].
    intros Heq. by apply (toast_error_value_not_success (surfaced e) msg). }
  destruct isSignUp.
  - destruct (createUser env email password) as [e|uid]; simpl.
    + split; [done|]. right. rewrite drop_app_length. by split_and!.
    + destruct (setDoc_error env) as [e|]; simpl.
      * split; [done|]. right. rewrite drop_app_length. by split_and!.
      * split; [done|]. left. split_and!; [by eexists|done|].
        exists uid. by rewrite lookup_insert_eq.
  - destruct (signIn env email password) as [e|uid]; simpl.
    + split; [done|]. right. rewrite drop_app_length. by split_and!.
    + destruct (getDoc_error env) as [e|]; simpl.
      * split; [done|]. right. rewrite drop_app_length. by split_and!.
      * destruct (admins w !! uid) as [d|] eqn:Hd; simpl.
        -- split; [done|]. left. split_and!; [by eexists|done|].
           exists uid. by rewrite Hd.
        -- split; [done|]. right. rewrite drop_app_length.
           split_and!; [|done|done]. intros msg.
           rewrite not_elem_of_cons, elem_of_nil. split; [done|tauto].
Qed.



End auth_form_more.

(** ** Application shell: what does hold *)
Section app_shell_more.
Import App.

Lemma authChange_no_record getDoc_error
    (admins : gmap string Firestore.AdminDoc) u st :
  adminData st = None →
  (∀ uid, u = Some uid → admins !! uid = None) →
  Forall (λ st', render st' ≠ ProtectedRoutes ∧ adminData st' = None)
    (authChange getDoc_error admins u st).
Proof.
  intros Hdata Hnone. destruct u as [uid|].
  - apply authChange_gate; [done|]. by apply Hnone.
  - unfold authChange, checkAdminStatus. simpl.
    repeat constructor; unfold render; simpl; by repeat case_match.
Qed.

Lemma no_data_no_protected st :
  adminData st = None → render st ≠ ProtectedRoutes.
Proof.
  intros Hdata. unfold render. rewrite Hdata.
  destruct (loading st || isCheckingAdmin st); [done|]. by destruct (user st).
Qed.

(** X15: on a page that holds no administrator data, as at start, a whole
    session in which nobody who signs in has an administrator record never
    renders the protected routes, whether the lookups are answered or
    not. *)
Theorem X15_no_record_no_protected_view
    (admins : gmap string Firestore.AdminDoc) changes st :
  adminData st = None →
  (∀ uid e, (Some uid, e) ∈ changes → admins !! uid = None) →
  Forall (λ st', render st' ≠ ProtectedRoutes) (session admins changes st).
Proof.
  revert st. induction changes as [|[u e] changes IH]; intros st Hdata Hnone.
  - constructor.
  - assert (Hframes : Forall (λ st', render st' ≠ ProtectedRoutes
                                     ∧ adminData st' = None)
                        (authChange e admins u st)).
    { apply authChange_no_record; [done|]. intros uid ->.
      apply (Hnone uid e), list_elem_of_here. }
    cbn [session]. apply Forall_app. split.
    + eapply Forall_impl; [|exact Hframes]. by intros ? [? _].
    + apply IH.
      * apply (Forall_last (λ st', render st' ≠ ProtectedRoutes
                                   ∧ adminData st' = None)
                 _ st Hframes).
        split; [by apply no_data_no_protected|done].
      * intros uid e' Hin. apply (Hnone uid e'). by apply list_elem_of_further.
Qed.

(** X15 on a fresh page where [B] signs in, out and in again. *)
Lemma X15_no_record_no_protected_view_witness :
  Forall (λ st', render st' ≠ ProtectedRoutes)
    (session Samples.onlyA
       [(Some "B", None); (None, None); (Some "B", Some Samples.offline)]
       initial).
Proof.
  apply X15_no_record_no_protected_view; [reflexivity|].
  intros uid e Hin. apply list_elem_of_In in Hin. simpl in Hin.
  destruct Hin as [[= <- _]|[[=]|[[= <- _]|[]]]]; reflexivity.
Defined.

Lemma runTicks_cons (admins : gmap string Firestore.AdminDoc) t ticks sh :
  runTicks admins (t :: ticks) sh =
    ((step admins t sh).1 ++ (runTicks admins ticks (step admins t sh).2).1,
     (runTicks admins ticks (step admins t sh).2).2).
Proof. done. Qed.

Lemma runTicks_app (admins : gmap string Firestore.AdminDoc) ts1 ts2 sh :
  runTicks admins (ts1 ++ ts2) sh =
    ((runTicks admins ts1 sh).1 ++
     (runTicks admins ts2 (runTicks admins ts1 sh).2).1,
     (runTicks admins ts2 (runTicks admins ts1 sh).2).2).
Proof.
  revert sh. induction ts1 as [|t ts1 IH]; intros sh.
  - simpl. by destruct (runTicks admins ts2 sh).
  - rewrite <- app_comm_cons, !runTicks_cons, IH. simpl.
    by rewrite app_assoc.
Qed.

Lemma last_cons_default {A} (a : A) l d : List.last (a :: l) d = List.last l a.
Proof.
  revert a d. induction l as [|b l IH]; intros a d; [done|].
  change (List.last (a :: b :: l) d) with (List.last (b :: l) d).
  by rewrite !IH.
Qed.

Lemma last_app_default {A} (l1 l2 : list A) d :
  List.last (l1 ++ l2) d = List.last l2 (List.last l1 d).
Proof.
  revert d. induction l1 as [|a l1 IH]; intros d; [done|].
  by rewrite <- app_comm_cons, !last_cons_default, IH.
Qed.

(** A session whose checks take their turn is [authChange] after
    [authChange]: the frames are the same, and no check is left in
    flight. *)
Lemma authChange_in_turn (admins : gmap string Firestore.AdminDoc) u e st :
  runTicks admins [UserChanged u; Settled 0 e; Settled 0 None]
    {| view := st; pending := [] |} =
  (authChange e admins u st,
   {| view := List.last (authChange e admins u st) st; pending := [] |}).
Proof.
  unfold authChange, checkAdminStatus.
  destruct u as [uid|]; simpl; [|done].
  destruct e as [e|]; simpl; [done|].
  by destruct (admins !! uid).
Qed.

Lemma session_in_turn (admins : gmap string Firestore.AdminDoc) changes st :
  runTicks admins (inTurn changes) {| view := st; pending := [] |} =
  (session admins changes st,
   {| view := List.last (session admins changes st) st; pending := [] |}).
Proof.
  revert st. induction changes as [|[u e] changes IH]; intros st; [done|].
  change (inTurn ((u, e) :: changes)) with
    ([UserChanged u; Settled 0 e; Settled 0 None] ++ inTurn changes).
  rewrite runTicks_app, authChange_in_turn. cbn [fst snd]. rewrite IH.
  cbn [session fst snd]. f_equal. f_equal.
  by rewrite last_app_default.
Qed.







(** X17: the shell never clears the administrator data it holds: once a
    state of a session holds data, every later state does, through any
    sign-out and any sign-in. *)
Theorem X17_admin_data_is_never_cleared
    (admins : gmap string Firestore.AdminDoc) changes st :
  is_Some (adminData st) →
  Forall (λ st', is_Some (adminData st')) (session admins changes st).
Proof.
  revert st. induction changes as [|[u e] changes IH]; intros st Hst.
  - constructor.
  - assert (Hframes : Forall (λ st', is_Some (adminData st'))
                        (authChange e admins u st)).
    { unfold authChange, checkAdminStatus. simpl.
      destruct u as [uid|]; [destruct e; [|destruct (admins !! uid)]|];
        repeat constructor; simpl; done. }
    cbn [session]. apply Forall_app. split; [done|].
    apply IH. by apply Forall_last.
Qed.

(** X17 on [A] signing in and out, then [B] signing in. *)
Lemma X17_admin_data_is_never_cleared_witness :
  let st := List.last (authChange None Samples.onlyA (Some "A") initial)
              initial in
  Forall (λ st', is_Some (adminData st'))
    (session Samples.onlyA [(None, None); (Some "B", None)] st).
Proof.
  intros st. apply X17_admin_data_is_never_cleared. by eexists.
Defined.

End app_shell_more.

(** ** Application shell: checks that overlap *)
Section app_shell_overlap.
Import App.

(** X26: an answer that arrives late acts on the session it finds.  When
    [a] signs in and, before the lookup for [a] is answered, [c] signs in
    and is checked, the answer for [a] puts the record of [a] into the
    shell while [c] is the signed-in user: the protected routes are shown
    to [c] under the record of [a].  And when [b], who has no
    administrator record, signs in and administrator [a] signs in and is
    admitted before the lookup for [b] is answered, the check for [b]
    signs [a] out. *)
Theorem X26_late_answers (admins : gmap string Firestore.AdminDoc)
    a b c da dc sh :
  admins !! a = Some da →
  admins !! c = Some dc →
  admins !! b = None →
  pending sh = [] →
  let late :=
    (runTicks admins [UserChanged (Some a); UserChanged (Some c);
                      Settled 1 None; Settled 0 None] sh).2 in
  let out :=
    runTicks admins [UserChanged (Some b); UserChanged (Some a);
                     Settled 1 None; Settled 0 None; Settled 0 None] sh in
  (pending late = [] ∧ user (view late) = Some c ∧
   adminData (view late) = Some da ∧
   render (view late) = ProtectedRoutes) ∧
  (pending out.2 = [] ∧ user (view out.2) = None ∧
   render (view out.2) = AuthRoutes ∧
   ∃ st, st ∈ out.1 ∧ render st = ProtectedRoutes ∧ user st = Some a ∧
         adminData st = Some da).
Proof.
  intros Ha Hc Hb Hp late out. destruct sh as [st p]. simpl in Hp. subst p.
  unfold late, out. simpl. rewrite Hc, Ha. simpl. rewrite Ha, Hb. simpl.
  split; [done|]. split_and!; try done.
  eexists. split.
  - do 4 apply list_elem_of_further. apply list_elem_of_here.
  - by split_and!.
Qed.

(** X26 with administrators [A] and [C], and [B] who has no record. *)
Lemma X26_late_answers_witness :
  let sh := {| view := initial; pending := [] |} in
  let late :=
    (runTicks Samples.bothAC [UserChanged (Some "A"); UserChanged (Some "C");
                              Settled 1 None; Settled 0 None] sh).2 in
  user (view late) = Some "C" ∧
  adminData (view late) = Some Samples.adminDoc ∧
  Samples.bothAC !! "C" = Some Samples.adminDocC ∧
  render (view late) = ProtectedRoutes.
Proof.
  intros sh late.
  destruct (X26_late_answers Samples.bothAC "A" "B" "C" Samples.adminDoc
              Samples.adminDocC sh eq_refl eq_refl eq_refl eq_refl)
    as [(_ & Huser & Hdata & Hrender) _].
  split; [exact Huser|]. split; [exact Hdata|].
  split; [reflexivity|exact Hrender].
Defined.

Lemma elem_of_list_insert_inv {A} (l : list A) k x y :
  x ∈ <[k := y]> l → x = y ∨ x ∈ l.
Proof.
  intros [j Hj]%list_elem_of_lookup.
  apply list_lookup_insert_Some in Hj as [(-> & -> & _)|(_ & Hj)].
  - by left.
  - right. by eapply list_elem_of_lookup_2.
Qed.

Lemma step_keeps_data (admins : gmap string Firestore.AdminDoc) t sh :
  is_Some (adminData (view sh)) →
  Forall (λ st, is_Some (adminData st)) (step admins t sh).1 ∧
  is_Some (adminData (view (step admins t sh).2)).
Proof.
  intros Hdata. destruct t as [[uid|]|k e]; simpl.
  - by repeat constructor.
  - by repeat constructor.
  - destruct (pending sh !! k) as [[uid|]|]; [| |by split; [constructor|]].
    + destruct e as [e|]; [by repeat constructor|].
      destruct (admins !! uid); simpl; [|by split; [constructor|]].
      split; [|by eexists]. repeat constructor. by eexists.
    + destruct e as [e|]; by repeat constructor.
Qed.

Lemma step_no_record (admins : gmap string Firestore.AdminDoc) t sh :
  adminData (view sh) = None →
  (∀ uid, AwaitGetDoc uid ∈ pending sh → admins !! uid = None) →
  (∀ uid, t = UserChanged (Some uid) → admins !! uid = None) →
  Forall (λ st, adminData st = None) (step admins t sh).1 ∧
  adminData (view (step admins t sh).2) = None ∧
  (∀ uid, AwaitGetDoc uid ∈ pending (step admins t sh).2 →
          admins !! uid = None).
Proof.
  intros Hdata Hpend Ht. destruct t as [[uid|]|k e]; simpl.
  - split_and!; [by repeat constructor|done|].
    intros uid' [Hin|Hin%list_elem_of_singleton]%elem_of_app.
    + by apply Hpend.
    + injection Hin as ->. by apply Ht.
  - split_and!; [by repeat constructor|done|done].
  - destruct (pending sh !! k) as [[uid|]|] eqn:Hk;
      [| |by split_and!; [constructor|..]].
    + assert (Hnone : admins !! uid = None)
        by (apply Hpend; by eapply list_elem_of_lookup_2).
      rewrite Hnone.
      destruct e as [e|]; simpl.
      * split_and!; [by repeat constructor|done|].
        intros uid' Hin. apply Hpend.
        eapply elem_of_sublist; [exact Hin|apply sublist_delete].
      * split_and!; [constructor|done|].
        intros uid' [Hin|Hin]%elem_of_list_insert_inv; [done|].
        by apply Hpend.
    + destruct e as [e|]; simpl;
        (split_and!; [by repeat constructor|done|]);
        intros uid' Hin; apply Hpend;
        (eapply elem_of_sublist; [exact Hin|apply sublist_delete]).
Qed.

(** X27: what holds however the checks overlap.  Through any run of user
    changes and answers, in any order: the shell never clears the
    administrator data it holds; and on a shell that holds none, as long
    as nobody who signs in, or whose check is in flight, has an
    administrator record, the protected routes are never rendered. *)
Theorem X27_overlapping_checks (admins : gmap string Firestore.AdminDoc)
    ticks sh :
  let r := runTicks admins ticks sh in
  (is_Some (adminData (view sh)) →
   Forall (λ st, is_Some (adminData st)) r.1 ∧
   is_Some (adminData (view r.2))) ∧
  (adminData (view sh) = None →
   (∀ uid, AwaitGetDoc uid ∈ pending sh → admins !! uid = None) →
   (∀ uid, UserChanged (Some uid) ∈ ticks → admins !! uid = None) →
   Forall (λ st, render st ≠ ProtectedRoutes) r.1 ∧
   render (view r.2) ≠ ProtectedRoutes ∧
   adminData (view r.2) = None).
Proof.
  simpl. split.
  - revert sh. induction ticks as [|t ticks IH]; intros sh Hdata.
    + by split; [constructor|].
    + rewrite runTicks_cons. simpl.
      destruct (step_keeps_data admins t sh Hdata) as [Hframes Hnext].
      destruct (IH _ Hnext) as [Hrest Hend].
      split; [by apply Forall_app|done].
  - revert sh. induction ticks as [|t ticks IH]; intros sh Hdata Hpend Hticks.
    + split_and!; [constructor| |done]. by apply no_data_no_protected.
    + rewrite runTicks_cons. simpl.
      destruct (step_no_record admins t sh Hdata Hpend)
        as (Hframes & Hnext & Hpend').
      { intros uid ->. apply Hticks, list_elem_of_here. }
      destruct (IH _ Hnext Hpend') as (Hrest & Hend & Hnone).
      { intros uid Hin. by apply Hticks, list_elem_of_further. }
      split_and!; [|done|done].
      apply Forall_app. split; [|done].
      eapply list.Forall_impl; [exact Hframes|].
      intros st Hst. by apply no_data_no_protected.
Qed.

(** X27 on a fresh page where [B] and [D], neither with a record, sign in
    one after the other and their checks end out of order. *)
Lemma X27_overlapping_checks_witness :
  Forall (λ st, render st ≠ ProtectedRoutes)
    (runTicks Samples.onlyA
       [UserChanged (Some "B"); UserChanged (Some "D");
        Settled 1 (Some Samples.offline); Settled 0 None; Settled 0 None]
       {| view := initial; pending := [] |}).1.
Proof.
  refine (proj1 (proj2 (X27_overlapping_checks Samples.onlyA
                          [UserChanged (Some "B"); UserChanged (Some "D");
                           Settled 1 (Some Samples.offline); Settled 0 None;
                           Settled 0 None]
                          {| view := initial; pending := [] |})
                   eq_refl _ _)).
  - intros uid Hin. apply list_elem_of_In in Hin. destruct Hin.
  - intros uid Hin. apply list_elem_of_In in Hin. simpl in Hin.
    destruct Hin as [[= <-]|[[= <-]|[[=]|[[=]|[[=]|[]]]]]]; reflexivity.
Defined.

End app_shell_overlap.

(** ** Prompt editor *)

Ltac asv :=
  unfold mret, Async_ret, mbind, Async_bind, throw, try_catch, finally,
    AgentSettingsView.console_error, AgentSettingsView.toast_error,
    AgentSettingsView.toast_success, AgentSettingsView.navigate,
    AgentSettingsView.emit.

Ltac asv_view :=
  unfold AgentSettingsView.setIsSaving, AgentSettingsView.setIsLoading,
    AgentSettingsView.setSkeleton, AgentSettingsView.setCategory,
    AgentSettingsView.setGeneralPrompt, AgentSettingsView.withView.

Section agent_settings.
Import Prompts AgentSettingsView.

Lemma asv_logged_nil w : logged [] w = w.
Proof. destruct w. unfold logged. simpl. by rewrite app_nil_r. Qed.

Lemma asv_logged_logged es1 es2 w :
  logged es2 (logged es1 w) = logged (es1 ++ es2) w.
Proof. unfold logged. simpl. by rewrite app_assoc. Qed.

Lemma llmLoop_spec env prompt docs k failed w :
  llmLoop env prompt docs k failed w =
    (inr (failed ++ loopFailed env docs k),
     logged (loopEvents env prompt docs k) w).
Proof.
  revert k failed w. induction docs as [|[i a] docs IH]; intros k failed w.
  - simpl. asv. by rewrite app_nil_r, asv_logged_nil.
  - simpl. destruct (nonEmpty (llmId a)) as [l|]; [|apply IH].
    destruct (llm_update_ok env k l); asv; rewrite IH, asv_logged_logged.
    + done.
    + by rewrite <- app_assoc.
Qed.

(** The console line that sums up the failures, if there are any. *)
Lemma toasts_app es1 es2 : toasts (es1 ++ es2) = toasts es1 ++ toasts es2.
Proof. apply omap_app. Qed.

Lemma llmCalls_app es1 es2 :
  llmCalls (es1 ++ es2) = llmCalls es1 ++ llmCalls es2.
Proof. apply omap_app. Qed.

Lemma loopEvents_toasts env prompt docs k :
  toasts (loopEvents env prompt docs k) = [].
Proof.
  revert k. induction docs as [|[i a] docs IH]; intros k; [done|].
  simpl. destruct (nonEmpty (llmId a)) as [l|]; [|apply IH].
  rewrite toasts_app, IH. by destruct (llm_update_ok env k l).
Qed.

(** The run of [updateRetellLLMs] once the client exists and the query is
    answered. *)
Lemma updateRetellLLMs_spec env v c w :
  loadedCategory v = Some c →
  retell_error env = None →
  getDocs_error env = None →
  let docs := filter (λ a, categoryId a.2 = Some c) (agents w) in
  updateRetellLLMs env v w =
    (inr (loopFailed env docs 0),
     logged
       (QueryAgents c true :: loopEvents env (generalPrompt v) docs 0 ++
        if bool_decide (0 < length (loopFailed env docs 0))
        then [Notify (ConsoleError ("Failed to update some LLMs: "
                ++ String.concat ", " (loopFailed env docs 0)))]
        else []) w).
Proof.
  intros Hc Hclient Hdocs docs. unfold updateRetellLLMs.
  unfold loadedCategory in Hc. rewrite Hc, Hclient.
  unfold try_catch, mbind at 1, Async_bind at 1, queryAgents.
  rewrite Hdocs. unfold mbind at 1, Async_bind at 1.
  cbn [agents logged]. fold docs. rewrite llmLoop_spec.
  rewrite asv_logged_logged. cbn [app].
  case_bool_decide; asv.
  - by rewrite asv_logged_logged.
  - by rewrite app_nil_r.
Qed.

End agent_settings.

Section agent_settings2.
Import Prompts AgentSettingsView.

(** The handler follows its closed form on every path. *)
Lemma handleSave_run env id i v w :
  nonEmpty id = Some i →
  is_Some (skeleton v) →
  run (handleSave env id v) w = saveOutcome env i v w.
Proof.
  intros Hid [s Hs]. unfold run, handleSave, saveOutcome, saveEvents.
  rewrite Hid, Hs. destruct w as [sk ca ag c es vw].
  unfold finally at 1. unfold try_catch at 1.
  unfold mbind at 1 2, Async_bind at 1 2.
  unfold setIsSaving at 1, withView at 1. unfold updateSkeleton.
  cbn [skeletons categories agents clock events view].
  destruct (updateDoc_error env) as [e|];
    [asv; asv_view; unfold logged; simpl; by rewrite <- !app_assoc|].
  destruct (sk !! i) as [d|] eqn:Hd;
    [|asv; asv_view; unfold logged; simpl; by rewrite <- !app_assoc].
  unfold try_catch at 1. unfold mbind at 1, Async_bind at 1.
  destruct (loadedCategory v) as [c'|] eqn:Hc.
  2:{ unfold updateRetellLLMs. unfold loadedCategory in Hc. rewrite Hc.
      asv. asv_view. unfold logged. simpl. by rewrite <- !app_assoc. }
  destruct (retell_error env) as [e|] eqn:Hclient.
  { unfold updateRetellLLMs. unfold loadedCategory in Hc. rewrite Hc, Hclient.
    asv. asv_view. unfold logged. simpl. by rewrite <- !app_assoc. }
  destruct (getDocs_error env) as [e|] eqn:Hdocs.
  { unfold updateRetellLLMs. unfold loadedCategory in Hc. rewrite Hc, Hclient.
    unfold queryAgents. rewrite Hdocs.
    asv. asv_view. unfold logged. simpl. by rewrite <- !app_assoc. }
  rewrite (updateRetellLLMs_spec _ _ _ _ Hc Hclient Hdocs).
  asv. asv_view. unfold logged, agentsOf, failureSummary. simpl.
  f_equal. rewrite <- !app_assoc. simpl. by rewrite <- !app_assoc.
Qed.

End agent_settings2.

Section agent_settings3.
Import Prompts AgentSettingsView.

Lemma asv_newEvents_outcome env i v w :
  newEvents w (saveOutcome env i v w) = saveEvents env i v w.
Proof. unfold newEvents, saveOutcome. simpl. apply drop_app_length. Qed.

Lemma failureSummary_toasts failed : toasts (failureSummary failed) = [].
Proof. unfold failureSummary. by case_bool_decide. Qed.

(** X18: a save of the prompt editor shows exactly one toast, and which
    one is settled by the store, the provider client and the agents query
    alone: once the skeleton write, the client and the query went through,
    the success toast is shown however many LLM updates were rejected. *)
Theorem X18_prompt_save_verdict env id i v w :
  nonEmpty id = Some i →
  is_Some (skeleton v) →
  let new := newEvents w (run (handleSave env id v) w) in
  toasts new = [verdict env i v w] ∧
  (updateDoc_error env = None → is_Some (skeletons w !! i) →
   retell_error env = None → getDocs_error env = None →
   toasts new = [saveSuccess]).
Proof.
  intros Hid Hs new.
  assert (Hnew : toasts new = [verdict env i v w]).
  { unfold new. rewrite (handleSave_run _ _ _ _ _ Hid Hs), asv_newEvents_outcome.
    unfold saveEvents, verdict.
    destruct (updateDoc_error env); [done|].
    destruct (skeletons w !! i); [|done].
    destruct (loadedCategory v) as [c|]; [|done].
    destruct (retell_error env); [done|].
    destruct (getDocs_error env); [done|].
    change (toasts (?a :: ?b :: ?l)) with (toasts l).
    by rewrite !toasts_app, loopEvents_toasts, failureSummary_toasts. }
  split; [done|]. intros Hwrite [d Hd] Hclient Hdocs.
  rewrite Hnew. unfold verdict. rewrite Hwrite, Hd, Hclient, Hdocs.
  by destruct (loadedCategory v).
Qed.

End agent_settings3.

Section agent_settings4.
Import Prompts AgentSettingsView.

(** X18 with every LLM update rejected: the toast is the success toast. *)
Lemma X18_prompt_save_verdict_witness :
  toasts (newEvents Cases.editorWorld
            (run (handleSave Cases.envLlmDown (Some "sk1") Cases.edited)
               Cases.editorWorld))
  = [saveSuccess].
Proof.
  assert (Hs : is_Some (skeleton Cases.edited)) by (by eexists).
  assert (Hd : is_Some (skeletons Cases.editorWorld !! "sk1"))
    by (by eexists).
  exact (proj2 (X18_prompt_save_verdict Cases.envLlmDown (Some "sk1") "sk1"
                  Cases.edited Cases.editorWorld eq_refl Hs)
           eq_refl Hd eq_refl eq_refl).
Defined.

(** X19: a save writes the typed prompt, and only that: once the skeleton
    write is accepted, whatever happens afterwards, the document holds the
    new prompt under the old model, configuration and category, stamped
    with the server time; every other skeleton, every category and every
    agent record is as before.  When the write is rejected, or the
    document is gone, nothing changes and nothing else is attempted. *)
Theorem X19_prompt_write env id i v w :
  nonEmpty id = Some i →
  is_Some (skeleton v) →
  let w' := run (handleSave env id v) w in
  categories w' = categories w ∧ agents w' = agents w ∧
  (∀ j, j ≠ i → skeletons w' !! j = skeletons w !! j) ∧
  isSaving (view w') = false ∧
  match updateDoc_error env, skeletons w !! i with
  | None, Some d =>
      ∃ d', skeletons w' !! i = Some d' ∧
            (general_prompt <$> llm_configurations d') = Some (generalPrompt v) ∧
            llm_configurations d' ≫= model = llm_configurations d ≫= model ∧
            agent_configurations d' = agent_configurations d ∧
            category_id d' = category_id d ∧
            updatedAt d' = Some (clock w)
  | _, _ =>
      skeletons w' = skeletons w ∧
      newEvents w w' =
        [UpdateSkeleton i false;
         Notify (ConsoleError "Error updating agent prompt:");
         Notify saveFailure]
  end.
Proof.
  intros Hid Hs w'. unfold w'.
  rewrite (handleSave_run _ _ _ _ _ Hid Hs), asv_newEvents_outcome.
  unfold saveOutcome, saveEvents. simpl.
  destruct (updateDoc_error env) as [e|]; [by split_and!|].
  destruct (skeletons w !! i) as [d|] eqn:Hd; [|by split_and!].
  split_and!; try done.
  - intros j Hj. by rewrite lookup_insert_ne.
  - eexists. rewrite lookup_insert_eq. by split_and!.
Qed.

(** X19 on the sample editor. *)
Lemma X19_prompt_write_witness :
  let w' := run (handleSave Cases.envLlmDown (Some "sk1") Cases.edited)
              Cases.editorWorld in
  ∃ d', skeletons w' !! "sk1" = Some d' ∧
        llm_configurations d' =
          Some {| general_prompt := "new prompt"; model := Some "gpt-4o" |}.
Proof.
  intros w'.
  assert (Hs : is_Some (skeleton Cases.edited)) by (by eexists).
  destruct (X19_prompt_write Cases.envLlmDown (Some "sk1") "sk1"
              Cases.edited Cases.editorWorld eq_refl Hs)
    as (_ & _ & _ & _ & d' & Hd' & _).
  exists d'. split; [exact Hd'|].
  vm_compute in Hd'. injection Hd' as <-. reflexivity.
Defined.

(** The ids with a rejected update, read off the provider's answers. *)
Lemma rejected_llm_ids (ok : nat → string → bool) ids l :
  l ∈ (filter (λ a, a.2 = false) (imap (λ k l, (l, ok k l)) ids)).*1 ↔
  ∃ k, ids !! k = Some l ∧ ok k l = false.
Proof.
  rewrite list_elem_of_fmap. split.
  - intros ([l' b] & -> & Hin). apply list_elem_of_filter in Hin as [Hb Hin].
    apply elem_of_lookup_imap in Hin as (k & y & [= -> ->] & Hk).
    by exists k.
  - intros (k & Hk & Hb). exists (l, ok k l). split; [done|].
    apply list_elem_of_filter. split; [done|].
    apply (elem_of_lookup_imap_2 (λ k l, (l, ok k l)) _ _ _ Hk).
Qed.

Lemma loopEvents_calls env prompt docs k :
  (llmCalls (loopEvents env prompt docs k)).*1 =
  (λ l, (l, prompt)) <$> omap (λ a, nonEmpty (llmId a.2)) docs.
Proof.
  revert k. induction docs as [|[i a] docs IH]; intros k; [done|].
  simpl. destruct (nonEmpty (llmId a)) as [l|]; [|apply IH].
  rewrite llmCalls_app, fmap_app, IH.
  by destruct (llm_update_ok env k l).
Qed.

Lemma loopFailed_calls env prompt docs k :
  loopFailed env docs k =
  (filter (λ c, c.2 = false) (llmCalls (loopEvents env prompt docs k))).*1.*1.
Proof.
  revert k. induction docs as [|[i a] docs IH]; intros k; [done|].
  simpl. destruct (nonEmpty (llmId a)) as [l|]; [|apply IH].
  rewrite llmCalls_app, list.filter_app, !fmap_app, <- IH.
  by destruct (llm_update_ok env k l).
Qed.

(** Each update is logged with the answer the provider gives to it. *)
Lemma loopEvents_answers env prompt docs k :
  llmCalls (loopEvents env prompt docs k) =
  imap (λ n l, (l, prompt, llm_update_ok env (k + n) l))
    (omap (λ a, nonEmpty (llmId a.2)) docs).
Proof.
  revert k. induction docs as [|[i a] docs IH]; intros k; [done|].
  simpl. destruct (nonEmpty (llmId a)) as [l|]; [|apply IH].
  rewrite llmCalls_app, IH, imap_cons, Nat.add_0_r.
  replace (llmCalls (if llm_update_ok env k l then _ else _)) with
    [(l, prompt, llm_update_ok env k l)]
    by by destruct (llm_update_ok env k l).
  simpl. f_equal. apply imap_ext. intros n x _. simpl.
  by rewrite Nat.add_succ_r.
Qed.

Lemma loopFailed_answers env docs k :
  loopFailed env docs k =
  (filter (λ c, c.2 = false)
     (imap (λ n l, (l, llm_update_ok env (k + n) l))
        (omap (λ a, nonEmpty (llmId a.2)) docs))).*1.
Proof.
  revert k. induction docs as [|[i a] docs IH]; intros k; [done|].
  simpl. destruct (nonEmpty (llmId a)) as [l|]; [|apply IH].
  rewrite imap_cons, Nat.add_0_r.
  rewrite (imap_ext _ (λ n l0, (l0, llm_update_ok env (S k + n) l0)))
    by (intros n x _; simpl; by rewrite Nat.add_succ_r).
  rewrite IH.
  rewrite filter_cons. simpl.
  by destruct (llm_update_ok env k l).
Qed.

(** X20: once the skeleton write, the client and the agents query went
    through, the save issues exactly one LLM update, carrying the typed
    prompt, for each agent of the loaded skeleton's category that has an
    LLM id, in the order of the query, and none for any other agent; each
    is logged with the provider's own answer to it, so a rejected update
    never stops the later ones; and the failure list [updateRetellLLMs]
    collects is the ids of the updates the provider rejected, in call
    order, which the console summary names. *)
Theorem X20_llm_updates env id i v c w :
  nonEmpty id = Some i →
  is_Some (skeleton v) →
  loadedCategory v = Some c →
  updateDoc_error env = None →
  is_Some (skeletons w !! i) →
  retell_error env = None →
  getDocs_error env = None →
  let new := newEvents w (run (handleSave env id v) w) in
  let ids := llmIdsOf c (agents w) in
  llmCalls new =
    imap (λ k l, (l, generalPrompt v, llm_update_ok env k l)) ids ∧
  (llmCalls new).*1 = (λ l, (l, generalPrompt v)) <$> ids ∧
  ∃ failedUpdates,
    (∀ w0, agents w0 = agents w →
           (updateRetellLLMs env v w0).1 = inr failedUpdates) ∧
    failedUpdates =
      (filter (λ a, a.2 = false)
         (imap (λ k l, (l, llm_update_ok env k l)) ids)).*1 ∧
    (∀ l, l ∈ failedUpdates ↔
          ∃ k, ids !! k = Some l ∧ llm_update_ok env k l = false) ∧
    failedUpdates = (filter (λ r, r.2 = false) (llmCalls new)).*1.*1 ∧
    (failedUpdates ≠ [] →
     Notify (ConsoleError ("Failed to update some LLMs: "
                           ++ String.concat ", " failedUpdates)) ∈ new).
Proof.
  intros Hid Hs Hc Hwrite [d Hd] Hclient Hdocs new ids.
  assert (Hevents : new =
            UpdateSkeleton i true :: QueryAgents c true ::
            loopEvents env (generalPrompt v) (agentsOf c w) 0 ++
            failureSummary (loopFailed env (agentsOf c w) 0) ++
            [Notify saveSuccess]).
  { unfold new.
    rewrite (handleSave_run _ _ _ _ _ Hid Hs), asv_newEvents_outcome.
    unfold saveEvents. by rewrite Hwrite, Hd, Hc, Hclient, Hdocs. }
  assert (Hnew : llmCalls new =
            llmCalls (loopEvents env (generalPrompt v) (agentsOf c w) 0)).
  { rewrite Hevents.
    change (llmCalls (?a :: ?b :: ?l)) with (llmCalls l).
    rewrite !llmCalls_app.
    replace (llmCalls (failureSummary _)) with (@nil (string * string * bool))
      by (unfold failureSummary; by case_bool_decide).
    simpl. by rewrite app_nil_r. }
  split_and!.
  - by rewrite Hnew, loopEvents_answers.
  - by rewrite Hnew, loopEvents_calls.
  - exists (loopFailed env (agentsOf c w) 0). split_and!.
    + intros w0 Hw0. rewrite (updateRetellLLMs_spec _ _ _ _ Hc Hclient Hdocs).
      simpl. unfold agentsOf. by rewrite Hw0.
    + by rewrite loopFailed_answers.
    + intros l. rewrite loopFailed_answers. apply rejected_llm_ids.
    + rewrite Hnew. apply loopFailed_calls.
    + intros Hsome. rewrite Hevents.
      apply list_elem_of_further, list_elem_of_further.
      rewrite !elem_of_app. right. left. unfold failureSummary.
      rewrite bool_decide_true; [apply list_elem_of_here|].
      destruct (loopFailed env (agentsOf c w) 0); [done|simpl; lia].
Qed.

(** X20 on four agents, the provider rejecting the first update only: two
    calls, the second one accepted, and [llm1] alone on the failure
    list. *)
Lemma X20_llm_updates_witness :
  let new := newEvents Cases.editorWorld
               (run (handleSave Cases.envFirstLlmDown (Some "sk1")
                       Cases.edited) Cases.editorWorld) in
  llmCalls new =
    [("llm1", "new prompt", false); ("llm4", "new prompt", true)] ∧
  (updateRetellLLMs Cases.envFirstLlmDown Cases.edited Cases.editorWorld).1
    = inr ["llm1"] ∧
  Notify (ConsoleError "Failed to update some LLMs: llm1") ∈ new.
Proof.
  intros new.
  assert (Hs : is_Some (skeleton Cases.edited)) by (by eexists).
  assert (Hd : is_Some (skeletons Cases.editorWorld !! "sk1"))
    by (by eexists).
  destruct (X20_llm_updates Cases.envFirstLlmDown (Some "sk1") "sk1"
              Cases.edited "childhood" Cases.editorWorld
              eq_refl Hs eq_refl eq_refl Hd eq_refl eq_refl)
    as (Hcalls & _ & failed & Hrun & Hfailed & _ & _ & Hline).
  split; [exact Hcalls|].
  assert (Hl : failed = ["llm1"]) by (rewrite Hfailed; reflexivity).
  split; [rewrite (Hrun _ eq_refl); by rewrite Hl|].
  rewrite Hl in Hline. apply Hline. discriminate.
Defined.

End agent_settings4.

Section agent_settings5.
Import Prompts AgentSettingsView.

Ltac run_fetch :=
  unfold run, fetchData, getSkeleton, getCategory; asv; asv_view;
  unfold logged; simpl.

(** What a load takes over from a skeleton that has its LLM block. *)
Lemma fetchData_prompt env id i d l w :
  nonEmpty id = Some i →
  getSkeleton_error env = None →
  skeletons w !! i = Some d →
  llm_configurations d = Some l →
  let w' := run (fetchData env id) w in
  generalPrompt (view w') = general_prompt l ∧
  skeleton (view w') = Some (i, d) ∧
  isLoading (view w') = false.
Proof.
  intros Hid Hget Hd Hl. run_fetch. rewrite Hid. simpl.
  rewrite Hget. simpl. rewrite Hd. simpl. rewrite Hl. simpl.
  destruct (nonEmpty (category_id d)) as [c|]; simpl; [|done].
  destruct (getCategory_error env); simpl; [done|].
  by destruct (categories w !! c).
Qed.

(** X21: a prompt saved through the editor and loaded again comes back as
    typed: once the skeleton write went through, whatever the provider did
    afterwards, a load whose skeleton read is answered puts the saved
    prompt into the text field and holds the updated document. *)
Theorem X21_prompt_round_trip envS envF id i v w :
  nonEmpty id = Some i →
  is_Some (skeleton v) →
  updateDoc_error envS = None →
  is_Some (skeletons w !! i) →
  getSkeleton_error envF = None →
  let w1 := run (handleSave envS id v) w in
  let w2 := run (fetchData envF id) w1 in
  generalPrompt (view w2) = generalPrompt v ∧
  ∃ d', skeletons w1 !! i = Some d' ∧ skeleton (view w2) = Some (i, d').
Proof.
  intros Hid Hs Hwrite [d Hd] Hget w1 w2.
  assert (Hw1 : skeletons w1 !! i
                = Some (promptUpdate (generalPrompt v) (clock w) d)).
  { unfold w1. rewrite (handleSave_run _ _ _ _ _ Hid Hs).
    unfold saveOutcome. simpl. by rewrite Hwrite, Hd, lookup_insert_eq. }
  destruct (fetchData_prompt envF id i _ _ w1 Hid Hget Hw1 eq_refl)
    as (Hprompt & Hskel & _).
  split; [exact Hprompt|]. eexists. by split.
Qed.

(** X21 on the sample editor. *)
Lemma X21_prompt_round_trip_witness :
  generalPrompt
    (view (run (fetchData Cases.envLlmDown (Some "sk1"))
             (run (handleSave Cases.envLlmDown (Some "sk1") Cases.edited)
                Cases.editorWorld)))
  = "new prompt".
Proof.
  assert (Hs : is_Some (skeleton Cases.edited)) by (by eexists).
  assert (Hd : is_Some (skeletons Cases.editorWorld !! "sk1"))
    by (by eexists).
  exact (proj1 (X21_prompt_round_trip Cases.envLlmDown Cases.envLlmDown
                  (Some "sk1") "sk1" Cases.edited Cases.editorWorld
                  eq_refl Hs eq_refl Hd eq_refl)).
Defined.

(** X22: after the load of a freshly mounted editor the spinner is gone
    exactly when the skeleton was read, has its LLM block and names a
    category, and that category was read too.  A skeleton whose category
    document does not exist leaves the spinner up without any toast; a
    missing skeleton is answered with a toast and the way back to the
    list. *)
Theorem X22_editor_ready env id i w :
  nonEmpty id = Some i →
  view w = initial →
  let w' := run (fetchData env id) w in
  isLoading (view w') = false ∧
  (ready (view w') = true ↔
   getSkeleton_error env = None ∧ getCategory_error env = None ∧
   ∃ d c, skeletons w !! i = Some d ∧ is_Some (llm_configurations d) ∧
          nonEmpty (category_id d) = Some c ∧ is_Some (categories w !! c)) ∧
  (getSkeleton_error env = None → getCategory_error env = None →
   ∀ d c, skeletons w !! i = Some d → is_Some (llm_configurations d) →
          nonEmpty (category_id d) = Some c → categories w !! c = None →
          ready (view w') = false ∧ toasts (newEvents w w') = []) ∧
  (getSkeleton_error env = None → skeletons w !! i = None →
   newEvents w w' =
     [GetSkeleton i true; Notify (ToastError "Agent settings not found");
      Navigate "/prompts"]).
Proof.
  intros Hid Hview w'. unfold w', newEvents. run_fetch.
  rewrite Hid, Hview. simpl.
  destruct (getSkeleton_error env) as [e|]; simpl.
  { split_and!; try done. split; [done|]. by intros ([=] & _). }
  destruct (skeletons w !! i) as [d|] eqn:Hd; simpl.
  2:{ split_and!; try done.
      - split; [done|]. by intros (_ & _ & ? & ? & [=] & _).
      - intros _ _. by rewrite <- !app_assoc, drop_app_length. }
  destruct (llm_configurations d) as [l|] eqn:Hl; simpl.
  2:{ split_and!; try done.
      - split; [done|]. intros (_ & _ & d' & c & [= <-] & [? Hl'] & _).
        congruence.
      - intros _ _ d' c [= <-] [? Hl']. congruence. }
  destruct (nonEmpty (category_id d)) as [c|] eqn:Hc; simpl.
  2:{ split_and!; try done.
      - split; [done|]. intros (_ & _ & d' & c & [= <-] & _ & Hc' & _).
        congruence.
      - intros _ _ d' c [= <-] _ Hc'. congruence. }
  destruct (getCategory_error env) as [e|]; simpl.
  { split_and!; try done. split; [done|]. by intros (_ & [=] & _). }
  destruct (categories w !! c) as [data|] eqn:Hcat; simpl.
  - split_and!; try done.
    + split; [|done]. intros _. split_and!; try done.
      exists d, c. by split_and!.
    + intros _ _ d' c' [= <-] _ Hc' Hnone. congruence.
  - split_and!; try done.
    + split; [done|]. intros (_ & _ & d' & c' & [= <-] & _ & Hc' & [? Hcat']).
      congruence.
    + intros _ _ d' c' _ _ _ _. by rewrite <- !app_assoc, drop_app_length.
Qed.

(** X22 on the sample editor: read, complete, ready. *)
Lemma X22_editor_ready_witness :
  ready (view (run (fetchData Cases.envLlmDown (Some "sk1")) Cases.editorWorld))
  = true.
Proof.
  apply (proj1 (proj2 (X22_editor_ready Cases.envLlmDown (Some "sk1") "sk1"
                         Cases.editorWorld eq_refl eq_refl))).
  split_and!; [reflexivity..|].
  exists Cases.skel, "childhood". split_and!; [reflexivity| |reflexivity|];
    by eexists.
Defined.

End agent_settings5.

(** ** Category list *)
Section prompts_view.
Import Prompts PromptsView.

Lemma find_None cats categoryId :
  categoryId ∉ cats.*1 → find cats categoryId = None.
Proof.
  induction cats as [|[i c] cats IH]; simpl; [done|].
  rewrite not_elem_of_cons. intros [Hne Hnot].
  rewrite bool_decide_false by done. by apply IH.
Qed.

Lemma find_Some cats categoryId c :
  NoDup cats.*1 → (categoryId, c) ∈ cats → find cats categoryId = Some c.
Proof.
  induction cats as [|[i c'] cats IH]; simpl.
  - by intros _ ?%elem_of_nil.
  - intros Hnd Hin. apply list.NoDup_cons in Hnd as [Hnot Hnd].
    apply elem_of_cons in Hin as [[= <- <-]|Hin].
    + by rewrite bool_decide_true.
    + rewrite bool_decide_false; [by apply IH|].
      intros ->. apply Hnot, list_elem_of_fmap. by exists (categoryId, c).
Qed.

Lemma or_else_truthy a b : truthy b = true → or_else a b ≠ "".
Proof.
  unfold or_else. destruct a as [s|]; [destruct (truthy s) eqn:Hs|];
    intros Hb Heq; rewrite Heq in *; done.
Qed.

(** X23: a card never shows an empty title.  For a category id that is not
    in the list the card reads "Unknown Category" with empty description
    and emoji; for one that is, with a non-empty title, it shows that
    title, and its description with a missing one shown as empty. *)
Theorem X23_category_details cats categoryId :
  d_title (getCategoryDetails cats categoryId) ≠ "" ∧
  (categoryId ∉ cats.*1 →
   getCategoryDetails cats categoryId =
     {| d_title := "Unknown Category"; d_description := "";
        d_emoji_unicode := "" |}) ∧
  (∀ c t, NoDup cats.*1 → (categoryId, c) ∈ cats →
          title c = Some t → t ≠ "" →
          d_title (getCategoryDetails cats categoryId) = t ∧
          d_description (getCategoryDetails cats categoryId)
            = default "" (description c)).
Proof.
  split_and!.
  - by apply or_else_truthy.
  - intros Hnot. unfold getCategoryDetails. by rewrite find_None.
  - intros c t Hnd Hin Ht Hne. unfold getCategoryDetails.
    rewrite (find_Some _ _ c Hnd Hin). simpl. rewrite Ht. simpl. split.
    + by destruct t.
    + destruct (description c) as [s|]; simpl; [|done]. by destruct s.
Qed.

(** X23 on one category. *)
Lemma X23_category_details_witness :
  d_title (getCategoryDetails [("childhood", Cases.cat)] "childhood")
  = "Childhood".
Proof.
  refine (proj1 (proj2 (proj2 (X23_category_details
            [("childhood", Cases.cat)] "childhood"))
            Cases.cat "Childhood" _ _ eq_refl _)).
  - repeat constructor. by intros ?%elem_of_nil.
  - apply list_elem_of_here.
  - discriminate.
Defined.

End prompts_view.

(** ** Voice sample player *)
Section voice_sample.
Import VoiceSample.

Lemma sounding_app l a :
  length (filter (λ a, playing a = true) (l ++ [a])) =
  length (filter (λ a, playing a = true) l) + (if playing a then 1 else 0).
Proof.
  rewrite list.filter_app, length_app. f_equal.
  rewrite filter_cons, filter_nil. destruct (playing a); by case_decide.
Qed.

Lemma alter_last {A} (f : A → A) l a :
  alter f (length l) (l ++ [a]) = l ++ [f a].
Proof.
  rewrite <- (Nat.add_0_r (length l)). by rewrite alter_app_r.
Qed.

(** X24: a click on the sample button never touches an element that
    already exists: it always works on an element it has just created and
    makes [audioRef] point to it.  So "Stop Sample" silences nothing: with
    [isPlaying] set, the click clears the flag while exactly as many
    elements sound as before; only a click with the flag clear, whose
    [play()] resolves, adds one sounding element. *)
Theorem X24_sample_click_leaves_elements_alone play_ok voice w :
  let w' := handlePlaySample play_ok (Some voice) w in
  (∀ i a, elements w !! i = Some a → elements w' !! i = Some a) ∧
  audioRef w' = Some (length (elements w)) ∧
  length (elements w') = S (length (elements w)) ∧
  isPlaying w' = negb (isPlaying w) && play_ok ∧
  sounding w' =
    sounding w + (if negb (isPlaying w) && play_ok then 1 else 0).
Proof.
  intros w'. unfold w', handlePlaySample, sounding.
  destruct (isPlaying w); [|destruct play_ok]; simpl;
    rewrite ?alter_last; split_and!; try done;
    try (intros i a Hi; by apply lookup_app_l_Some);
    try (by rewrite length_app, Nat.add_comm);
    by rewrite sounding_app.
Qed.

(** X25: what does silence a sample is the effect on the selected voice,
    and only for the element [audioRef] points to.  Right after a click
    that started a sample, choosing a voice silences it; after a further
    click on "Stop Sample" the reference has moved on, and neither that
    click nor choosing a voice silences the sample that sounds. *)
Theorem X25_what_silences_a_sample voice w :
  isPlaying w = false →
  let playing1 := handlePlaySample true (Some voice) w in
  let stopped := handlePlaySample true (Some voice) playing1 in
  sounding playing1 = S (sounding w) ∧
  sounding (onSelectedVoice playing1) = sounding w ∧
  isPlaying stopped = false ∧
  sounding stopped = S (sounding w) ∧
  sounding (onSelectedVoice stopped) = S (sounding w).
Proof.
  intros Hidle playing1 stopped.
  unfold stopped, playing1, onSelectedVoice, handlePlaySample, sounding.
  rewrite Hidle. simpl. rewrite !alter_last. simpl.
  rewrite !sounding_app. simpl. split_and!; lia.
Qed.

(** X25 from the initial player. *)
Lemma X25_what_silences_a_sample_witness :
  let stopped :=
    handlePlaySample true (Some AIPreferences.DEFAULT_VOICE)
      (handlePlaySample true (Some AIPreferences.DEFAULT_VOICE) initial) in
  isPlaying stopped = false ∧ sounding (onSelectedVoice stopped) = 1.
Proof.
  intros stopped.
  destruct (X25_what_silences_a_sample AIPreferences.DEFAULT_VOICE initial
              eq_refl) as (_ & _ & Hflag & _ & Hsound).
  split; [exact Hflag|exact Hsound].
Defined.

End voice_sample.
